(** * coq-config: a shallow embedding of [coq-config.py]

    The script reads a YAML description of an OPAM environment, validates it
    against a fixed Cerberus schema, probes the existing switches and
    repositories, and then shells out to [opam] and [git] to converge on
    the described state.

    The embedding keeps the shape of the script: every Python function is
    a definition of the same name in a small monad that threads the outside
    world, logs what the process prints and which child processes it starts,
    and propagates Python exceptions ([SystemExit] included, since the
    script's bare [except:] clauses catch it too). *)

From Stdlib Require Import List String Ascii Bool ZArith Lia Arith.
Import ListNotations.

Local Open Scope string_scope.
Local Open Scope list_scope.

Set Warnings "-register-all".

(* ================================================================== *)
(** * Python strings *)
(* ================================================================== *)

(** A [str] is modelled by [string]; each character stands for a code point
    below 256.  [isspace] is Python's [str.isspace] on that range. *)
Module PyStr.

Definition isspace (c : ascii) : bool :=
  let n := nat_of_ascii c in
  (((9 <=? n) && (n <=? 13)) || ((28 <=? n) && (n <=? 32))
   || (n =? 133) || (n =? 160))%nat.

Definition newline : ascii := ascii_of_nat 10.

Definition NL : string := String newline EmptyString.

(** [s.split('\n')] *)
Fixpoint split_lines (s : string) : list string :=
  match s with
  | EmptyString => [EmptyString]
  | String c rest =>
      if Ascii.eqb c newline then EmptyString :: split_lines rest
      else match split_lines rest with
           | h :: t => String c h :: t
           | [] => [String c EmptyString]
           end
  end.

Fixpoint lstrip (s : string) : string :=
  match s with
  | EmptyString => EmptyString
  | String c rest => if isspace c then lstrip rest else s
  end.

Fixpoint rstrip (s : string) : string :=
  match s with
  | EmptyString => EmptyString
  | String c rest =>
      match rstrip rest with
      | EmptyString => if isspace c then EmptyString else String c EmptyString
      | r => String c r
      end
  end.

(** [s.strip()] *)
Definition strip (s : string) : string := rstrip (lstrip s).

(** [sep.join(l)] *)
Definition join (sep : string) (l : list string) : string :=
  String.concat sep l.

(** [template % args], for templates whose only directive is [%s] *)
Fixpoint fmt (template : string) (args : list string) : string :=
  match template with
  | EmptyString => EmptyString
  | String "%" (String "s" rest) =>
      match args with
      | a :: args' => a ++ fmt rest args'
      | [] => String "%" (String "s" (fmt rest []))
      end
  | String c rest => String c (fmt rest args)
  end.

(** [x in l] for a list of strings *)
Definition mem (x : string) (l : list string) : bool :=
  existsb (String.eqb x) l.

End PyStr.

(* ================================================================== *)
(** * Parsed YAML documents *)
(* ================================================================== *)

(** What [yaml.load] hands back.  A mapping is kept as the list of its
    items, in order; its keys are strings and, as in a Python [dict], no
    key occurs twice ([lookup] takes the first).  Scalars that are neither
    strings, booleans, integers nor null (floats, timestamps, ...) are
    [YOther]. *)
Inductive yaml : Type :=
| YNull
| YBool (b : bool)
| YInt (z : Z)
| YOther (repr : string)
| YStr (s : string)
| YList (items : list yaml)
| YDict (items : list (string * yaml)).

Fixpoint lookup {A : Type} (k : string) (kvs : list (string * A)) : option A :=
  match kvs with
  | [] => None
  | (k', v) :: rest => if String.eqb k k' then Some v else lookup k rest
  end.

(* ================================================================== *)
(** * The part of Cerberus the script relies on *)
(* ================================================================== *)

Module Cerberus.

Inductive ctype := TString | TBoolean | TList | TDict.

(** One rule set: the ['required'], ['type'] and ['schema'] keys. *)
Inductive rules : Type :=
| Rules (required : bool) (type : ctype) (schema : subschema)
with subschema : Type :=
| NoSchema
| Items (r : rules)
| Fields (fs : list (string * rules)).

Definition required (r : rules) : bool := let (q, _, _) := r in q.
Definition type (r : rules) : ctype := let (_, t, _) := r in t.
Definition schema (r : rules) : subschema := let (_, _, s) := r in s.

Inductive key := Field (name : string) | Index (i : nat).
Definition path := list key.

Inductive violation :=
| RequiredField          (* 'required field' *)
| UnknownField           (* 'unknown field' *)
| NotNullable            (* 'null value not allowed' *)
| BadType (t : ctype).   (* 'must be of ... type' *)

Definition error : Type := path * violation.

Definition has_type (t : ctype) (v : yaml) : bool :=
  match t, v with
  | TString, YStr _ => true
  | TBoolean, YBool _ => true
  | TList, YList _ => true
  | TDict, YDict _ => true
  | _, _ => false
  end.

(** every item of a sequence against one rule set *)
Definition check_items (chk : path -> yaml -> list error) (p : path)
  : nat -> list yaml -> list error :=
  fix go (i : nat) (vs : list yaml) : list error :=
    match vs with
    | [] => []
    | x :: xs => chk (p ++ [Index i]) x ++ go (S i) xs
    end.

(** every field of a mapping that is present: unknown, or checked *)
Definition check_present (chk : rules -> path -> yaml -> list error)
  (fs : list (string * rules)) (p : path)
  : list (string * yaml) -> list error :=
  fix go (kvs : list (string * yaml)) : list error :=
    match kvs with
    | [] => []
    | (k, x) :: rest =>
        match lookup k fs with
        | None => [(p ++ [Field k], UnknownField)]
        | Some r => chk r (p ++ [Field k]) x
        end ++ go rest
    end.

(** required fields that are absent *)
Fixpoint check_required (fs : list (string * rules)) (p : path)
  (kvs : list (string * yaml)) : list error :=
  match fs with
  | [] => []
  | (f, r) :: rest =>
      (if required r
       then match lookup f kvs with
            | None => [(p ++ [Field f], RequiredField)]
            | Some _ => []
            end
       else [])
      ++ check_required rest p kvs
  end.

Fixpoint validate_value (r : rules) (p : path) (v : yaml) {struct v}
  : list error :=
  match v with
  | YNull => [(p, NotNullable)]
  | YList vs =>
      if has_type (type r) v then
        match schema r with
        | Items ir => check_items (validate_value ir) p 0 vs
        | _ => []
        end
      else [(p, BadType (type r))]
  | YDict kvs =>
      if has_type (type r) v then
        match schema r with
        | Fields fs =>
            check_present validate_value fs p kvs ++ check_required fs p kvs
        | _ => []
        end
      else [(p, BadType (type r))]
  | _ => if has_type (type r) v then [] else [(p, BadType (type r))]
  end.

(** [Validator(schema).validate(doc, schema)]: [None] stands for the
    [DocumentError] raised on a document that is not a mapping; otherwise
    the list is [v.errors], empty exactly when [validate] returns [True]. *)
Definition validate (sch : list (string * rules)) (doc : yaml)
  : option (list error) :=
  match doc with
  | YDict _ => Some (validate_value (Rules true TDict (Fields sch)) [] doc)
  | _ => None
  end.

End Cerberus.
Import Cerberus.

Definition SCHEMA : list (string * rules) :=
  [ ("opam",
      Rules true TDict (Fields
        [ ("switch", Rules true TString NoSchema);
          ("compiler", Rules true TString NoSchema) ]));
    ("dependencies",
      Rules false TList (Items (Rules false TString NoSchema)));
    ("extra-deps",
      Rules false TList (Items (Rules false TDict (Fields
        [ ("git", Rules true TString NoSchema);
          ("commit", Rules false TString NoSchema);
          ("recurse-submodules", Rules false TBoolean NoSchema);
          ("path", Rules true TString NoSchema) ]))));
    ("repositories",
      Rules false TList (Items (Rules false TDict (Fields
        [ ("name", Rules true TString NoSchema);
          ("address", Rules true TString NoSchema) ])))) ].

(* ================================================================== *)
(** * The validated document *)
(* ================================================================== *)

(** A document that passed validation has exactly the keys of [SCHEMA];
    a key with ['required': False] may be missing, which is [None] here. *)
Record opam_cfg := { opam_switch : string; opam_compiler : string }.

Record extra_dep := {
  ed_git : string;
  ed_commit : option string;
  ed_recurse_submodules : option bool;
  ed_path : string }.

Record repository := { repo_name : string; repo_address : string }.

Record config := {
  cfg_opam : opam_cfg;
  cfg_dependencies : option (list string);
  cfg_extra_deps : option (list extra_dep);
  cfg_repositories : option (list repository) }.

Module Decode.

Definition bind {A B} (o : option A) (f : A -> option B) : option B :=
  match o with Some a => f a | None => None end.

Definition as_str (v : yaml) : option string :=
  match v with YStr s => Some s | _ => None end.

Definition as_bool (v : yaml) : option bool :=
  match v with YBool b => Some b | _ => None end.

Fixpoint all {A} (f : yaml -> option A) (vs : list yaml) : option (list A) :=
  match vs with
  | [] => Some []
  | v :: rest =>
      bind (f v) (fun a => bind (all f rest) (fun l => Some (a :: l)))
  end.

Definition as_list {A} (f : yaml -> option A) (v : yaml) : option (list A) :=
  match v with YList vs => all f vs | _ => None end.

(** a key that may be missing *)
Definition optional {A} (f : yaml -> option A) (o : option yaml)
  : option (option A) :=
  match o with
  | None => Some None
  | Some v => bind (f v) (fun a => Some (Some a))
  end.

Definition as_opam (v : yaml) : option opam_cfg :=
  match v with
  | YDict kvs =>
      bind (bind (lookup "switch" kvs) as_str) (fun s =>
      bind (bind (lookup "compiler" kvs) as_str) (fun c =>
      Some {| opam_switch := s; opam_compiler := c |}))
  | _ => None
  end.

Definition as_extra_dep (v : yaml) : option extra_dep :=
  match v with
  | YDict kvs =>
      bind (bind (lookup "git" kvs) as_str) (fun g =>
      bind (optional as_str (lookup "commit" kvs)) (fun c =>
      bind (optional as_bool (lookup "recurse-submodules" kvs)) (fun rs =>
      bind (bind (lookup "path" kvs) as_str) (fun p =>
      Some {| ed_git := g; ed_commit := c;
              ed_recurse_submodules := rs; ed_path := p |}))))
  | _ => None
  end.

Definition as_repository (v : yaml) : option repository :=
  match v with
  | YDict kvs =>
      bind (bind (lookup "name" kvs) as_str) (fun n =>
      bind (bind (lookup "address" kvs) as_str) (fun a =>
      Some {| repo_name := n; repo_address := a |}))
  | _ => None
  end.

Definition as_config (doc : yaml) : option config :=
  match doc with
  | YDict kvs =>
      bind (bind (lookup "opam" kvs) as_opam) (fun o =>
      bind (optional (as_list as_str) (lookup "dependencies" kvs)) (fun ds =>
      bind (optional (as_list as_extra_dep) (lookup "extra-deps" kvs)) (fun es =>
      bind (optional (as_list as_repository) (lookup "repositories" kvs)) (fun rs =>
      Some {| cfg_opam := o; cfg_dependencies := ds;
              cfg_extra_deps := es; cfg_repositories := rs |}))))
  | _ => None
  end.

End Decode.

(* ================================================================== *)
(** * The outside world, events and exceptions *)
(* ================================================================== *)

(** Everything the script asks of its environment.  A child process may
    change the world; [check_output] yields the captured stdout, or [None]
    when the child cannot be started or exits non-zero; [check_call] says
    whether the child ran and exited with status 0.  [load_yaml] is
    [open] followed by [yaml.load], [None] when either raises.

    [load_yaml] is a function of the machine and the file name: reading
    the file is taken to start nothing and to change nothing.  This holds
    for files of plain YAML.  The script passes PyYAML's full [Loader],
    which also accepts the [!!python/...] tags and then builds Python
    objects, calling what the file names; such files, and the values
    they produce (tuples, byte strings, arbitrary objects), are outside
    this embedding. *)
Record OS : Type := {
  World : Type;
  path_exists : World -> string -> bool;
  expanduser : World -> string -> string;
  load_yaml : World -> string -> option yaml;
  check_output : World -> list string -> World * option string;
  check_call : World -> list string -> option string -> World * bool }.

Inductive exn : Type :=
| SystemExit (code : Z)
| UnboundLocalError (name : string)
| KeyError (key : string)
| CalledProcessError (argv : list string)
| LoadError
| DocumentError
| TypeError.

Inductive event : Type :=
| Stdout (line : string)                         (* print(...) *)
| StdoutErrors (errs : list Cerberus.error)      (* print(v.errors) *)
| Show (e : exn)                                 (* stackprinter.show() *)
| Call (argv : list string) (cwd : option string) (ok : bool)
| Output (argv : list string) (out : option string).

Inductive res (A : Type) : Type :=
| Ok (a : A)
| Raise (e : exn).
Arguments Ok {A} a.
Arguments Raise {A} e.

Section Script.

Context (os : OS).

Definition M (A : Type) : Type :=
  World os -> World os * list event * res A.

Definition ret {A} (a : A) : M A := fun w => (w, [], Ok a).

Definition bind {A B} (m : M A) (k : A -> M B) : M B :=
  fun w =>
    match m w with
    | (w1, es1, Ok a) =>
        let '(w2, es2, r) := k a w1 in (w2, es1 ++ es2, r)
    | (w1, es1, Raise e) => (w1, es1, Raise e)
    end.

Definition raise {A} (e : exn) : M A := fun w => (w, [], Raise e).

(** [try: body / except: handler]; a bare [except:] catches every
    exception, [SystemExit] too. *)
Definition try_except {A} (body : M A) (handler : exn -> M A) : M A :=
  fun w =>
    match body w with
    | (w1, es1, Ok a) => (w1, es1, Ok a)
    | (w1, es1, Raise e) =>
        let '(w2, es2, r) := handler e w1 in (w2, es1 ++ es2, r)
    end.

Definition emit (e : event) : M unit := fun w => (w, [e], Ok tt).

End Script.

Arguments ret {os A} a.
Arguments bind {os A B} m k.
Arguments raise {os A} e.
Arguments try_except {os A} body handler.
Arguments emit {os} e.

Declare Scope py_scope.
Delimit Scope py_scope with py.
Notation "x <- m ;; k" := (bind m (fun x => k))
  (at level 61, m at next level, right associativity) : py_scope.
Notation "m ;; k" := (bind m (fun _ => k))
  (at level 61, right associativity) : py_scope.
Notation "'try' body 'except' x => handler" :=
  (try_except body (fun x => handler))
  (at level 10, x name, body at level 200, handler at level 200) : py_scope.

(* ================================================================== *)
(** * The script *)
(* ================================================================== *)

Section Source.

Context {os : OS}.
Import PyStr.
Local Open Scope py_scope.

Definition print (s : string) : M os unit := emit (Stdout s).

Definition sys_exit {A} (code : Z) : M os A := raise (SystemExit code).

(** [stackprinter.show()] inside an [except:] block *)
Definition show (e : exn) : M os unit := emit (Show e).

Definition when (b : bool) (m : M os unit) : M os unit :=
  if b then m else ret tt.

(** reading a local variable that may not have been assigned *)
Definition local {A} (name : string) (v : option A) : M os A :=
  match v with
  | Some a => ret a
  | None => raise (UnboundLocalError name)
  end.

(** [d[key]] on the validated document *)
Definition getitem {A} (key : string) (v : option A) : M os A :=
  match v with
  | Some a => ret a
  | None => raise (KeyError key)
  end.

(** [d.get(key, default)] *)
Definition get {A} (v : option A) (default : A) : A :=
  match v with Some a => a | None => default end.

Fixpoint for_each {A} (l : list A) (body : A -> M os unit) : M os unit :=
  match l with
  | [] => ret tt
  | x :: rest => body x ;; for_each rest body
  end.

Definition os_path_exists (p : string) : M os bool :=
  fun w => (w, [], Ok (path_exists os w p)).

Definition os_path_expanduser (p : string) : M os string :=
  fun w => (w, [], Ok (expanduser os w p)).

Definition subprocess_check_output (argv : list string) : M os string :=
  fun w =>
    match check_output os w argv with
    | (w', Some out) => (w', [Output argv (Some out)], Ok out)
    | (w', None) => (w', [Output argv None], Raise (CalledProcessError argv))
    end.

Definition subprocess_check_call (argv : list string) (cwd : option string)
  : M os unit :=
  fun w =>
    match check_call os w argv cwd with
    | (w', true) => (w', [Call argv cwd true], Ok tt)
    | (w', false) => (w', [Call argv cwd false], Raise (CalledProcessError argv))
    end.

Definition OPAMROOT : string := "~/.opam".

Definition opam_get_switches (verbose : bool) : M os (list string) :=
  when verbose (print "Checking OPAM switches") ;;
  switches <-
    (try subprocess_check_output ["opam"; "switch"; "list"; "-s"]
     except e =>
       print "Error getting list of OPAM switches" ;;
       show e ;;
       sys_exit 2) ;;
  ret (map strip (split_lines switches)).

Definition opam_get_repositoris (verbose : bool) (switch : string)
  : M os (list string) :=
  when verbose (print "Checking OPAM repositories") ;;
  repos <-
    (try subprocess_check_output
           ["opam"; "repo"; "list"; "-s"; fmt "--on-switches=%s" [switch]]
     except e =>
       print "Error getting list of OPAM repositories" ;;
       show e ;;
       sys_exit 2) ;;
  ret (map strip (split_lines repos)).

Definition opam_check (verbose : bool) : M os unit :=
  when verbose (print "Checking OPAM presence") ;;
  root <- os_path_expanduser OPAMROOT ;;
  present <- os_path_exists root ;;
  if negb present then
    print "OPAM is not initialized. Please set up OPAM with `opam init`." ;;
    sys_exit 2
  else ret tt.

Definition yaml_load (cfgfile : string) : M os yaml :=
  fun w =>
    match load_yaml os w cfgfile with
    | Some doc => (w, [], Ok doc)
    | None => (w, [], Raise LoadError)
    end.

Definition Validator_validate (doc : yaml) : M os (list Cerberus.error) :=
  match Cerberus.validate SCHEMA doc with
  | Some errs => ret errs
  | None => raise DocumentError
  end.

Definition load_config (verbose : bool) (cfgfile : string) : M os config :=
  present <- os_path_exists cfgfile ;;
  (if negb present then
     print (fmt "'%s' not found" [cfgfile]) ;;
     sys_exit 1
   else ret tt) ;;
  when verbose (print (fmt "Loading '%s'" [cfgfile])) ;;
  try
    cfg <- yaml_load cfgfile ;;
    errors <- Validator_validate cfg ;;
    match errors with
    | _ :: _ =>
        print (fmt "Invalid config '%s'" [cfgfile]) ;;
        emit (StdoutErrors errors) ;;
        sys_exit 1
    | [] =>
        match Decode.as_config cfg with
        | Some c => ret c
        | None => raise TypeError
        end
    end
  except e =>
    print (fmt "Error reading '%s'" [cfgfile]) ;;
    show e ;;
    sys_exit 1.

Definition opam_switch_create (verbose dry_run : bool)
  (switch compiler : string) : M os unit :=
  cmd <-
    (if verbose then
       print (fmt "Creating switch '%s'" [switch]) ;;
       ret (Some ["opam"; "switch"; "create"; "--no-switch"; switch; compiler])
     else ret None) ;;
  try
    (if dry_run then
       c <- local "cmd" cmd ;;
       print (fmt "DRY RUN: %s" [join " " c])
     else
       c <- local "cmd" cmd ;;
       subprocess_check_call c None) ;;
    when verbose (print (fmt "Switch '%s' successfully created" [switch]))
  except e =>
    print "Error creating OPAM switch" ;;
    show e ;;
    sys_exit 3.

Definition opam_repo_add (verbose dry_run : bool) (switch rn ra : string)
  : M os unit :=
  cmd <-
    (if verbose then
       print (fmt "Adding repository '%s'" [rn]) ;;
       ret (Some ["opam"; "repo"; "add"; rn; ra;
                  fmt "--on-switches=%s" [switch]])
     else ret None) ;;
  try
    (if dry_run then
       c <- local "cmd" cmd ;;
       print (fmt "DRY RUN: %s" [join " " c])
     else
       c <- local "cmd" cmd ;;
       subprocess_check_call c None) ;;
    when verbose (print (fmt "Repository '%s' successfully created" [rn]))
  except e =>
    print "Error adding OPAM repository" ;;
    show e ;;
    sys_exit 3.

Definition opam_install_packages (verbose dry_run : bool) (switch : string)
  (packages : list string) : M os unit :=
  let pkgs := join " " packages in
  when verbose (print (fmt "Installing: %s" [pkgs])) ;;
  try
    (let cmd :=
       if dry_run then
         ["opam"; "install"; "--dry-run"; fmt "--switch=%s" [switch]]
           ++ packages
       else
         ["opam"; "install"; "--yes"; fmt "--switch=%s" [switch]]
           ++ packages in
     subprocess_check_call cmd None ;;
     when verbose (print (fmt "Installed: %s" [pkgs])))
  except e =>
    print "Error installing pakages" ;;
    show e ;;
    sys_exit 3.

Definition git_clone (verbose dry_run : bool) (path git_url : string)
  (rs : bool) : M os unit :=
  cmd <-
    (if verbose then
       print (fmt "Cloning from git '%s'" [git_url]) ;;
       if rs then
         ret (Some ["git"; "clone"; "--recurse-submodules"; git_url; path])
       else
         ret (Some ["git"; "clone"; "-n"; git_url; path])
     else ret None) ;;
  try
    (if dry_run then
       c <- local "cmd" cmd ;;
       print (fmt "DRY RUN: %s" [join " " c])
     else
       c <- local "cmd" cmd ;;
       subprocess_check_call c None) ;;
    when verbose (print (fmt "Cloned '%s' to '%s'" [git_url; path]))
  except e =>
    print "Error performing git clone" ;;
    show e ;;
    sys_exit 3.

Definition git_checkout (verbose dry_run : bool) (path : string)
  (commit : option string) (rs : bool) : M os unit :=
  cmd <-
    (if verbose then
       print (fmt "Checking out at '%s'" [path]) ;;
       let cmd := ["git"; "checkout"] in
       let cmd := if rs then cmd ++ ["--recurse-submodules"] else cmd in
       let cmd := match commit with
                  | Some c => cmd ++ [c]
                  | None => cmd
                  end in
       ret (Some cmd)
     else ret None) ;;
  try
    (if dry_run then
       c <- local "cmd" cmd ;;
       print (fmt "DRY RUN: %s" [join " " c])
     else
       c <- local "cmd" cmd ;;
       subprocess_check_call c (Some path)) ;;
    when verbose (print (fmt "Checked out at '%s'" [path]))
  except e =>
    print "Error performing git checkout" ;;
    show e ;;
    sys_exit 3.

Definition CONFIG : string := "coq_config.yaml".

(** lines 237-243 of [main] *)
Definition ensure_switch (verbose dry_run : bool) (cfg : config)
  (switches : list string) : M os unit :=
  let switch := opam_switch (cfg_opam cfg) in
  if mem switch switches then
    when verbose (print (fmt "Switch '%s' found" [switch]))
  else
    opam_switch_create verbose dry_run switch (opam_compiler (cfg_opam cfg)).

(** body of the loop over [cfg['repositories']] *)
Definition ensure_repository (verbose dry_run : bool) (switch : string)
  (repos : list string) (r : repository) : M os unit :=
  let rn := repo_name r in
  if mem rn repos then
    when verbose (print (fmt "Repository '%s' found" [rn]))
  else
    opam_repo_add verbose dry_run switch rn (repo_address r).

(** body of the loop over [cfg['extra-deps']] *)
Definition ensure_extra_dep (verbose dry_run : bool) (d : extra_dep)
  : M os unit :=
  let p := ed_path d in
  let rs := get (ed_recurse_submodules d) false in
  present <- os_path_exists p ;;
  (if negb present then git_clone verbose dry_run p (ed_git d) rs
   else ret tt) ;;
  git_checkout verbose dry_run p (ed_commit d) rs.

(** [main], after the configuration is loaded *)
Definition reconcile (verbose dry_run : bool) (cfg : config) : M os unit :=
  opam_check verbose ;;
  switches <- opam_get_switches verbose ;;
  let switch := opam_switch (cfg_opam cfg) in
  ensure_switch verbose dry_run cfg switches ;;
  repos <- opam_get_repositoris verbose switch ;;
  repositories <- getitem "repositories" (cfg_repositories cfg) ;;
  for_each repositories (ensure_repository verbose dry_run switch repos) ;;
  dependencies <- getitem "dependencies" (cfg_dependencies cfg) ;;
  opam_install_packages verbose dry_run switch dependencies ;;
  extra_deps <- getitem "extra-deps" (cfg_extra_deps cfg) ;;
  for_each extra_deps (ensure_extra_dep verbose dry_run) ;;
  sys_exit 0.

Definition main (verbose dry_run : bool) (config : string) : M os unit :=
  cfg <- load_config verbose config ;;
  reconcile verbose dry_run cfg.

(** The process, from the moment [click] calls [main] with the parsed
    flags: an uncaught [SystemExit] sets the status, any other uncaught
    exception is reported by the exception hook and the interpreter
    exits with status 1.  What [click] does on its own before that --
    printing the help or the version and leaving with status 0, or
    refusing the command line with status 2 -- is not part of [run]:
    [main] is not called then. *)
Definition run (verbose dry_run : bool) (config : string) (w : World os)
  : World os * list event * Z :=
  match main verbose dry_run config w with
  | (w', es, Ok _) => (w', es, 0%Z)
  | (w', es, Raise (SystemExit code)) => (w', es, code)
  | (w', es, Raise e) => (w', es ++ [Show e], 1%Z)
  end.

Definition exit_code (verbose dry_run : bool) (config : string)
  (w : World os) : Z :=
  snd (run verbose dry_run config w).

Definition trace (verbose dry_run : bool) (config : string)
  (w : World os) : list event :=
  snd (fst (run verbose dry_run config w)).

End Source.

(** Command lines: equality, and what follows a given prefix. *)
Fixpoint argv_eqb (a b : list string) : bool :=
  match a, b with
  | [], [] => true
  | x :: a', y :: b' => String.eqb x y && argv_eqb a' b'
  | _, _ => false
  end.

Fixpoint after (pre argv : list string) : option (list string) :=
  match pre, argv with
  | [], _ => Some argv
  | p :: pre', a :: argv' =>
      if String.eqb p a then after pre' argv' else None
  | _ :: _, [] => None
  end.

(* ================================================================== *)
(** * A small simulated machine *)
(* ================================================================== *)

(** A concrete [OS] to run the script on: a set of existing paths, the
    parsed content of the YAML files, the OPAM switches, the repositories
    attached to each switch, and the command lines that fail. *)
Module Sim.

Import PyStr.

Record world := {
  paths : list string;
  documents : list (string * yaml);
  switches : list string;
  repos : list (string * string);
  failing : list (list string) }.

Definition fails (w : world) (argv : list string) : bool :=
  existsb (argv_eqb argv) (failing w).

(** one name per line, each line terminated *)
Definition lines (l : list string) : string :=
  String.concat EmptyString (map (fun x => x ++ NL)%string l).

Definition repos_on (w : world) (sel : string) : list string :=
  map snd
    (filter (fun sr => String.eqb (fmt "--on-switches=%s" [fst sr]) sel)
            (repos w)).

Definition sim_check_output (w : world) (argv : list string)
  : world * option string :=
  if fails w argv then (w, None)
  else match after ["opam"; "switch"; "list"; "-s"] argv with
       | Some [] => (w, Some (lines (switches w)))
       | _ =>
           match after ["opam"; "repo"; "list"; "-s"] argv with
           | Some [sel] => (w, Some (lines (repos_on w sel)))
           | _ => (w, None)
           end
       end.

Definition with_switch (w : world) (s : string) : world :=
  {| paths := paths w; documents := documents w;
     switches := switches w ++ [s]; repos := repos w;
     failing := failing w |}.

Definition with_repo (w : world) (sel rn : string) : world :=
  {| paths := paths w; documents := documents w;
     switches := switches w;
     repos := repos w ++
              map (fun s => (s, rn))
                  (filter (fun s =>
                             String.eqb (fmt "--on-switches=%s" [s]) sel)
                          (switches w));
     failing := failing w |}.

Definition with_path (w : world) (p : string) : world :=
  {| paths := paths w ++ [p]; documents := documents w;
     switches := switches w; repos := repos w;
     failing := failing w |}.

Definition sim_check_call (w : world) (argv : list string)
  (cwd : option string) : world * bool :=
  if fails w argv then (w, false)
  else
    match after ["opam"; "switch"; "create"; "--no-switch"] argv with
    | Some [s; _] => (with_switch w s, true)
    | _ =>
        match after ["opam"; "repo"; "add"] argv with
        | Some [rn; _; sel] => (with_repo w sel rn, true)
        | _ =>
            match after ["git"; "clone"] argv with
            | Some [_; _; p] => (with_path w p, true)
            | _ =>
                match after ["git"; "checkout"] argv, cwd with
                | Some _, Some d => (w, mem d (paths w))
                | _, _ => (w, true)
                end
            end
        end
    end.

Definition sim_expanduser (w : world) (p : string) : string :=
  match p with
  | String "~" rest => ("/home/user" ++ rest)%string
  | _ => p
  end.

Definition machine : OS := {|
  World := world;
  path_exists := fun w p => mem p (paths w);
  expanduser := sim_expanduser;
  load_yaml := fun w p => lookup p (documents w);
  check_output := sim_check_output;
  check_call := sim_check_call |}.

End Sim.

(* ================================================================== *)
(** * Reading a run *)
(* ================================================================== *)

Definition events_of {os A} (m : M os A) (w : World os) : list event :=
  snd (fst (m w)).

Definition result_of {os A} (m : M os A) (w : World os) : res A :=
  snd (m w).

Definition world_of {os A} (m : M os A) (w : World os) : World os :=
  fst (fst (m w)).

(** the child processes started for their effect, in order *)
Definition calls (es : list event) : list (list string * option string) :=
  flat_map (fun e => match e with
                     | Call argv cwd _ => [(argv, cwd)]
                     | _ => []
                     end) es.

(** the lines printed on standard output *)
Definition printed (es : list event) : list string :=
  flat_map (fun e => match e with
                     | Stdout s => [s]
                     | _ => []
                     end) es.

(** a child process that was started and did not succeed *)
Definition failed (e : event) : bool :=
  match e with
  | Call _ _ false => true
  | Output _ None => true
  | _ => false
  end.

Definition is_create_switch (c : list string * option string) : bool :=
  match after ["opam"; "switch"; "create"] (fst c) with
  | Some _ => true
  | None => false
  end.

Definition is_repo_add (c : list string * option string) : bool :=
  match after ["opam"; "repo"; "add"] (fst c) with
  | Some _ => true
  | None => false
  end.

Definition is_clone (c : list string * option string) : bool :=
  match after ["git"; "clone"] (fst c) with
  | Some _ => true
  | None => false
  end.

Definition is_checkout (c : list string * option string) : bool :=
  match after ["git"; "checkout"] (fst c) with
  | Some _ => true
  | None => false
  end.

(** [field_at p doc]: the value found by following the keys [p] *)
Fixpoint field_at (p : list string) (doc : yaml) : option yaml :=
  match p with
  | [] => Some doc
  | k :: p' =>
      match doc with
      | YDict kvs =>
          match lookup k kvs with
          | Some v => field_at p' v
          | None => None
          end
      | _ => None
      end
  end.

(* ================================================================== *)
(** * Properties of runs *)
(* ================================================================== *)

(** What a computation leaves behind, its value aside: the events and the
    exception it ended with, if any. *)
Definition raised {A} (r : res A) : option exn :=
  match r with Ok _ => None | Raise e => Some e end.

Section Judgement.

Context {os : OS}.

(** [post R m]: every run of [m] leaves events and an ending related
    by [R]. *)
Definition post {A} (R : list event -> option exn -> Prop) (m : M os A)
  : Prop :=
  forall w, R (events_of m w) (raised (result_of m w)).

(** Properties that survive sequencing: nothing happened is fine, and a
    normal ending followed by a fine run is fine. *)
Record sequential (R : list event -> option exn -> Prop) : Prop := {
  seq_nil : R [] None;
  seq_app : forall es1 es2 r, R es1 None -> R es2 r -> R (es1 ++ es2) r }.

End Judgement.

(** [only P Q]: every event satisfies [P], and an exception, if one ends
    the run, satisfies [Q]. *)
Definition only (P : event -> Prop) (Q : exn -> Prop)
  (es : list event) (r : option exn) : Prop :=
  Forall P es /\ match r with Some e => Q e | None => True end.

(** [fail_fast]: child processes succeed, except that the run may have
    stopped at the first one that did not -- after which nothing else is
    started, and the run ends with status 2 for a probe and 3 for a
    command. *)
Definition quiet (e : event) : Prop := failed e = false.

Inductive fail_fast : list event -> option exn -> Prop :=
| ff_clean es r :
    Forall quiet es -> fail_fast es r
| ff_call es argv cwd tail :
    Forall quiet es -> Forall quiet tail ->
    fail_fast (es ++ Call argv cwd false :: tail) (Some (SystemExit 3))
| ff_probe es argv tail :
    Forall quiet es -> Forall quiet tail ->
    fail_fast (es ++ Output argv None :: tail) (Some (SystemExit 2)).

(** The only child process a dry run may start for its effect. *)
Definition dry_call (e : event) : bool :=
  match e with
  | Call argv _ _ =>
      match after ["opam"; "install"; "--dry-run"] argv with
      | Some _ => true
      | None => false
      end
  | _ => true
  end.

Definition harmless (e : event) : Prop := dry_call e = true.

Definition anything {A : Type} (x : A) : Prop := True.

Definition exits (code : Z) (e : exn) : Prop := e = SystemExit code.

(** the statuses the script can end with, or a [KeyError] *)
Definition status_or_keyerror (e : exn) : Prop :=
  (exists n, e = SystemExit n /\ (0 <= n <= 3)%Z) \/ (exists k, e = KeyError k).

(** ending with anything but status 0 *)
Definition not_success (e : exn) : Prop := e <> SystemExit 0.

(** every child process, probes included *)
Definition processes (es : list event) : list (list string) :=
  flat_map (fun e => match e with
                     | Call argv _ _ => [argv]
                     | Output argv _ => [argv]
                     | _ => []
                     end) es.

(** the command line a clone must have for the entry [d] *)
Definition clone_shape (d : extra_dep) : list string :=
  match ed_recurse_submodules d with
  | Some true => ["git"; "clone"; "--recurse-submodules"; ed_git d; ed_path d]
  | _ => ["git"; "clone"; "-n"; ed_git d; ed_path d]
  end.

(* ================================================================== *)
(** * Expected command lines and narration *)
(* ================================================================== *)

Section Expected.

Context {os : OS}.
Import PyStr.

Definition narration (verbose : bool) (line : string) : list event :=
  if verbose then [Stdout line] else [].

Definition switch_list_argv : list string := ["opam"; "switch"; "list"; "-s"].

Definition repo_list_argv (switch : string) : list string :=
  ["opam"; "repo"; "list"; "-s"; fmt "--on-switches=%s" [switch]].

Definition create_switch_argv (switch compiler : string) : list string :=
  ["opam"; "switch"; "create"; "--no-switch"; switch; compiler].

Definition repo_add_argv (switch rn ra : string) : list string :=
  ["opam"; "repo"; "add"; rn; ra; fmt "--on-switches=%s" [switch]].

Definition clone_argv (rs : bool) (git_url path : string) : list string :=
  if rs then ["git"; "clone"; "--recurse-submodules"; git_url; path]
  else ["git"; "clone"; "-n"; git_url; path].

Definition checkout_argv (rs : bool) (commit : option string)
  : list string :=
  ["git"; "checkout"]
    ++ (if rs then ["--recurse-submodules"] else [])
    ++ match commit with Some c => [c] | None => [] end.

(** a command run for its effect, between the two lines that narrate
    it; on failure the handler's report and status 3 *)
Definition narrated (before after_ok report : string)
  (argv : list string) (cwd : option string) (w : World os)
  : World os * list event * res unit :=
  match check_call os w argv cwd with
  | (w', true) =>
      (w', [Stdout before; Call argv cwd true; Stdout after_ok], Ok tt)
  | (w', false) =>
      (w', [Stdout before; Call argv cwd false; Stdout report;
            Show (CalledProcessError argv)],
       Raise (SystemExit 3))
  end.

(** the same step under [--dry-run] *)
Definition described (before after_ok : string) (argv : list string)
  (w : World os) : World os * list event * res unit :=
  (w, [Stdout before; Stdout (fmt "DRY RUN: %s" [join " " argv]);
       Stdout after_ok], Ok tt).

End Expected.

(** the rule set of the [opam] section, as in [SCHEMA] *)
Definition opam_rules : rules :=
  Rules true TDict (Fields
    [ ("switch", Rules true TString NoSchema);
      ("compiler", Rules true TString NoSchema) ]).

(* ================================================================== *)
(** * Scenarios on the simulated machine *)
(* ================================================================== *)

Module Scenario.

Import Sim.

Definition opam_section (switch compiler : string) : string * yaml :=
  ("opam", YDict [("switch", YStr switch); ("compiler", YStr compiler)]).

Definition coq_released : yaml :=
  YDict [ ("name", YStr "coq-released");
          ("address", YStr "https://coq.inria.fr/opam/released") ].

Definition dep_x : yaml :=
  YDict [ ("git", YStr "https://example.com/x.git");
          ("path", YStr "./x");
          ("commit", YStr "abc123") ].

(** a machine with OPAM initialised, one switch [default], no
    repository, nothing failing, and [doc] in [coq_config.yaml] *)
Definition fresh (doc : yaml) : world :=
  {| paths := ["coq_config.yaml"; "/home/user/.opam"];
     documents := [("coq_config.yaml", doc)];
     switches := ["default"];
     repos := [];
     failing := [] |}.

(** a new switch, one repository, one package, one checkout *)
Definition full : yaml :=
  YDict [ opam_section "4.14" "4.14.0";
          ("dependencies", YList [YStr "coq"]);
          ("repositories", YList [coq_released]);
          ("extra-deps", YList [dep_x]) ].

(** only the required section, on the existing switch *)
Definition minimal : yaml := YDict [ opam_section "default" "4.14.0" ].

(** the same with the three lists spelled out, empty *)
Definition minimal_explicit : yaml :=
  YDict [ opam_section "default" "4.14.0";
          ("dependencies", YList []);
          ("repositories", YList []);
          ("extra-deps", YList []) ].

(** the existing switch and one repository to attach *)
Definition one_repository : yaml :=
  YDict [ opam_section "default" "4.14.0";
          ("dependencies", YList []);
          ("repositories", YList [coq_released]);
          ("extra-deps", YList []) ].

(** the existing switch and one checkout *)
Definition one_extra_dep : yaml :=
  YDict [ opam_section "default" "4.14.0";
          ("dependencies", YList []);
          ("repositories", YList []);
          ("extra-deps", YList [dep_x]) ].

(** the same machine with [./x] already on disk *)
Definition with_x (doc : yaml) : world := with_path (fresh doc) "./x".

(** the same machine with [coq-released] attached to [default] *)
Definition attached (doc : yaml) : world :=
  with_repo (fresh doc) "--on-switches=default" "coq-released".



(** the compiler is not given *)
Definition no_compiler : yaml :=
  YDict [ ("opam", YDict [("switch", YStr "4.14")]);
          ("dependencies", YList [YStr "coq"]) ].

Definition sim_run (verbose dry_run : bool) (w : world)
  : list event * Z :=
  let '(_, es, code) := run (os:=machine) verbose dry_run CONFIG w in
  (es, code).

Definition sim_calls (verbose dry_run : bool) (w : world)
  : list (list string * option string) :=
  calls (fst (sim_run verbose dry_run w)).

Definition sim_status (verbose dry_run : bool) (w : world) : Z :=
  snd (sim_run verbose dry_run w).

End Scenario.
Import Scenario.

(* ================================================================== *)
(** * What a probe is said to return *)
(* ================================================================== *)

(** The words used for the result of a probe -- the lines of the
    output, split at newlines, white space stripped -- written down on
    their own, without [PyStr.split_lines] and [PyStr.strip], to be
    compared with what [opam_get_switches] and [opam_get_repositoris]
    compute. *)
Module ProbeWords.









End ProbeWords.

(* ================================================================== *)
(** * Writing a configuration back as a document *)
(* ================================================================== *)

(** The document a configuration is read from, keys in the order of
    [SCHEMA]; a key that may be missing is written only when present. *)
Module Encode.

Definition item (key : string) (o : option yaml) : list (string * yaml) :=
  match o with
  | Some v => [(key, v)]
  | None => []
  end.

Definition of_opam (o : opam_cfg) : yaml :=
  YDict [ ("switch", YStr (opam_switch o));
          ("compiler", YStr (opam_compiler o)) ].

Definition of_extra_dep (d : extra_dep) : yaml :=
  YDict ([ ("git", YStr (ed_git d)) ]
         ++ item "commit" (option_map YStr (ed_commit d))
         ++ item "recurse-submodules"
              (option_map YBool (ed_recurse_submodules d))
         ++ [ ("path", YStr (ed_path d)) ]).

Definition of_repository (r : repository) : yaml :=
  YDict [ ("name", YStr (repo_name r));
          ("address", YStr (repo_address r)) ].

Definition of_list {A} (f : A -> yaml) (l : list A) : yaml :=
  YList (map f l).

Definition of_config (c : config) : yaml :=
  YDict ([ ("opam", of_opam (cfg_opam c)) ]
         ++ item "dependencies"
              (option_map (of_list YStr) (cfg_dependencies c))
         ++ item "extra-deps"
              (option_map (of_list of_extra_dep) (cfg_extra_deps c))
         ++ item "repositories"
              (option_map (of_list of_repository) (cfg_repositories c))).

End Encode.

(* ================================================================== *)
(** * More machines *)
(* ================================================================== *)

Module Cases.

Import Sim.

(** OPAM is initialised, but there is no configuration file *)
Definition no_file : world :=
  {| paths := ["/home/user/.opam"];
     documents := [];
     switches := ["default"];
     repos := [];
     failing := [] |}.

(** the configuration file is there but cannot be parsed *)
Definition garbled : world :=
  {| paths := ["coq_config.yaml"; "/home/user/.opam"];
     documents := [];
     switches := ["default"];
     repos := [];
     failing := [] |}.

(** a key that [SCHEMA] does not know *)
Definition misspelt : yaml :=
  YDict [ Scenario.opam_section "default" "4.14.0";
          ("extra_deps", YList []) ].

(** the configuration is fine, OPAM was never initialised *)
Definition no_root (doc : yaml) : world :=
  {| paths := ["coq_config.yaml"];
     documents := [("coq_config.yaml", doc)];
     switches := [];
     repos := [];
     failing := [] |}.

(** a machine on which the given command lines fail *)
Definition breaking (doc : yaml) (bad : list (list string)) : world :=
  {| paths := ["coq_config.yaml"; "/home/user/.opam"];
     documents := [("coq_config.yaml", doc)];
     switches := ["default"];
     repos := [];
     failing := bad |}.

End Cases.

(* ================================================================== *)
(** * More properties of runs *)
(* ================================================================== *)

(** an event that is not a child process *)
Definition inert (e : event) : Prop := processes [e] = [].

(** [fail_stop]: as [fail_fast], and after the child process that failed
    the run only prints. *)
Inductive fail_stop : list event -> option exn -> Prop :=
| fs_clean es r :
    Forall quiet es -> fail_stop es r
| fs_call es argv cwd tail :
    Forall quiet es -> Forall inert tail ->
    fail_stop (es ++ Call argv cwd false :: tail) (Some (SystemExit 3))
| fs_probe es argv tail :
    Forall quiet es -> Forall inert tail ->
    fail_stop (es ++ Output argv None :: tail) (Some (SystemExit 2)).

(** the status that goes with a child process that failed *)
Definition status_of_failure (e : event) : Z :=
  match e with
  | Output _ _ => 2%Z
  | _ => 3%Z
  end.

(** the child processes of a dry run: the two listings, and the install
    with [--dry-run], started in the current directory *)
Definition dry_process (e : event) : bool :=
  match e with
  | Call argv cwd _ =>
      match after ["opam"; "install"; "--dry-run"] argv, cwd with
      | Some _, None => true
      | _, _ => false
      end
  | Output argv _ =>
      match after ["opam"; "switch"; "list"; "-s"] argv,
            after ["opam"; "repo"; "list"; "-s"] argv with
      | Some [], _ => true
      | _, Some [_] => true
      | _, _ => false
      end
  | _ => true
  end.

(** the child processes of a run without [--verbose]: the two listings
    and the install *)
Definition silent_process (e : event) : bool :=
  match e with
  | Call argv cwd _ =>
      match after ["opam"; "install"] argv, cwd with
      | Some _, None => true
      | _, _ => false
      end
  | Output argv _ =>
      match after ["opam"; "switch"; "list"; "-s"] argv,
            after ["opam"; "repo"; "list"; "-s"] argv with
      | Some [], _ => true
      | _, Some [_] => true
      | _, _ => false
      end
  | _ => true
  end.

(** the command line of the install step *)
Definition install_argv (dry_run : bool) (switch : string)
  (packages : list string) : list string :=
  ["opam"; "install"; if dry_run then "--dry-run" else "--yes";
   PyStr.fmt "--switch=%s" [switch]] ++ packages.

Definition dry (e : event) : Prop := dry_process e = true.

Definition silent (e : event) : Prop := silent_process e = true.

(* ================================================================== *)
(** * What the two loops are expected to start *)
(* ================================================================== *)

(** the repositories the probe does not list, in the order of the
    configuration, duplicates included *)
Definition missing_repositories (repos : list string)
  (rs : list repository) : list repository :=
  filter (fun r => negb (PyStr.mem (repo_name r) repos)) rs.

Definition add_call (switch : string) (r : repository)
  : list string * option string :=
  (repo_add_argv switch (repo_name r) (repo_address r), None).

Definition clone_call (d : extra_dep) : list string * option string :=
  (clone_argv (match ed_recurse_submodules d with
               | Some b => b
               | None => false
               end) (ed_git d) (ed_path d), None).

Definition checkout_call (d : extra_dep) : list string * option string :=
  (checkout_argv (match ed_recurse_submodules d with
                  | Some b => b
                  | None => false
                  end) (ed_commit d), Some (ed_path d)).

(** the commands started for their effect, each with how it ended *)
Definition outcomes (es : list event)
  : list (list string * option string * bool) :=
  flat_map (fun e => match e with
                     | Call argv cwd ok => [(argv, cwd, ok)]
                     | _ => []
                     end) es.

Section InTurn.

Context {os : OS}.

(** the commands [cs] run one after another from the machine [w], up to
    and including the first that fails: the machine left behind, each
    command started with how it ended, and whether all of them
    succeeded *)
Fixpoint in_turn (w : World os) (cs : list (list string * option string))
  : World os * list (list string * option string * bool) * bool :=
  match cs with
  | [] => (w, [], true)
  | c :: rest =>
      match check_call os w (fst c) (snd c) with
      | (w', true) =>
          let '(w'', started, ok) := in_turn w' rest in
          (w'', (c, true) :: started, ok)
      | (w', false) => (w', [(c, false)], false)
      end
  end.

(** a loop whose commands all succeeded ends normally, the other one
    with status 3 *)
Definition ending (all_ok : bool) : res unit :=
  if all_ok then Ok tt else Raise (SystemExit 3).

Definition expected_run (w : World os)
  (cs : list (list string * option string))
  : World os * list (list string * option string * bool) * res unit :=
  let '(w', started, ok) := in_turn w cs in (w', started, ending ok).

(** the machine a step leaves, the commands it started, how it ended *)
Definition commands_run (m : M os unit) (w : World os)
  : World os * list (list string * option string * bool) * res unit :=
  (world_of m w, outcomes (events_of m w), result_of m w).

(** the commands of one extra dependency on the machine [w]: its clone
    when its path does not exist there, then its checkout *)
Definition entry_commands (w : World os) (d : extra_dep)
  : list (list string * option string) :=
  (if path_exists os w (ed_path d) then [] else [clone_call d])
  ++ [checkout_call d].

(** the commands of the loop over the extra dependencies, from the
    machine [w] on: each entry is looked at on the machine that the
    commands of the entries before it have left *)
Fixpoint git_commands (w : World os) (eds : list extra_dep)
  : list (list string * option string) :=
  match eds with
  | [] => []
  | d :: rest =>
      entry_commands w d
      ++ git_commands (fst (fst (in_turn w (entry_commands w d)))) rest
  end.

End InTurn.

(** [started] is [cs] run one after another and stopped at the first
    failure: all of [cs], each with success, and a normal ending; or the
    commands before the one that failed, that one, nothing after it, and
    status 3 *)
Definition until_first_failure
  (cs : list (list string * option string))
  (started : list (list string * option string * bool)) (r : res unit)
  : Prop :=
  (r = Ok tt /\ started = map (fun c => (c, true)) cs)
  \/ (r = Raise (SystemExit 3)
      /\ exists before c rest,
           cs = before ++ c :: rest
           /\ started = map (fun c => (c, true)) before ++ [(c, false)]).

(** the three lines printed for a command under [--verbose --dry-run] *)
Definition dry_lines (before after_ok : string) (argv : list string)
  : list event :=
  [ Stdout before;
    Stdout (PyStr.fmt "DRY RUN: %s" [PyStr.join " " argv]);
    Stdout after_ok ].

Definition repository_lines (switch : string) (repos : list string)
  (r : repository) : list event :=
  if PyStr.mem (repo_name r) repos
  then [Stdout (PyStr.fmt "Repository '%s' found" [repo_name r])]
  else dry_lines (PyStr.fmt "Adding repository '%s'" [repo_name r])
         (PyStr.fmt "Repository '%s' successfully created" [repo_name r])
         (repo_add_argv switch (repo_name r) (repo_address r)).

Definition extra_dep_lines (present : bool) (d : extra_dep) : list event :=
  (if present then []
   else dry_lines (PyStr.fmt "Cloning from git '%s'" [ed_git d])
          (PyStr.fmt "Cloned '%s' to '%s'" [ed_git d; ed_path d])
          (fst (clone_call d)))
  ++ dry_lines (PyStr.fmt "Checking out at '%s'" [ed_path d])
       (PyStr.fmt "Checked out at '%s'" [ed_path d])
       (fst (checkout_call d)).

Module Entries.

Definition released : repository :=
  {| repo_name := "coq-released";
     repo_address := "https://coq.inria.fr/opam/released" |}.

Definition x : extra_dep :=
  {| ed_git := "https://example.com/x.git";
     ed_commit := Some "abc123";
     ed_recurse_submodules := None;
     ed_path := "./x" |}.

(** a repository whose addition is made to fail *)
Definition staging : repository :=
  {| repo_name := "staging";
     repo_address := "https://example.com/staging" |}.

End Entries.

(* ================================================================== *)
(** * The order of the stages *)
(* ================================================================== *)

(** the stage a command line belongs to: listing the switches, creating
    one, listing the repositories, adding one, installing, and the git
    commands *)
Definition stage (argv : list string) : nat :=
  match after ["opam"; "switch"; "list"] argv with
  | Some _ => 0
  | None =>
  match after ["opam"; "switch"; "create"] argv with
  | Some _ => 1
  | None =>
  match after ["opam"; "repo"; "list"] argv with
  | Some _ => 2
  | None =>
  match after ["opam"; "repo"; "add"] argv with
  | Some _ => 3
  | None =>
  match after ["opam"; "install"] argv with
  | Some _ => 4
  | None => 5
  end end end end end.

Fixpoint ascending (l : list nat) : bool :=
  match l with
  | [] => true
  | a :: rest =>
      match rest with
      | [] => true
      | b :: _ => (a <=? b)%nat && ascending rest
      end
  end.

(** the child processes among [es] are in stage order, within the
    stages [lo] to [hi] *)
Definition in_stages (lo hi : nat) (es : list event) : Prop :=
  ascending (map stage (processes es)) = true
  /\ Forall (fun n => lo <= n <= hi) (map stage (processes es)).

Definition staged {os A} (lo hi : nat) (m : M os A) : Prop :=
  forall w, in_stages lo hi (events_of m w).

(* ================================================================== *)
(** * Why a run ended *)
(* ================================================================== *)

(** the key is one of the three lists, and the configuration lacks it *)
Definition absent (key : string) (cfg : config) : Prop :=
  (key = "repositories" /\ cfg_repositories cfg = None)
  \/ (key = "dependencies" /\ cfg_dependencies cfg = None)
  \/ (key = "extra-deps" /\ cfg_extra_deps cfg = None).

Definition no_root_line : string :=
  "OPAM is not initialized. Please set up OPAM with `opam init`.".

(** what can end the part of [main] that follows the load, and what the
    events then show *)
Definition cause (verbose : bool) (cfg : config) (es : list event)
  (e : exn) : Prop :=
  e = SystemExit 0
  \/ (e = SystemExit 2
      /\ (In (Stdout no_root_line) es
          \/ exists argv, In (Output argv None) es))
  \/ (e = SystemExit 3
      /\ ((exists argv cwd, In (Call argv cwd false) es)
          \/ verbose = false))
  \/ (exists k, e = KeyError k /\ absent k cfg).

Definition explained (verbose : bool) (cfg : config) (es : list event)
  (r : option exn) : Prop :=
  match r with
  | None => True
  | Some e => cause verbose cfg es e
  end.

(* ================================================================== *)
(** * Names returned by the probes *)
(* ================================================================== *)

Fixpoint contains (c : ascii) (s : string) : bool :=
  match s with
  | EmptyString => false
  | String d rest => Ascii.eqb c d || contains c rest
  end.

(** a name as a probe returns it: nothing left to strip, on one line *)
Definition tidy (n : string) : Prop :=
  PyStr.strip n = n /\ contains PyStr.newline n = false.

(** [s] is empty or starts with a character that is not white space *)
Definition clean_start (s : string) : Prop :=
  match s with
  | EmptyString => True
  | String c _ => PyStr.isspace c = false
  end.

(* ================================================================== *)
(** * Strings *)
(* ================================================================== *)

Module PyStrFacts.
Import PyStr.

Lemma split_lines_nonempty (s : string) : split_lines s <> [].
Proof.
  induction s as [|c rest IH]; simpl; [discriminate|].
  destruct (Ascii.eqb c newline); [discriminate|].
  destruct (split_lines rest); discriminate.
Qed.


Lemma strip_empty : strip EmptyString = EmptyString.
Proof. reflexivity. Qed.



Lemma mem_In (x : string) (l : list string) :
  mem x l = true <-> In x l.
Proof.
  unfold mem. rewrite existsb_exists. split.
  - intros [y [Hy Heq]]. apply String.eqb_eq in Heq. now subst.
  - intros H. exists x. split; [assumption|apply String.eqb_refl].
Qed.


End PyStrFacts.

(* ================================================================== *)
(** * The lines of an output, split and stripped *)
(* ================================================================== *)

(** [map strip (split_lines out)] is what the words say, and the only
    list that is. *)
Module ProbeWordsFacts.
Import PyStr ProbeWords.
Local Open Scope string_scope.














(** and nothing else is *)











End ProbeWordsFacts.

(* ================================================================== *)
(** * Small checks of the model *)
(* ================================================================== *)

Example split_lines_two_names :
  PyStr.split_lines ("default" ++ PyStr.NL ++ "4.14" ++ PyStr.NL)
  = ["default"; "4.14"; EmptyString].
Proof. reflexivity. Qed.

Example split_lines_unterminated :
  PyStr.split_lines "default" = ["default"].
Proof. reflexivity. Qed.

Example strip_both_ends : PyStr.strip "  coq released  " = "coq released".
Proof. reflexivity. Qed.

Example fmt_two_arguments :
  PyStr.fmt "Cloned '%s' to '%s'" ["https://example.com/x.git"; "./x"]
  = "Cloned 'https://example.com/x.git' to './x'".
Proof. reflexivity. Qed.

Example full_validates : Cerberus.validate SCHEMA full = Some [].
Proof. reflexivity. Qed.

Example no_compiler_violation :
  Cerberus.validate SCHEMA no_compiler
  = Some [([Field "opam"; Field "compiler"], RequiredField)].
Proof. reflexivity. Qed.

Example scalar_document_rejected :
  Cerberus.validate SCHEMA (YStr "opam") = None.
Proof. reflexivity. Qed.

Example unknown_and_mistyped_fields :
  Cerberus.validate SCHEMA
    (YDict [ ("opam", YDict [("switch", YInt 4); ("compiler", YStr "4.14.0")]);
             ("packages", YList []);
             ("dependencies", YList [YStr "coq"; YNull]) ])
  = Some [ ([Field "opam"; Field "switch"], BadType TString);
           ([Field "packages"], UnknownField);
           ([Field "dependencies"; Index 1], NotNullable) ].
Proof. reflexivity. Qed.

Example minimal_decodes :
  Decode.as_config minimal
  = Some {| cfg_opam := {| opam_switch := "default";
                           opam_compiler := "4.14.0" |};
            cfg_dependencies := None;
            cfg_extra_deps := None;
            cfg_repositories := None |}.
Proof. reflexivity. Qed.

(** The silent run on the full configuration, event by event. *)
Example silent_run_events :
  sim_run false false (fresh full)
  = ([ Output ["opam"; "switch"; "list"; "-s"]
         (Some ("default" ++ PyStr.NL)%string);
       Stdout "Error creating OPAM switch";
       Show (UnboundLocalError "cmd") ], 3%Z).
Proof. reflexivity. Qed.

(* ================================================================== *)
(** * A document that validates decodes *)
(* ================================================================== *)

Module CerberusFacts.
Import Decode.

Lemma lookup_In {A} (k : string) (kvs : list (string * A)) (v : A) :
  lookup k kvs = Some v -> In (k, v) kvs.
Proof.
  induction kvs as [|[k' v'] rest IH]; simpl; [discriminate|].
  destruct (String.eqb k k') eqn:E.
  - intros [= ->]. apply String.eqb_eq in E. subst. now left.
  - intros H. right. now apply IH.
Qed.

Lemma check_present_clean chk fs p kvs :
  check_present chk fs p kvs = [] ->
  forall k v, In (k, v) kvs ->
    exists r, lookup k fs = Some r /\ chk r (p ++ [Field k]) v = [].
Proof.
  induction kvs as [|[k' v'] rest IH]; simpl; intros H k v Hin; [easy|].
  apply app_eq_nil in H as [Hhd Htl].
  destruct Hin as [[= -> ->]|Hin]; [|now apply IH].
  destruct (lookup k fs) as [r|]; [|discriminate].
  now exists r.
Qed.

Lemma check_present_In chk fs p kvs k v r e :
  In (k, v) kvs -> lookup k fs = Some r ->
  In e (chk r (p ++ [Field k]) v) ->
  In e (check_present chk fs p kvs).
Proof.
  induction kvs as [|[k' v'] rest IH]; simpl; intros Hin Hr He; [easy|].
  apply in_or_app.
  destruct Hin as [[= -> ->]|Hin].
  - left. now rewrite Hr.
  - right. now apply IH.
Qed.

Lemma check_required_clean fs p kvs :
  check_required fs p kvs = [] ->
  forall f r, In (f, r) fs -> required r = true ->
    exists v, lookup f kvs = Some v.
Proof.
  induction fs as [|[f' r'] rest IH]; simpl; intros H f r Hin Hreq; [easy|].
  apply app_eq_nil in H as [Hhd Htl].
  destruct Hin as [[= -> ->]|Hin]; [|now apply (IH Htl f r)].
  rewrite Hreq in Hhd.
  destruct (lookup f kvs) as [v|]; [now exists v|discriminate].
Qed.

Lemma check_required_In fs p kvs f r :
  In (f, r) fs -> required r = true -> lookup f kvs = None ->
  In (p ++ [Field f], RequiredField) (check_required fs p kvs).
Proof.
  induction fs as [|[f' r'] rest IH]; simpl; intros Hin Hreq Hno; [easy|].
  apply in_or_app.
  destruct Hin as [[= -> ->]|Hin].
  - left. rewrite Hreq, Hno. now left.
  - right. now apply IH.
Qed.

Lemma check_items_clean chk p i vs :
  check_items chk p i vs = [] ->
  Forall (fun v => exists q, chk q v = []) vs.
Proof.
  revert i. induction vs as [|v rest IH]; simpl; intros i H; [constructor|].
  apply app_eq_nil in H as [Hhd Htl].
  constructor; [now exists (p ++ [Index i])|now apply (IH (S i))].
Qed.

Lemma valid_string b s q v :
  validate_value (Rules b TString s) q v = [] -> exists x, v = YStr x.
Proof. destruct v; simpl; try discriminate. now exists s0. Qed.

Lemma valid_boolean b s q v :
  validate_value (Rules b TBoolean s) q v = [] -> exists x, v = YBool x.
Proof. destruct v; simpl; try discriminate. now exists b0. Qed.

Lemma valid_list b ir q v :
  validate_value (Rules b TList (Items ir)) q v = [] ->
  exists vs, v = YList vs
             /\ Forall (fun x => exists q', validate_value ir q' x = []) vs.
Proof.
  destruct v; simpl; try discriminate. intros H.
  exists items. split; [reflexivity|]. now apply check_items_clean in H.
Qed.

Lemma valid_dict b fs q v :
  validate_value (Rules b TDict (Fields fs)) q v = [] ->
  exists kvs, v = YDict kvs
              /\ check_present validate_value fs q kvs = []
              /\ check_required fs q kvs = [].
Proof.
  destruct v; simpl; try discriminate. intros H.
  apply app_eq_nil in H as [H1 H2]. now exists items.
Qed.

(** A present field of a clean mapping satisfies its rules. *)
Lemma present_field fs q kvs k v r :
  check_present validate_value fs q kvs = [] ->
  lookup k kvs = Some v -> lookup k fs = Some r ->
  validate_value r (q ++ [Field k]) v = [].
Proof.
  intros Hp Hk Hr. apply lookup_In in Hk.
  destruct (check_present_clean _ _ _ _ Hp _ _ Hk) as [r' [Hr' Hv]].
  congruence.
Qed.

Lemma required_string fs q kvs k b s :
  check_present validate_value fs q kvs = [] ->
  check_required fs q kvs = [] ->
  lookup k fs = Some (Rules b TString s) -> b = true ->
  exists x, bind (lookup k kvs) as_str = Some x.
Proof.
  intros Hp Hq Hr ->.
  destruct (check_required_clean _ _ _ Hq k _ (lookup_In _ _ _ Hr) eq_refl)
    as [v Hv].
  destruct (valid_string _ _ _ _ (present_field _ _ _ _ _ _ Hp Hv Hr)) as [x ->].
  exists x. now rewrite Hv.
Qed.

Lemma optional_string fs q kvs k b s :
  check_present validate_value fs q kvs = [] ->
  lookup k fs = Some (Rules b TString s) ->
  exists x, optional as_str (lookup k kvs) = Some x.
Proof.
  intros Hp Hr. destruct (lookup k kvs) as [v|] eqn:Hv.
  - destruct (valid_string _ _ _ _ (present_field _ _ _ _ _ _ Hp Hv Hr)) as [x ->].
    now exists (Some x).
  - now exists None.
Qed.

Lemma optional_boolean fs q kvs k b s :
  check_present validate_value fs q kvs = [] ->
  lookup k fs = Some (Rules b TBoolean s) ->
  exists x, optional as_bool (lookup k kvs) = Some x.
Proof.
  intros Hp Hr. destruct (lookup k kvs) as [v|] eqn:Hv.
  - destruct (valid_boolean _ _ _ _ (present_field _ _ _ _ _ _ Hp Hv Hr)) as [x ->].
    now exists (Some x).
  - now exists None.
Qed.

Lemma all_decode {A} (f : yaml -> option A) vs :
  Forall (fun v => exists a, f v = Some a) vs ->
  exists l, all f vs = Some l.
Proof.
  induction 1 as [|v rest [a Ha] _ [l Hl]]; simpl; [now exists []|].
  rewrite Ha, Hl. now exists (a :: l).
Qed.

Lemma optional_list {A} (f : yaml -> option A) fs q kvs k b ir :
  (forall q' v, validate_value ir q' v = [] -> exists a, f v = Some a) ->
  check_present validate_value fs q kvs = [] ->
  lookup k fs = Some (Rules b TList (Items ir)) ->
  exists x, optional (as_list f) (lookup k kvs) = Some x.
Proof.
  intros Hf Hp Hr. destruct (lookup k kvs) as [v|] eqn:Hv; [|now exists None].
  destruct (valid_list _ _ _ _ (present_field _ _ _ _ _ _ Hp Hv Hr))
    as [vs [-> Hall]].
  destruct (all_decode f vs) as [l Hl].
  - eapply Forall_impl; [|exact Hall]. intros v [q' Hq']. eauto.
  - exists (Some l). simpl. now rewrite Hl.
Qed.

Lemma valid_string_decodes b s q v :
  validate_value (Rules b TString s) q v = [] ->
  exists x, as_str v = Some x.
Proof. intros H. destruct (valid_string _ _ _ _ H) as [x ->]. now exists x. Qed.

Lemma valid_opam b q v :
  validate_value
    (Rules b TDict (Fields
       [ ("switch", Rules true TString NoSchema);
         ("compiler", Rules true TString NoSchema) ])) q v = [] ->
  exists o, as_opam v = Some o.
Proof.
  intros H. destruct (valid_dict _ _ _ _ H) as [kvs [-> [Hp Hq]]].
  destruct (required_string _ _ _ "switch" _ _ Hp Hq eq_refl eq_refl)
    as [sw Hsw].
  destruct (required_string _ _ _ "compiler" _ _ Hp Hq eq_refl eq_refl)
    as [co Hco].
  simpl. rewrite Hsw, Hco. simpl. eauto.
Qed.

Lemma valid_extra_dep b q v :
  validate_value
    (Rules b TDict (Fields
       [ ("git", Rules true TString NoSchema);
         ("commit", Rules false TString NoSchema);
         ("recurse-submodules", Rules false TBoolean NoSchema);
         ("path", Rules true TString NoSchema) ])) q v = [] ->
  exists d, as_extra_dep v = Some d.
Proof.
  intros H. destruct (valid_dict _ _ _ _ H) as [kvs [-> [Hp Hq]]].
  destruct (required_string _ _ _ "git" _ _ Hp Hq eq_refl eq_refl)
    as [g Hg].
  destruct (optional_string _ _ _ "commit" _ _ Hp eq_refl) as [c Hc].
  destruct (optional_boolean _ _ _ "recurse-submodules" _ _ Hp eq_refl)
    as [rs Hrs].
  destruct (required_string _ _ _ "path" _ _ Hp Hq eq_refl eq_refl)
    as [pa Hpa].
  simpl. rewrite Hg. simpl. rewrite Hc. simpl. rewrite Hrs. simpl.
  rewrite Hpa. simpl. eauto.
Qed.

Lemma valid_repository b q v :
  validate_value
    (Rules b TDict (Fields
       [ ("name", Rules true TString NoSchema);
         ("address", Rules true TString NoSchema) ])) q v = [] ->
  exists r, as_repository v = Some r.
Proof.
  intros H. destruct (valid_dict _ _ _ _ H) as [kvs [-> [Hp Hq]]].
  destruct (required_string _ _ _ "name" _ _ Hp Hq eq_refl eq_refl)
    as [n Hn].
  destruct (required_string _ _ _ "address" _ _ Hp Hq eq_refl eq_refl)
    as [a Ha].
  simpl. rewrite Hn, Ha. simpl. eauto.
Qed.

(** The document [load_config] returns is always one the rest of the
    script can read: validation leaves nothing untyped. *)
Lemma validate_as_config (doc : yaml) :
  validate SCHEMA doc = Some [] -> exists c, as_config doc = Some c.
Proof.
  destruct doc as [| | | | | |kvs]; try discriminate.
  unfold validate. intros [= H].
  destruct (valid_dict true SCHEMA [] (YDict kvs) H)
    as [kvs' [[= <-] [Hp Hq]]].
  destruct (check_required_clean _ _ _ Hq "opam" _ (or_introl eq_refl) eq_refl)
    as [ov Hov].
  pose proof (present_field _ _ _ "opam" _ _ Hp Hov eq_refl) as Ho.
  destruct (valid_opam _ _ _ Ho) as [o Hdo].
  destruct (optional_list as_str _ _ _ "dependencies" _ _
              (fun q' v Hv => valid_string_decodes _ _ _ _ Hv) Hp eq_refl)
    as [ds Hds].
  destruct (optional_list as_extra_dep _ _ _ "extra-deps" _ _
              (fun q' v Hv => valid_extra_dep _ _ _ Hv) Hp eq_refl)
    as [es Hes].
  destruct (optional_list as_repository _ _ _ "repositories" _ _
              (fun q' v Hv => valid_repository _ _ _ Hv) Hp eq_refl)
    as [rs Hrs].
  unfold as_config. rewrite Hov. simpl. rewrite Hdo. simpl.
  rewrite Hds. simpl. rewrite Hes. simpl. rewrite Hrs. simpl. eauto.
Qed.

End CerberusFacts.

(* ================================================================== *)
(** * Reasoning about runs *)
(* ================================================================== *)

Section Post.

Context {os : OS}.
Local Open Scope py_scope.

Variable R : list event -> option exn -> Prop.
Hypothesis HR : sequential R.

Lemma post_ret {A} (a : A) : post R (ret (os:=os) a).
Proof. intros w. apply (seq_nil _ HR). Qed.

Lemma post_bind {A B} (m : M os A) (k : A -> M os B) :
  post R m -> (forall a, post R (k a)) -> post R (bind m k).
Proof.
  intros Hm Hk w. specialize (Hm w).
  unfold events_of, result_of, bind in *.
  destruct (m w) as [[w1 es1] [a|e]]; simpl in *; [|exact Hm].
  specialize (Hk a w1). unfold events_of, result_of in Hk.
  destruct (k a w1) as [[w2 es2] r]; simpl in *.
  apply (seq_app _ HR); assumption.
Qed.

Lemma post_when (b : bool) (m : M os unit) :
  post R m -> post R (when b m).
Proof. destruct b; simpl; [easy|intros _; apply post_ret]. Qed.

Lemma post_for_each {A} (l : list A) (body : A -> M os unit) :
  (forall x, In x l -> post R (body x)) -> post R (for_each l body).
Proof.
  induction l as [|x rest IH]; simpl; intros H; [apply post_ret|].
  apply post_bind; [apply H; now left|].
  intros _. apply IH. intros y Hy. apply H. now right.
Qed.

Lemma post_getitem {A} (key : string) (v : option A) :
  R [] (Some (KeyError key)) -> post R (getitem (os:=os) key v).
Proof.
  intros HK. destruct v; simpl; [apply post_ret|]. intros w. exact HK.
Qed.

End Post.

Lemma only_sequential P Q : sequential (only P Q).
Proof.
  split.
  - split; [constructor|exact I].
  - intros es1 es2 r [H1 _] [H2 Hr]. split; [|exact Hr].
    apply Forall_app. now split.
Qed.

Lemma fail_fast_sequential : sequential fail_fast.
Proof.
  split.
  - apply ff_clean. constructor.
  - intros es1 es2 r H1 H2.
    assert (Hq : Forall quiet es1).
    { inversion H1; subst; assumption. }
    destruct H2 as [es r Hes|es argv cwd tail Hes Htl|es argv tail Hes Htl].
    + apply ff_clean. apply Forall_app. now split.
    + rewrite app_assoc. apply ff_call; [|assumption].
      apply Forall_app. now split.
    + rewrite app_assoc. apply ff_probe; [|assumption].
      apply Forall_app. now split.
Qed.

(* ================================================================== *)
(** * The functions, one by one *)
(* ================================================================== *)

Arguments Cerberus.validate : simpl never.
Arguments Decode.as_config : simpl never.

Ltac open_monad :=
  unfold post, events_of, result_of, world_of;
  unfold bind, try_except, ret, raise, emit, print, show, sys_exit, when,
    local, getitem, os_path_exists, os_path_expanduser,
    subprocess_check_call, subprocess_check_output, yaml_load,
    Validator_validate.

Ltac ask_world :=
  repeat match goal with
    | |- context [check_call ?o ?w ?a ?c] =>
        let ok := fresh "ok" in
        destruct (check_call o w a c) as [? ok]; destruct ok; cbn
    | |- context [check_output ?o ?w ?a] =>
        let out := fresh "out" in
        destruct (check_output o w a) as [? out]; destruct out; cbn
    | |- context [path_exists ?o ?w ?p] =>
        destruct (path_exists o w p); cbn
    | |- context [load_yaml ?o ?w ?p] =>
        destruct (load_yaml o w p); cbn
    | |- context [Cerberus.validate SCHEMA ?d] =>
        let errs := fresh "errs" in
        destruct (Cerberus.validate SCHEMA d) as [errs|];
        [destruct errs|]; cbn
    | |- context [Decode.as_config ?d] =>
        destruct (Decode.as_config d); cbn
    end.

Ltac all_quiet := solve [repeat (constructor || reflexivity)].

Ltac show_fail_fast :=
  first
    [ apply ff_clean; all_quiet
    | apply (ff_call []); all_quiet
    | apply (ff_call [_]); all_quiet
    | apply (ff_call [_; _]); all_quiet
    | apply (ff_probe []); all_quiet
    | apply (ff_probe [_]); all_quiet
    | apply (ff_probe [_; _]); all_quiet ].

Ltac show_only := split; [all_quiet | first [reflexivity | exact I]].

Section Functions.

Context {os : OS}.
Import PyStr.
Local Open Scope py_scope.

(** ** Stopping at the first failure *)

Lemma load_config_fail_fast verbose cfgfile :
  post fail_fast (load_config (os:=os) verbose cfgfile).
Proof.
  intros w. unfold load_config. open_monad.
  destruct verbose; cbn; ask_world; show_fail_fast.
Qed.

Lemma opam_check_fail_fast verbose :
  post fail_fast (opam_check (os:=os) verbose).
Proof.
  intros w. unfold opam_check. open_monad.
  destruct verbose; cbn; ask_world; show_fail_fast.
Qed.

Lemma opam_get_switches_fail_fast verbose :
  post fail_fast (opam_get_switches (os:=os) verbose).
Proof.
  intros w. unfold opam_get_switches. open_monad.
  destruct verbose; cbn; ask_world; show_fail_fast.
Qed.

Lemma opam_get_repositoris_fail_fast verbose switch :
  post fail_fast (opam_get_repositoris (os:=os) verbose switch).
Proof.
  intros w. unfold opam_get_repositoris. open_monad.
  destruct verbose; cbn; ask_world; show_fail_fast.
Qed.

Lemma opam_switch_create_fail_fast verbose dry_run switch compiler :
  post fail_fast (opam_switch_create (os:=os) verbose dry_run switch compiler).
Proof.
  intros w. unfold opam_switch_create. open_monad.
  destruct verbose, dry_run; cbn; ask_world; show_fail_fast.
Qed.

Lemma opam_repo_add_fail_fast verbose dry_run switch rn ra :
  post fail_fast (opam_repo_add (os:=os) verbose dry_run switch rn ra).
Proof.
  intros w. unfold opam_repo_add. open_monad.
  destruct verbose, dry_run; cbn; ask_world; show_fail_fast.
Qed.

Lemma opam_install_packages_fail_fast verbose dry_run switch packages :
  post fail_fast
    (opam_install_packages (os:=os) verbose dry_run switch packages).
Proof.
  intros w. unfold opam_install_packages. open_monad.
  destruct verbose, dry_run; cbn; ask_world; show_fail_fast.
Qed.

Lemma git_clone_fail_fast verbose dry_run path git_url rs :
  post fail_fast (git_clone (os:=os) verbose dry_run path git_url rs).
Proof.
  intros w. unfold git_clone. open_monad.
  destruct verbose, dry_run, rs; cbn; ask_world; show_fail_fast.
Qed.

Lemma git_checkout_fail_fast verbose dry_run path commit rs :
  post fail_fast (git_checkout (os:=os) verbose dry_run path commit rs).
Proof.
  intros w. unfold git_checkout. open_monad.
  destruct verbose, dry_run, rs, commit; cbn; ask_world; show_fail_fast.
Qed.

Lemma ensure_switch_fail_fast verbose dry_run cfg switches :
  post fail_fast (ensure_switch (os:=os) verbose dry_run cfg switches).
Proof.
  unfold ensure_switch. destruct (mem _ _).
  - intros w. destruct verbose; apply ff_clean; all_quiet.
  - apply opam_switch_create_fail_fast.
Qed.

Lemma ensure_repository_fail_fast verbose dry_run switch repos r :
  post fail_fast (ensure_repository (os:=os) verbose dry_run switch repos r).
Proof.
  unfold ensure_repository. destruct (mem _ _).
  - intros w. destruct verbose; apply ff_clean; all_quiet.
  - apply opam_repo_add_fail_fast.
Qed.

Lemma ensure_extra_dep_fail_fast verbose dry_run d :
  post fail_fast (ensure_extra_dep (os:=os) verbose dry_run d).
Proof.
  unfold ensure_extra_dep.
  apply (post_bind _ fail_fast_sequential).
  { intros w. apply ff_clean. constructor. }
  intros present. apply (post_bind _ fail_fast_sequential).
  - destruct (negb present);
      [apply git_clone_fail_fast|apply (post_ret _ fail_fast_sequential)].
  - intros _. apply git_checkout_fail_fast.
Qed.

Lemma reconcile_fail_fast verbose dry_run cfg :
  post fail_fast (reconcile (os:=os) verbose dry_run cfg).
Proof.
  unfold reconcile.
  repeat first
    [ apply opam_check_fail_fast
    | apply opam_get_switches_fail_fast
    | apply ensure_switch_fail_fast
    | apply opam_get_repositoris_fail_fast
    | apply ensure_repository_fail_fast
    | apply opam_install_packages_fail_fast
    | apply ensure_extra_dep_fail_fast
    | apply (post_getitem _ fail_fast_sequential); apply ff_clean; constructor
    | apply (post_for_each _ fail_fast_sequential); intros ? _
    | apply (post_bind _ fail_fast_sequential); [|intros ?] ].
  intros w. apply ff_clean. constructor.
Qed.

Lemma main_fail_fast verbose dry_run config :
  post fail_fast (main (os:=os) verbose dry_run config).
Proof.
  unfold main. apply (post_bind _ fail_fast_sequential).
  - apply load_config_fail_fast.
  - intros cfg. apply reconcile_fail_fast.
Qed.

(** ** The status each step exits with *)

Lemma only_weaken {A} (P P' : event -> Prop) (Q Q' : exn -> Prop)
  (m : M os A) :
  (forall e, P e -> P' e) -> (forall e, Q e -> Q' e) ->
  post (only P Q) m -> post (only P' Q') m.
Proof.
  intros HP HQ H w. destruct (H w) as [Hes Hr]. split.
  - eapply Forall_impl; [exact HP|exact Hes].
  - destruct (raised _); [now apply HQ|exact I].
Qed.

Lemma load_config_exits verbose cfgfile :
  post (only anything (exits 1)) (load_config (os:=os) verbose cfgfile).
Proof.
  intros w. unfold load_config. open_monad.
  destruct verbose; cbn; ask_world; show_only.
Qed.

Lemma opam_check_exits verbose :
  post (only anything (exits 2)) (opam_check (os:=os) verbose).
Proof.
  intros w. unfold opam_check. open_monad.
  destruct verbose; cbn; ask_world; show_only.
Qed.

Lemma opam_get_switches_exits verbose :
  post (only anything (exits 2)) (opam_get_switches (os:=os) verbose).
Proof.
  intros w. unfold opam_get_switches. open_monad.
  destruct verbose; cbn; ask_world; show_only.
Qed.

Lemma opam_get_repositoris_exits verbose switch :
  post (only anything (exits 2))
    (opam_get_repositoris (os:=os) verbose switch).
Proof.
  intros w. unfold opam_get_repositoris. open_monad.
  destruct verbose; cbn; ask_world; show_only.
Qed.

Lemma opam_switch_create_exits verbose dry_run switch compiler :
  post (only anything (exits 3))
    (opam_switch_create (os:=os) verbose dry_run switch compiler).
Proof.
  intros w. unfold opam_switch_create. open_monad.
  destruct verbose, dry_run; cbn; ask_world; show_only.
Qed.

Lemma opam_repo_add_exits verbose dry_run switch rn ra :
  post (only anything (exits 3))
    (opam_repo_add (os:=os) verbose dry_run switch rn ra).
Proof.
  intros w. unfold opam_repo_add. open_monad.
  destruct verbose, dry_run; cbn; ask_world; show_only.
Qed.

Lemma opam_install_packages_exits verbose dry_run switch packages :
  post (only anything (exits 3))
    (opam_install_packages (os:=os) verbose dry_run switch packages).
Proof.
  intros w. unfold opam_install_packages. open_monad.
  destruct verbose, dry_run; cbn; ask_world; show_only.
Qed.

Lemma git_clone_exits verbose dry_run path git_url rs :
  post (only anything (exits 3))
    (git_clone (os:=os) verbose dry_run path git_url rs).
Proof.
  intros w. unfold git_clone. open_monad.
  destruct verbose, dry_run, rs; cbn; ask_world; show_only.
Qed.

Lemma git_checkout_exits verbose dry_run path commit rs :
  post (only anything (exits 3))
    (git_checkout (os:=os) verbose dry_run path commit rs).
Proof.
  intros w. unfold git_checkout. open_monad.
  destruct verbose, dry_run, rs, commit; cbn; ask_world; show_only.
Qed.

Lemma exits_status n e :
  (0 <= n <= 3)%Z -> exits n e -> status_or_keyerror e.
Proof. intros Hn ->. left. now exists n. Qed.

Lemma ensure_switch_exits verbose dry_run cfg switches :
  post (only anything (exits 3))
    (ensure_switch (os:=os) verbose dry_run cfg switches).
Proof.
  unfold ensure_switch. destruct (mem _ _).
  - intros w. destruct verbose; show_only.
  - apply opam_switch_create_exits.
Qed.

Lemma ensure_repository_exits verbose dry_run switch repos r :
  post (only anything (exits 3))
    (ensure_repository (os:=os) verbose dry_run switch repos r).
Proof.
  unfold ensure_repository. destruct (mem _ _).
  - intros w. destruct verbose; show_only.
  - apply opam_repo_add_exits.
Qed.

Lemma ensure_extra_dep_exits verbose dry_run d :
  post (only anything (exits 3))
    (ensure_extra_dep (os:=os) verbose dry_run d).
Proof.
  unfold ensure_extra_dep.
  apply (post_bind _ (only_sequential _ _)).
  { intros w. show_only. }
  intros present. apply (post_bind _ (only_sequential _ _)).
  - destruct (negb present);
      [apply git_clone_exits|apply (post_ret _ (only_sequential _ _))].
  - intros _. apply git_checkout_exits.
Qed.

Ltac as_status lem :=
  eapply only_weaken; [ | | apply lem ];
  [ intros ? Hany; exact Hany
  | intros ?; apply exits_status; lia ].

Lemma reconcile_status verbose dry_run cfg :
  post (only anything status_or_keyerror)
    (reconcile (os:=os) verbose dry_run cfg).
Proof.
  unfold reconcile.
  repeat first
    [ as_status opam_check_exits
    | as_status opam_get_switches_exits
    | as_status ensure_switch_exits
    | as_status opam_get_repositoris_exits
    | as_status ensure_repository_exits
    | as_status opam_install_packages_exits
    | as_status ensure_extra_dep_exits
    | apply (post_getitem _ (only_sequential _ _));
      split; [constructor|right; eauto]
    | apply (post_for_each _ (only_sequential _ _)); intros ? _
    | apply (post_bind _ (only_sequential _ _)); [|intros ?] ].
  intros w. split; [constructor|]. left. exists 0%Z. split; [reflexivity|lia].
Qed.

Lemma main_status verbose dry_run config :
  post (only anything status_or_keyerror)
    (main (os:=os) verbose dry_run config).
Proof.
  unfold main. apply (post_bind _ (only_sequential _ _)).
  - as_status load_config_exits.
  - intros cfg. apply reconcile_status.
Qed.

(** ** Dry runs *)

Lemma load_config_harmless verbose cfgfile :
  post (only harmless anything) (load_config (os:=os) verbose cfgfile).
Proof.
  intros w. unfold load_config. open_monad.
  destruct verbose; cbn; ask_world; show_only.
Qed.

Lemma opam_check_harmless verbose :
  post (only harmless anything) (opam_check (os:=os) verbose).
Proof.
  intros w. unfold opam_check. open_monad.
  destruct verbose; cbn; ask_world; show_only.
Qed.

Lemma opam_get_switches_harmless verbose :
  post (only harmless anything) (opam_get_switches (os:=os) verbose).
Proof.
  intros w. unfold opam_get_switches. open_monad.
  destruct verbose; cbn; ask_world; show_only.
Qed.

Lemma opam_get_repositoris_harmless verbose switch :
  post (only harmless anything)
    (opam_get_repositoris (os:=os) verbose switch).
Proof.
  intros w. unfold opam_get_repositoris. open_monad.
  destruct verbose; cbn; ask_world; show_only.
Qed.

Lemma opam_switch_create_dry verbose switch compiler :
  post (only harmless anything)
    (opam_switch_create (os:=os) verbose true switch compiler).
Proof.
  intros w. unfold opam_switch_create. open_monad.
  destruct verbose; cbn; show_only.
Qed.

Lemma opam_repo_add_dry verbose switch rn ra :
  post (only harmless anything)
    (opam_repo_add (os:=os) verbose true switch rn ra).
Proof.
  intros w. unfold opam_repo_add. open_monad.
  destruct verbose; cbn; show_only.
Qed.

Lemma opam_install_packages_dry verbose switch packages :
  post (only harmless anything)
    (opam_install_packages (os:=os) verbose true switch packages).
Proof.
  intros w. unfold opam_install_packages. open_monad.
  destruct verbose; cbn; ask_world; show_only.
Qed.

Lemma git_clone_dry verbose path git_url rs :
  post (only harmless anything)
    (git_clone (os:=os) verbose true path git_url rs).
Proof.
  intros w. unfold git_clone. open_monad.
  destruct verbose, rs; cbn; show_only.
Qed.

Lemma git_checkout_dry verbose path commit rs :
  post (only harmless anything)
    (git_checkout (os:=os) verbose true path commit rs).
Proof.
  intros w. unfold git_checkout. open_monad.
  destruct verbose, rs, commit; cbn; show_only.
Qed.

Lemma ensure_switch_dry verbose cfg switches :
  post (only harmless anything)
    (ensure_switch (os:=os) verbose true cfg switches).
Proof.
  unfold ensure_switch. destruct (mem _ _).
  - intros w. destruct verbose; show_only.
  - apply opam_switch_create_dry.
Qed.

Lemma ensure_repository_dry verbose switch repos r :
  post (only harmless anything)
    (ensure_repository (os:=os) verbose true switch repos r).
Proof.
  unfold ensure_repository. destruct (mem _ _).
  - intros w. destruct verbose; show_only.
  - apply opam_repo_add_dry.
Qed.

Lemma ensure_extra_dep_dry verbose d :
  post (only harmless anything) (ensure_extra_dep (os:=os) verbose true d).
Proof.
  unfold ensure_extra_dep.
  apply (post_bind _ (only_sequential _ _)).
  { intros w. show_only. }
  intros present. apply (post_bind _ (only_sequential _ _)).
  - destruct (negb present);
      [apply git_clone_dry|apply (post_ret _ (only_sequential _ _))].
  - intros _. apply git_checkout_dry.
Qed.

(** With [--dry-run] the only child processes started are the two
    probes and [opam install --dry-run]. *)
Lemma main_dry verbose config :
  post (only harmless anything) (main (os:=os) verbose true config).
Proof.
  unfold main, reconcile.
  repeat first
    [ apply load_config_harmless
    | apply opam_check_harmless
    | apply opam_get_switches_harmless
    | apply ensure_switch_dry
    | apply opam_get_repositoris_harmless
    | apply ensure_repository_dry
    | apply opam_install_packages_dry
    | apply ensure_extra_dep_dry
    | apply (post_getitem _ (only_sequential _ _)); split; [constructor|exact I]
    | apply (post_for_each _ (only_sequential _ _)); intros ? _
    | apply (post_bind _ (only_sequential _ _)); [|intros ?] ].
  intros w. show_only.
Qed.

End Functions.

(* ================================================================== *)
(** * What each step does, case by case *)
(* ================================================================== *)

Section Behaviour.

Context {os : OS}.
Import PyStr.
Local Open Scope py_scope.

(** ** Without [--verbose], [cmd] is never assigned *)

Lemma opam_switch_create_silent dry_run switch compiler (w : World os) :
  opam_switch_create false dry_run switch compiler w
  = (w, [Stdout "Error creating OPAM switch"; Show (UnboundLocalError "cmd")],
     Raise (SystemExit 3)).
Proof. destruct dry_run; reflexivity. Qed.

Lemma opam_repo_add_silent dry_run switch rn ra (w : World os) :
  opam_repo_add false dry_run switch rn ra w
  = (w, [Stdout "Error adding OPAM repository";
         Show (UnboundLocalError "cmd")],
     Raise (SystemExit 3)).
Proof. destruct dry_run; reflexivity. Qed.

Lemma git_clone_silent dry_run path git_url rs (w : World os) :
  git_clone false dry_run path git_url rs w
  = (w, [Stdout "Error performing git clone";
         Show (UnboundLocalError "cmd")],
     Raise (SystemExit 3)).
Proof. destruct dry_run; reflexivity. Qed.

Lemma git_checkout_silent dry_run path commit rs (w : World os) :
  git_checkout false dry_run path commit rs w
  = (w, [Stdout "Error performing git checkout";
         Show (UnboundLocalError "cmd")],
     Raise (SystemExit 3)).
Proof. destruct dry_run; reflexivity. Qed.

(** ** With [--verbose] *)

Lemma opam_switch_create_verbose switch compiler (w : World os) :
  opam_switch_create true false switch compiler w
  = narrated (fmt "Creating switch '%s'" [switch])
             (fmt "Switch '%s' successfully created" [switch])
             "Error creating OPAM switch"
             (create_switch_argv switch compiler) None w.
Proof.
  unfold opam_switch_create, narrated. open_monad. cbn.
  destruct (check_call _ _ _ _) as [w' []]; reflexivity.
Qed.

Lemma opam_switch_create_verbose_dry switch compiler (w : World os) :
  opam_switch_create true true switch compiler w
  = described (fmt "Creating switch '%s'" [switch])
              (fmt "Switch '%s' successfully created" [switch])
              (create_switch_argv switch compiler) w.
Proof. reflexivity. Qed.

Lemma opam_repo_add_verbose switch rn ra (w : World os) :
  opam_repo_add true false switch rn ra w
  = narrated (fmt "Adding repository '%s'" [rn])
             (fmt "Repository '%s' successfully created" [rn])
             "Error adding OPAM repository"
             (repo_add_argv switch rn ra) None w.
Proof.
  unfold opam_repo_add, narrated. open_monad. cbn.
  destruct (check_call _ _ _ _) as [w' []]; reflexivity.
Qed.

Lemma opam_repo_add_verbose_dry switch rn ra (w : World os) :
  opam_repo_add true true switch rn ra w
  = described (fmt "Adding repository '%s'" [rn])
              (fmt "Repository '%s' successfully created" [rn])
              (repo_add_argv switch rn ra) w.
Proof. reflexivity. Qed.

Lemma git_clone_verbose path git_url rs (w : World os) :
  git_clone true false path git_url rs w
  = narrated (fmt "Cloning from git '%s'" [git_url])
             (fmt "Cloned '%s' to '%s'" [git_url; path])
             "Error performing git clone"
             (clone_argv rs git_url path) None w.
Proof.
  unfold git_clone, narrated, clone_argv. open_monad.
  destruct rs; cbn; destruct (check_call _ _ _ _) as [w' []]; reflexivity.
Qed.

Lemma git_clone_verbose_dry path git_url rs (w : World os) :
  git_clone true true path git_url rs w
  = described (fmt "Cloning from git '%s'" [git_url])
              (fmt "Cloned '%s' to '%s'" [git_url; path])
              (clone_argv rs git_url path) w.
Proof. destruct rs; reflexivity. Qed.

Lemma git_checkout_verbose path commit rs (w : World os) :
  git_checkout true false path commit rs w
  = narrated (fmt "Checking out at '%s'" [path])
             (fmt "Checked out at '%s'" [path])
             "Error performing git checkout"
             (checkout_argv rs commit) (Some path) w.
Proof.
  unfold git_checkout, narrated, checkout_argv. open_monad.
  destruct rs, commit; cbn;
    destruct (check_call _ _ _ _) as [w' []]; reflexivity.
Qed.

Lemma git_checkout_verbose_dry path commit rs (w : World os) :
  git_checkout true true path commit rs w
  = described (fmt "Checking out at '%s'" [path])
              (fmt "Checked out at '%s'" [path])
              (checkout_argv rs commit) w.
Proof. destruct rs, commit; reflexivity. Qed.

(** ** Sequencing *)

Lemma bind_ok {A B} (m : M os A) (k : A -> M os B) (w w1 : World os) es1 a :
  m w = (w1, es1, Ok a) ->
  bind m k w = let '(w2, es2, r) := k a w1 in (w2, es1 ++ es2, r).
Proof. intros H. unfold bind. now rewrite H. Qed.

Lemma bind_raise {A B} (m : M os A) (k : A -> M os B) (w w1 : World os)
  es1 e :
  m w = (w1, es1, Raise e) -> bind m k w = (w1, es1, Raise e).
Proof. intros H. unfold bind. now rewrite H. Qed.

Lemma bind_raises {A B} (m : M os A) (k : A -> M os B) :
  (forall a w, exists e, result_of (k a) w = Raise e) ->
  forall w, exists e, result_of (bind m k) w = Raise e.
Proof.
  intros Hk w. unfold result_of, bind in *.
  destruct (m w) as [[w1 es1] [a|e]]; simpl; [|eauto].
  destruct (Hk a w1) as [e He].
  destruct (k a w1) as [[w2 es2] r]; simpl in *. eauto.
Qed.

(** ** The probes *)

Lemma opam_check_ok verbose (w : World os) :
  path_exists os w (expanduser os w OPAMROOT) = true ->
  opam_check verbose w
  = (w, narration verbose "Checking OPAM presence", Ok tt).
Proof.
  intros H. unfold opam_check. open_monad.
  destruct verbose; cbn; rewrite H; reflexivity.
Qed.

Lemma opam_check_missing verbose (w : World os) :
  path_exists os w (expanduser os w OPAMROOT) = false ->
  opam_check verbose w
  = (w, narration verbose "Checking OPAM presence"
        ++ [Stdout "OPAM is not initialized. Please set up OPAM with `opam init`."],
     Raise (SystemExit 2)).
Proof.
  intros H. unfold opam_check. open_monad.
  destruct verbose; cbn; rewrite H; reflexivity.
Qed.


Lemma opam_get_switches_ok verbose (w w' : World os) out :
  check_output os w switch_list_argv = (w', Some out) ->
  opam_get_switches verbose w
  = (w', narration verbose "Checking OPAM switches"
         ++ [Output switch_list_argv (Some out)],
     Ok (map strip (split_lines out))).
Proof.
  intros H. unfold opam_get_switches. open_monad.
  unfold switch_list_argv in H. destruct verbose; cbn; rewrite H; reflexivity.
Qed.

Lemma opam_get_switches_failed verbose (w w' : World os) :
  check_output os w switch_list_argv = (w', None) ->
  opam_get_switches verbose w
  = (w', narration verbose "Checking OPAM switches"
         ++ [Output switch_list_argv None;
             Stdout "Error getting list of OPAM switches";
             Show (CalledProcessError switch_list_argv)],
     Raise (SystemExit 2)).
Proof.
  intros H. unfold opam_get_switches. open_monad.
  unfold switch_list_argv in H. destruct verbose; cbn; rewrite H; reflexivity.
Qed.

Lemma opam_get_repositoris_ok verbose switch (w w' : World os) out :
  check_output os w (repo_list_argv switch) = (w', Some out) ->
  opam_get_repositoris verbose switch w
  = (w', narration verbose "Checking OPAM repositories"
         ++ [Output (repo_list_argv switch) (Some out)],
     Ok (map strip (split_lines out))).
Proof.
  intros H. unfold opam_get_repositoris. open_monad.
  unfold repo_list_argv in H. destruct verbose; cbn in *; rewrite H; reflexivity.
Qed.

Lemma opam_get_repositoris_failed verbose switch (w w' : World os) :
  check_output os w (repo_list_argv switch) = (w', None) ->
  opam_get_repositoris verbose switch w
  = (w', narration verbose "Checking OPAM repositories"
         ++ [Output (repo_list_argv switch) None;
             Stdout "Error getting list of OPAM repositories";
             Show (CalledProcessError (repo_list_argv switch))],
     Raise (SystemExit 2)).
Proof.
  intros H. unfold opam_get_repositoris. open_monad.
  unfold repo_list_argv in H. destruct verbose; cbn in *; rewrite H; reflexivity.
Qed.

(** ** The decisions of [main] *)

Lemma ensure_switch_found verbose dry_run cfg switches (w : World os) :
  mem (opam_switch (cfg_opam cfg)) switches = true ->
  ensure_switch verbose dry_run cfg switches w
  = (w, narration verbose
          (fmt "Switch '%s' found" [opam_switch (cfg_opam cfg)]),
     Ok tt).
Proof.
  intros H. unfold ensure_switch. rewrite H. destruct verbose; reflexivity.
Qed.

Lemma ensure_switch_missing verbose dry_run cfg switches (w : World os) :
  mem (opam_switch (cfg_opam cfg)) switches = false ->
  ensure_switch verbose dry_run cfg switches w
  = opam_switch_create verbose dry_run (opam_switch (cfg_opam cfg))
      (opam_compiler (cfg_opam cfg)) w.
Proof. intros H. unfold ensure_switch. now rewrite H. Qed.

Lemma ensure_repository_found verbose dry_run switch repos r (w : World os) :
  mem (repo_name r) repos = true ->
  ensure_repository verbose dry_run switch repos r w
  = (w, narration verbose (fmt "Repository '%s' found" [repo_name r]),
     Ok tt).
Proof.
  intros H. unfold ensure_repository. rewrite H.
  destruct verbose; reflexivity.
Qed.

Lemma ensure_repository_missing verbose dry_run switch repos r
  (w : World os) :
  mem (repo_name r) repos = false ->
  ensure_repository verbose dry_run switch repos r w
  = opam_repo_add verbose dry_run switch (repo_name r) (repo_address r) w.
Proof. intros H. unfold ensure_repository. now rewrite H. Qed.

Lemma ensure_extra_dep_present verbose dry_run d (w : World os) :
  path_exists os w (ed_path d) = true ->
  ensure_extra_dep verbose dry_run d w
  = git_checkout verbose dry_run (ed_path d) (ed_commit d)
      (get (ed_recurse_submodules d) false) w.
Proof.
  intros H. unfold ensure_extra_dep. open_monad. rewrite H. cbn.
  destruct (git_checkout _ _ _ _ _ w) as [[w' es] r]. reflexivity.
Qed.

Lemma ensure_extra_dep_absent verbose dry_run d (w : World os) :
  path_exists os w (ed_path d) = false ->
  ensure_extra_dep verbose dry_run d w
  = bind (git_clone verbose dry_run (ed_path d) (ed_git d)
            (get (ed_recurse_submodules d) false))
         (fun _ => git_checkout verbose dry_run (ed_path d) (ed_commit d)
                     (get (ed_recurse_submodules d) false)) w.
Proof.
  intros H. unfold ensure_extra_dep. open_monad. rewrite H. cbn.
  destruct (git_clone _ _ _ _ _ w) as [[w' es] [[]|e]]; [|reflexivity].
  destruct (git_checkout _ _ _ _ _ w') as [[w'' es'] r]. reflexivity.
Qed.

(** Without [--verbose] no entry gets past its first git step, on any
    machine: neither a clone nor a checkout is started. *)
Lemma ensure_extra_dep_silent dry_run d (w : World os) :
  calls (events_of (ensure_extra_dep false dry_run d) w) = []
  /\ result_of (ensure_extra_dep false dry_run d) w = Raise (SystemExit 3).
Proof.
  unfold events_of, result_of.
  destruct (path_exists os w (ed_path d)) eqn:He.
  - rewrite (ensure_extra_dep_present _ _ _ _ He), git_checkout_silent.
    split; reflexivity.
  - rewrite (ensure_extra_dep_absent _ _ _ _ He).
    rewrite (bind_raise _ _ _ _ _ _ (git_clone_silent _ _ _ _ _)).
    split; reflexivity.
Qed.

End Behaviour.

(* ================================================================== *)
(** * The process as a whole *)
(* ================================================================== *)

Arguments after : simpl never.

Section Process.

Context {os : OS}.
Import PyStr.
Local Open Scope py_scope.

Lemma quiet_not_failed_call es argv cwd :
  Forall quiet es -> ~ In (Call argv cwd false) es.
Proof.
  intros H Hin. rewrite Forall_forall in H. apply H in Hin. discriminate.
Qed.

Lemma quiet_not_failed_probe es argv :
  Forall quiet es -> ~ In (Output argv None) es.
Proof.
  intros H Hin. rewrite Forall_forall in H. apply H in Hin. discriminate.
Qed.

(** The status is always one of 0, 1, 2, 3. *)
Lemma exit_code_range verbose dry_run config (w : World os) :
  (0 <= exit_code verbose dry_run config w <= 3)%Z.
Proof.
  destruct (main_status verbose dry_run config w) as [_ H].
  unfold exit_code, run, result_of in *.
  destruct (main verbose dry_run config w) as [[w' es] [a|e]]; simpl in *.
  - lia.
  - destruct H as [[n [-> Hn]]|[k ->]]; simpl; lia.
Qed.

(** A configuration that is missing, unreadable or invalid: status 1. *)
Lemma bad_config_exits_1 verbose dry_run config (w : World os) e :
  result_of (load_config verbose config) w = Raise e ->
  exit_code verbose dry_run config w = 1%Z.
Proof.
  intros H. destruct (load_config_exits verbose config w) as [_ HQ].
  rewrite H in HQ. simpl in HQ. unfold exits in HQ. subst e.
  unfold exit_code, run, main, bind, result_of in *.
  destruct (load_config verbose config w) as [[w1 es1] [c|e]];
    simpl in *; [discriminate|]. now injection H as ->.
Qed.

Lemma missing_config_fails verbose config (w : World os) :
  path_exists os w config = false ->
  exists e, result_of (load_config verbose config) w = Raise e.
Proof.
  intros H. unfold load_config, result_of. open_monad. rewrite H. cbn.
  eauto.
Qed.

Lemma unreadable_config_fails verbose config (w : World os) :
  load_yaml os w config = None ->
  exists e, result_of (load_config verbose config) w = Raise e.
Proof.
  intros H. unfold load_config, result_of. open_monad.
  destruct (path_exists os w config); cbn; [|eauto].
  destruct verbose; cbn; rewrite H; cbn; eauto.
Qed.

Lemma invalid_config_fails verbose config (w : World os) doc :
  load_yaml os w config = Some doc ->
  Cerberus.validate SCHEMA doc <> Some [] ->
  exists e, result_of (load_config verbose config) w = Raise e.
Proof.
  intros H Hv. unfold load_config, result_of. open_monad.
  destruct (path_exists os w config); cbn; [|eauto].
  destruct verbose; cbn; rewrite H; cbn;
    (destruct (Cerberus.validate SCHEMA doc) as [[|err errs]|];
     [congruence|cbn; eauto|cbn; eauto]).
Qed.

(** A configuration that is there, parses and validates is returned,
    decoded, and no child process has been started. *)
Lemma valid_config_loads verbose config (w : World os) doc :
  path_exists os w config = true ->
  load_yaml os w config = Some doc ->
  Cerberus.validate SCHEMA doc = Some [] ->
  exists cfg,
    Decode.as_config doc = Some cfg
    /\ load_config verbose config w
       = (w, narration verbose (fmt "Loading '%s'" [config]), Ok cfg).
Proof.
  intros He Hl Hv.
  destruct (CerberusFacts.validate_as_config doc Hv) as [cfg Hc].
  exists cfg. split; [assumption|].
  unfold load_config. open_monad. rewrite He. cbn.
  destruct verbose; cbn; rewrite Hl; cbn; rewrite Hv; cbn; rewrite Hc;
    reflexivity.
Qed.

(** No OPAM root: status 2. *)
Lemma no_root_exits_2 verbose dry_run config (w w1 : World os) es cfg :
  load_config verbose config w = (w1, es, Ok cfg) ->
  path_exists os w1 (expanduser os w1 OPAMROOT) = false ->
  exit_code verbose dry_run config w = 2%Z.
Proof.
  intros Hl Hr. unfold exit_code, run, main, reconcile, opam_check.
  open_monad. rewrite Hl. cbn. destruct verbose; cbn; rewrite Hr; reflexivity.
Qed.

(** A command that fails: status 3, and it was the last child process. *)
Lemma failed_call_exits_3 verbose dry_run config (w : World os) argv cwd :
  In (Call argv cwd false) (trace verbose dry_run config w) ->
  exit_code verbose dry_run config w = 3%Z.
Proof.
  pose proof (main_fail_fast verbose dry_run config w) as H.
  unfold trace, exit_code, run, events_of, result_of in *.
  destruct (main verbose dry_run config w) as [[w' es] [a|e]]; simpl in *.
  - intros Hin. inversion H; subst.
    now apply quiet_not_failed_call in Hin.
  - intros Hin.
    assert (Hes : In (Call argv cwd false) es).
    { destruct e; simpl in Hin; try assumption;
        apply in_app_or in Hin as [Hin|[Hin|[]]];
        (assumption || discriminate). }
    clear Hin. inversion H; subst.
    + now apply quiet_not_failed_call in Hes.
    + reflexivity.
    + apply in_app_or in Hes as [Hes|[Hes|Hes]];
        [now apply quiet_not_failed_call in Hes
        |discriminate
        |now apply quiet_not_failed_call in Hes].
Qed.

(** A probe that fails: status 2. *)
Lemma failed_probe_exits_2 verbose dry_run config (w : World os) argv :
  In (Output argv None) (trace verbose dry_run config w) ->
  exit_code verbose dry_run config w = 2%Z.
Proof.
  pose proof (main_fail_fast verbose dry_run config w) as H.
  unfold trace, exit_code, run, events_of, result_of in *.
  destruct (main verbose dry_run config w) as [[w' es] [a|e]]; simpl in *.
  - intros Hin. inversion H; subst.
    now apply quiet_not_failed_probe in Hin.
  - intros Hin.
    assert (Hes : In (Output argv None) es).
    { destruct e; simpl in Hin; try assumption;
        apply in_app_or in Hin as [Hin|[Hin|[]]];
        (assumption || discriminate). }
    clear Hin. inversion H; subst.
    + now apply quiet_not_failed_probe in Hes.
    + apply in_app_or in Hes as [Hes|[Hes|Hes]];
        [now apply quiet_not_failed_probe in Hes
        |discriminate
        |now apply quiet_not_failed_probe in Hes].
    + reflexivity.
Qed.

(** With [--dry-run], whatever the other inputs, every child process
    started for its effect is [opam install --dry-run ...]. *)
Lemma dry_run_calls verbose config (w : World os) argv cwd ok :
  In (Call argv cwd ok) (trace verbose true config w) ->
  exists rest, after ["opam"; "install"; "--dry-run"] argv = Some rest.
Proof.
  destruct (main_dry verbose config w) as [H _].
  unfold trace, run, events_of in *.
  destruct (main verbose true config w) as [[w' es] [a|e]]; simpl in *;
    intros Hin.
  - rewrite Forall_forall in H. apply H in Hin.
    unfold harmless, dry_call in Hin.
    destruct (after _ argv) as [rest|]; [eauto|discriminate].
  - assert (Hes : In (Call argv cwd ok) es).
    { destruct e; simpl in Hin; try assumption;
        apply in_app_or in Hin as [Hin|[Hin|[]]];
        (assumption || discriminate). }
    rewrite Forall_forall in H. apply H in Hes.
    unfold harmless, dry_call in Hes.
    destruct (after _ argv) as [rest|]; [eauto|discriminate].
Qed.

(** [main] always ends by an exception: [sys.exit(0)] at the latest. *)
Lemma reconcile_raises verbose dry_run cfg (w : World os) :
  exists e, result_of (reconcile verbose dry_run cfg) w = Raise e.
Proof.
  revert w. unfold reconcile.
  repeat (apply bind_raises; intros ?).
  intros w. now exists (SystemExit 0).
Qed.

(** ** Two ways to a non-zero status with nothing wrong outside *)

(** Without [--verbose], a switch that is not listed ends the run with
    status 3 before any command is started. *)
Lemma silent_create_exits_3 dry_run config (w w1 w2 : World os) es cfg out :
  load_config false config w = (w1, es, Ok cfg) ->
  path_exists os w1 (expanduser os w1 OPAMROOT) = true ->
  check_output os w1 switch_list_argv = (w2, Some out) ->
  mem (opam_switch (cfg_opam cfg)) (map strip (split_lines out)) = false ->
  run false dry_run config w
  = (w2, es ++ [Output switch_list_argv (Some out);
                Stdout "Error creating OPAM switch";
                Show (UnboundLocalError "cmd")], 3%Z).
Proof.
  intros Hl Hr Hp Hm. unfold run, main, reconcile.
  rewrite (bind_ok _ _ _ _ _ _ Hl).
  rewrite (bind_ok _ _ _ _ _ _ (opam_check_ok false _ Hr)).
  rewrite (bind_ok _ _ _ _ _ _ (opam_get_switches_ok false _ _ _ Hp)).
  rewrite (bind_raise _ _ _ _ _ _
             (eq_trans (ensure_switch_missing _ _ _ _ _ Hm)
                       (opam_switch_create_silent _ _ _ _))).
  reflexivity.
Qed.

Lemma exits_not_success n e : n <> 0%Z -> exits n e -> not_success e.
Proof. intros Hn -> [= H]. contradiction. Qed.

Tactic Notation "as_not_success" uconstr(lem) :=
  eapply only_weaken; [ | | apply lem ];
  [ intros ? Hany; exact Hany
  | intros ?; apply exits_not_success; discriminate ].

(** A document without one of the three lists never ends with status
    0: [main] subscripts all three. *)
Lemma absent_list_not_success verbose dry_run cfg :
  cfg_repositories cfg = None \/ cfg_dependencies cfg = None
    \/ cfg_extra_deps cfg = None ->
  post (only anything not_success) (reconcile (os:=os) verbose dry_run cfg).
Proof.
  intros H. unfold reconcile.
  destruct (cfg_repositories cfg) as [rs|], (cfg_dependencies cfg) as [ds|],
    (cfg_extra_deps cfg) as [eds|];
    try (exfalso; destruct H as [H|[H|H]]; discriminate);
    repeat first
      [ as_not_success opam_check_exits
      | as_not_success opam_get_switches_exits
      | as_not_success ensure_switch_exits
      | as_not_success opam_get_repositoris_exits
      | as_not_success ensure_repository_exits
      | as_not_success opam_install_packages_exits
      | as_not_success ensure_extra_dep_exits
      | solve [intros ?; split; [constructor|discriminate]]
      | apply (post_ret _ (only_sequential _ _))
      | apply (post_for_each _ (only_sequential _ _)); intros ? _
      | apply (post_bind _ (only_sequential _ _)); [|intros ?] ].
Qed.

Lemma absent_list_exit_nonzero verbose dry_run config (w w1 : World os)
  es cfg :
  load_config verbose config w = (w1, es, Ok cfg) ->
  cfg_repositories cfg = None \/ cfg_dependencies cfg = None
    \/ cfg_extra_deps cfg = None ->
  exit_code verbose dry_run config w <> 0%Z.
Proof.
  intros Hl Hn.
  destruct (absent_list_not_success verbose dry_run cfg Hn w1) as [_ H].
  unfold exit_code, run, main, result_of in *.
  unfold bind at 1. rewrite Hl.
  destruct (reconcile verbose dry_run cfg w1) as [[w2 es2] [a|e]] eqn:Hr;
    simpl in *.
  - destruct (reconcile_raises verbose dry_run cfg w1) as [e He].
    unfold result_of in He. rewrite Hr in He. discriminate.
  - destruct e; simpl; try discriminate. intros ->. now apply H.
Qed.

End Process.

(* ================================================================== *)
(** * Loading a configuration that lacks a required field *)
(* ================================================================== *)

Section Loading.

Context {os : OS}.
Import PyStr.
Local Open Scope py_scope.

Lemma load_config_invalid verbose cfgfile (w : World os) doc err errs :
  path_exists os w cfgfile = true ->
  load_yaml os w cfgfile = Some doc ->
  Cerberus.validate SCHEMA doc = Some (err :: errs) ->
  load_config verbose cfgfile w
  = (w, narration verbose (fmt "Loading '%s'" [cfgfile])
        ++ [Stdout (fmt "Invalid config '%s'" [cfgfile]);
            StdoutErrors (err :: errs);
            Stdout (fmt "Error reading '%s'" [cfgfile]);
            Show (SystemExit 1)],
     Raise (SystemExit 1)).
Proof.
  intros He Hl Hv. unfold load_config. open_monad. rewrite He. cbn.
  destruct verbose; cbn; rewrite Hl; cbn; rewrite Hv; reflexivity.
Qed.

Lemma load_config_not_mapping verbose cfgfile (w : World os) doc :
  path_exists os w cfgfile = true ->
  load_yaml os w cfgfile = Some doc ->
  Cerberus.validate SCHEMA doc = None ->
  load_config verbose cfgfile w
  = (w, narration verbose (fmt "Loading '%s'" [cfgfile])
        ++ [Stdout (fmt "Error reading '%s'" [cfgfile]);
            Show DocumentError],
     Raise (SystemExit 1)).
Proof.
  intros He Hl Hv. unfold load_config. open_monad. rewrite He. cbn.
  destruct verbose; cbn; rewrite Hl; cbn; rewrite Hv; reflexivity.
Qed.

Lemma validate_mapping kvs :
  Cerberus.validate SCHEMA (YDict kvs)
  = Some (check_present validate_value SCHEMA [] kvs
          ++ check_required SCHEMA [] kvs).
Proof. reflexivity. Qed.

(** The violations reported for the [opam] section are among those of
    the document. *)
Lemma opam_violation_reported kvs ov e :
  lookup "opam" kvs = Some ov ->
  In e (validate_value opam_rules [Field "opam"] ov) ->
  exists errs, Cerberus.validate SCHEMA (YDict kvs) = Some errs /\ In e errs.
Proof.
  intros Ho He. rewrite validate_mapping. eexists. split; [reflexivity|].
  apply in_or_app. left.
  apply (CerberusFacts.check_present_In validate_value SCHEMA [] kvs
           "opam" ov opam_rules e);
    [now apply CerberusFacts.lookup_In|reflexivity|exact He].
Qed.

Lemma opam_not_mapping_violation ov :
  (forall okvs, ov <> YDict okvs) ->
  exists e, In e (validate_value opam_rules [Field "opam"] ov).
Proof.
  intros H. destruct ov; simpl; try (eexists; left; reflexivity).
  exfalso. now apply (H items).
Qed.

Lemma opam_field_missing_violation okvs f :
  f = "switch" \/ f = "compiler" ->
  lookup f okvs = None ->
  In ([Field "opam"; Field f], RequiredField)
     (validate_value opam_rules [Field "opam"] (YDict okvs)).
Proof.
  intros Hf Hno. simpl. apply in_or_app. right.
  destruct Hf as [-> | ->]; rewrite Hno; simpl; auto.
  destruct (lookup "switch" okvs); simpl; auto.
Qed.

(** A mapping in which [opam.switch] or [opam.compiler] cannot be
    reached has violations. *)
Lemma missing_field_invalid kvs :
  field_at ["opam"; "switch"] (YDict kvs) = None
  \/ field_at ["opam"; "compiler"] (YDict kvs) = None ->
  exists err errs, Cerberus.validate SCHEMA (YDict kvs) = Some (err :: errs).
Proof.
  intros H.
  assert (Hin : exists errs e,
             Cerberus.validate SCHEMA (YDict kvs) = Some errs /\ In e errs).
  { simpl in H. destruct (lookup "opam" kvs) as [ov|] eqn:Ho.
    - assert (He : exists e,
                 In e (validate_value opam_rules [Field "opam"] ov)).
      { destruct ov as [| | | | | |okvs];
          try (apply opam_not_mapping_violation; intros okvs; discriminate).
        destruct H as [H|H].
        + destruct (lookup "switch" okvs) eqn:Hs; [discriminate|].
          eexists. apply opam_field_missing_violation; [now left|exact Hs].
        + destruct (lookup "compiler" okvs) eqn:Hs; [discriminate|].
          eexists. apply opam_field_missing_violation; [now right|exact Hs]. }
      destruct He as [e He].
      destruct (opam_violation_reported kvs ov e Ho He) as [errs [Hv Hi]].
      now exists errs, e.
    - rewrite validate_mapping. eexists. exists ([Field "opam"], RequiredField).
      split; [reflexivity|]. apply in_or_app. right.
      apply (CerberusFacts.check_required_In SCHEMA [] kvs "opam" opam_rules);
        [now left|reflexivity|exact Ho]. }
  destruct Hin as [errs [e [Hv Hi]]].
  destruct errs as [|err errs]; [destruct Hi|]. now exists err, errs.
Qed.

End Loading.

(* ================================================================== *)
(** * The claims *)
(* ================================================================== *)

(** C1. [--verbose] is meant to add narration only.  It does more: the
    command line of every create, add, clone and checkout step is built
    inside [if verbose:], so on the fresh machine with the full
    configuration the verbose run starts five commands and exits with 0,
    while the silent run starts none and exits with 3. *)
Theorem C1_verbose_changes_commands_and_status :
  sim_calls true false (fresh full)
  = [ (["opam"; "switch"; "create"; "--no-switch"; "4.14"; "4.14.0"], None);
      (["opam"; "repo"; "add"; "coq-released";
        "https://coq.inria.fr/opam/released"; "--on-switches=4.14"], None);
      (["opam"; "install"; "--yes"; "--switch=4.14"; "coq"], None);
      (["git"; "clone"; "-n"; "https://example.com/x.git"; "./x"], None);
      (["git"; "checkout"; "abc123"], Some "./x") ]
  /\ sim_status true false (fresh full) = 0%Z
  /\ sim_calls false false (fresh full) = []
  /\ sim_status false false (fresh full) = 3%Z.
Proof. vm_compute. repeat split. Qed.

(** C2. The three lists are optional in [SCHEMA], but [main] subscripts
    them: the minimal document validates, and the run ends on
    [KeyError: 'repositories'] with status 1 before any install, whereas
    the same document with the lists spelled out empty installs the empty
    package list and exits with 0. *)
Theorem C2_absent_lists_end_the_run :
  Cerberus.validate SCHEMA minimal = Some []
  /\ sim_calls true false (fresh minimal) = []
  /\ last (fst (sim_run true false (fresh minimal))) (Stdout EmptyString)
     = Show (KeyError "repositories")
  /\ sim_status true false (fresh minimal) = 1%Z
  /\ sim_calls true false (fresh minimal_explicit)
     = [ (["opam"; "install"; "--yes"; "--switch=default"], None) ]
  /\ sim_status true false (fresh minimal_explicit) = 0%Z.
Proof. vm_compute. repeat split. Qed.

(** C3. Under [--dry-run] without [--verbose] the first step to describe
    is not printed and does not succeed: the run prints the error report
    only and exits with 3, before the install step.  With [--verbose] each
    step is printed and the run exits with 0 after
    [opam install --dry-run]. *)
Theorem C3_silent_dry_run_fails_at_first_step :
  printed (fst (sim_run false true (fresh full)))
  = ["Error creating OPAM switch"]
  /\ sim_calls false true (fresh full) = []
  /\ sim_status false true (fresh full) = 3%Z
  /\ filter (String.prefix "DRY RUN: ")
       (printed (fst (sim_run true true (fresh full))))
     = [ "DRY RUN: opam switch create --no-switch 4.14 4.14.0";
         "DRY RUN: opam repo add coq-released https://coq.inria.fr/opam/released --on-switches=4.14";
         "DRY RUN: git clone -n https://example.com/x.git ./x";
         "DRY RUN: git checkout abc123" ]
  /\ sim_calls true true (fresh full)
     = [ (["opam"; "install"; "--dry-run"; "--switch=4.14"; "coq"], None) ]
  /\ sim_status true true (fresh full) = 0%Z.
Proof. vm_compute. repeat split. Qed.

(** C4. Status 3 and status 1 also occur when nothing outside failed: the
    silent run on the full configuration exits with 3 although every child
    process it started succeeded, and the verbose run on the minimal
    configuration, which validates, exits with 1. *)
Theorem C4_nonzero_status_with_nothing_failing :
  existsb failed (fst (sim_run false false (fresh full))) = false
  /\ sim_status false false (fresh full) = 3%Z
  /\ Cerberus.validate SCHEMA minimal = Some []
  /\ existsb failed (fst (sim_run true false (fresh minimal))) = false
  /\ sim_status true false (fresh minimal) = 1%Z.
Proof. vm_compute. repeat split. Qed.

(** C5. Switch ["4.14"] with compiler ["4.14.0"], probed switches
    [["default"]]: the silent run starts no create-switch command and
    exits with 3; the verbose run starts exactly one. *)
Theorem C5_silent_run_creates_no_switch :
  PyStr.mem "4.14"
    (map PyStr.strip (PyStr.split_lines (Sim.lines (Sim.switches (fresh full)))))
  = false
  /\ filter is_create_switch (sim_calls false false (fresh full)) = []
  /\ sim_status false false (fresh full) = 3%Z
  /\ filter is_create_switch (sim_calls true false (fresh full))
     = [ (["opam"; "switch"; "create"; "--no-switch"; "4.14"; "4.14.0"], None) ].
Proof. vm_compute. repeat split. Qed.

(** C6. One extra dependency on the existing switch: the silent run
    starts neither a clone when [./x] is missing nor a checkout when it
    exists, and exits with 3 both times; the verbose run clones, then
    checks out. *)
Theorem C6_silent_run_neither_clones_nor_checks_out :
  path_exists Sim.machine (fresh one_extra_dep) "./x" = false
  /\ filter is_clone (sim_calls false false (fresh one_extra_dep)) = []
  /\ filter is_checkout (sim_calls false false (fresh one_extra_dep)) = []
  /\ sim_status false false (fresh one_extra_dep) = 3%Z
  /\ path_exists Sim.machine (with_x one_extra_dep) "./x" = true
  /\ filter is_checkout (sim_calls false false (with_x one_extra_dep)) = []
  /\ sim_status false false (with_x one_extra_dep) = 3%Z
  /\ sim_calls true false (fresh one_extra_dep)
     = [ (["opam"; "install"; "--yes"; "--switch=default"], None);
         (["git"; "clone"; "-n"; "https://example.com/x.git"; "./x"], None);
         (["git"; "checkout"; "abc123"], Some "./x") ]
  /\ sim_calls true false (with_x one_extra_dep)
     = [ (["opam"; "install"; "--yes"; "--switch=default"], None);
         (["git"; "checkout"; "abc123"], Some "./x") ].
Proof. vm_compute. repeat split. Qed.

(** C7. One repository that the probe does not list: the silent run
    starts no add-repository command and exits with 3; the verbose run
    starts exactly one, for that switch. *)
Theorem C7_silent_run_attaches_no_repository :
  PyStr.mem "coq-released"
    (map PyStr.strip
       (PyStr.split_lines
          (Sim.lines (Sim.repos_on (fresh one_repository) "--on-switches=default"))))
  = false
  /\ filter is_repo_add (sim_calls false false (fresh one_repository)) = []
  /\ sim_status false false (fresh one_repository) = 3%Z
  /\ filter is_repo_add (sim_calls true false (fresh one_repository))
     = [ (["opam"; "repo"; "add"; "coq-released";
           "https://coq.inria.fr/opam/released"; "--on-switches=default"],
          None) ].
Proof. vm_compute. repeat split. Qed.

(** C8. A configuration file that exists and parses, but in which
    [opam.switch] or [opam.compiler] cannot be reached, is never returned
    by the loader: [load_config] ends with [SystemExit(1)] having started
    no child process, the process exits with status 1, and when the
    document is a mapping the violations found by the validator are
    printed -- among them ['required field'] for each of the two keys that
    is missing from an [opam] mapping. *)
Theorem C8_missing_required_field_rejected
  (os : OS) (verbose dry_run : bool) (cfgfile : string) (w : World os)
  (doc : yaml) :
  path_exists os w cfgfile = true ->
  load_yaml os w cfgfile = Some doc ->
  field_at ["opam"; "switch"] doc = None
    \/ field_at ["opam"; "compiler"] doc = None ->
  (exists es,
      load_config verbose cfgfile w = (w, es, Raise (SystemExit 1))
      /\ processes es = []
      /\ forall kvs, doc = YDict kvs ->
           exists err errs,
             Cerberus.validate SCHEMA doc = Some (err :: errs)
             /\ In (StdoutErrors (err :: errs)) es
             /\ forall okvs f,
                  lookup "opam" kvs = Some (YDict okvs) ->
                  f = "switch" \/ f = "compiler" ->
                  lookup f okvs = None ->
                  In ([Field "opam"; Field f], RequiredField) (err :: errs))
  /\ exit_code verbose dry_run cfgfile w = 1%Z
  /\ processes (trace verbose dry_run cfgfile w) = [].
Proof.
  intros He Hl Hm.
  assert (Hload : exists es,
             load_config verbose cfgfile w = (w, es, Raise (SystemExit 1))
             /\ processes es = []
             /\ forall kvs, doc = YDict kvs ->
                  exists err errs,
                    Cerberus.validate SCHEMA doc = Some (err :: errs)
                    /\ In (StdoutErrors (err :: errs)) es
                    /\ forall okvs f,
                         lookup "opam" kvs = Some (YDict okvs) ->
                         f = "switch" \/ f = "compiler" ->
                         lookup f okvs = None ->
                         In ([Field "opam"; Field f], RequiredField)
                            (err :: errs)).
  { destruct doc as [| | | | | |kvs];
      try (eexists; split;
           [apply (load_config_not_mapping verbose cfgfile w _ He Hl eq_refl)
           |split; [destruct verbose; reflexivity|intros kvs [=]]]).
    destruct (missing_field_invalid kvs Hm) as [err [errs Hv]].
    eexists. split; [apply (load_config_invalid verbose cfgfile w _ _ _ He Hl Hv)|].
    split; [destruct verbose; reflexivity|].
    intros kvs' [= <-]. exists err, errs. split; [exact Hv|]. split.
    - apply in_or_app. right. simpl. auto.
    - intros okvs f Ho Hf Hno.
      destruct (opam_violation_reported kvs (YDict okvs) _ Ho
                  (opam_field_missing_violation okvs f Hf Hno))
        as [errs' [Hv' Hin]].
      rewrite Hv in Hv'. now injection Hv' as <-. }
  destruct Hload as [es [Hlc [Hp Hk]]].
  split; [exists es; auto|].
  unfold exit_code, trace, run, main.
  rewrite (bind_raise _ _ _ _ _ _ Hlc). simpl. auto.
Qed.

(** On the simulated machine: the compiler is not given. *)
Lemma C8_witness :
  path_exists Sim.machine (fresh no_compiler) CONFIG = true
  /\ load_yaml Sim.machine (fresh no_compiler) CONFIG = Some no_compiler
  /\ field_at ["opam"; "compiler"] no_compiler = None
  /\ exit_code (os:=Sim.machine) true false CONFIG (fresh no_compiler) = 1%Z
  /\ processes (trace (os:=Sim.machine) true false CONFIG (fresh no_compiler))
     = [].
Proof.
  split; [reflexivity|]. split; [reflexivity|]. split; [reflexivity|].
  exact (proj2 (C8_missing_required_field_rejected Sim.machine true false
                  CONFIG (fresh no_compiler) no_compiler
                  eq_refl eq_refl (or_intror eq_refl))).
Defined.

(** C9. Whenever the step for an extra dependency starts a clone, its
    command line is [git clone --recurse-submodules <git> <path>] when the
    entry sets [recurse-submodules] to true and [git clone -n <git> <path>]
    when it is false or absent, run in the current directory; the line
    printed for it under [--dry-run] is that command line.  With
    [--verbose], when the destination does not exist the clone is the
    first command started, and once it succeeds the checkout is started in
    the destination. *)
Theorem C9_clone_argument_shape
  (os : OS) (verbose dry_run : bool) (d : extra_dep) (w : World os) :
  (forall c,
      In c (calls (events_of (ensure_extra_dep verbose dry_run d) w)) ->
      is_clone c = true -> c = (clone_shape d, None))
  /\ (forall line,
         In line (printed (events_of (ensure_extra_dep verbose dry_run d) w)) ->
         String.prefix "DRY RUN: git clone" line = true ->
         line = PyStr.fmt "DRY RUN: %s" [PyStr.join " " (clone_shape d)])
  /\ (path_exists os w (ed_path d) = false ->
      calls (events_of (ensure_extra_dep true false d) w)
      = (clone_shape d, None)
          :: (if snd (check_call os w (clone_shape d) None)
              then [ (checkout_argv (get (ed_recurse_submodules d) false)
                        (ed_commit d),
                      Some (ed_path d)) ]
              else [])).
Proof.
  unfold clone_shape. split; [|split].
  - unfold ensure_extra_dep, git_clone, git_checkout. open_monad.
    destruct (path_exists os w (ed_path d)), verbose, dry_run,
      (ed_recurse_submodules d) as [[|]|], (ed_commit d);
      cbn; ask_world; intros c Hin Hc; simpl in Hin;
      repeat (destruct Hin as [<-|Hin]; [first [reflexivity|discriminate Hc]|]);
      destruct Hin.
  - unfold ensure_extra_dep, git_clone, git_checkout. open_monad.
    destruct (path_exists os w (ed_path d)), verbose, dry_run,
      (ed_recurse_submodules d) as [[|]|], (ed_commit d);
      cbn; ask_world; intros line Hin Hp; simpl in Hin;
      repeat (destruct Hin as [<-|Hin]; [first [reflexivity|discriminate Hp]|]);
      destruct Hin.
  - intros Hno. unfold events_of.
    rewrite (ensure_extra_dep_absent _ _ _ _ Hno).
    unfold bind. rewrite git_clone_verbose. unfold narrated.
    assert (Hs : clone_argv (get (ed_recurse_submodules d) false)
                   (ed_git d) (ed_path d)
                 = match ed_recurse_submodules d with
                   | Some true =>
                       ["git"; "clone"; "--recurse-submodules"; ed_git d;
                        ed_path d]
                   | _ => ["git"; "clone"; "-n"; ed_git d; ed_path d]
                   end).
    { destruct (ed_recurse_submodules d) as [[|]|]; reflexivity. }
    rewrite Hs.
    destruct (check_call os w _ None) as [w' [|]]; simpl; [|reflexivity].
    rewrite git_checkout_verbose. unfold narrated.
    destruct (check_call os w' _ _) as [w'' [|]]; reflexivity.
Qed.

(** On the simulated machine: [./x] is missing and the entry has no
    [recurse-submodules] key. *)
Lemma C9_witness :
  path_exists Sim.machine (fresh one_extra_dep) "./x" = false
  /\ calls (events_of
              (ensure_extra_dep (os:=Sim.machine) true false
                 {| ed_git := "https://example.com/x.git";
                    ed_commit := Some "abc123";
                    ed_recurse_submodules := None;
                    ed_path := "./x" |})
              (fresh one_extra_dep))
     = [ (["git"; "clone"; "-n"; "https://example.com/x.git"; "./x"], None);
         (["git"; "checkout"; "abc123"], Some "./x") ].
Proof.
  split; [reflexivity|].
  exact (proj2 (proj2 (C9_clone_argument_shape Sim.machine true false
                         {| ed_git := "https://example.com/x.git";
                            ed_commit := Some "abc123";
                            ed_recurse_submodules := None;
                            ed_path := "./x" |}
                         (fresh one_extra_dep))) eq_refl).
Defined.



(* ================================================================== *)
(** * Further properties: the schema and the loader *)
(* ================================================================== *)

Lemma check_items_all_clean chk p i vs :
  (forall v, In v vs -> forall q, chk q v = []) ->
  check_items chk p i vs = [].
Proof.
  revert i. induction vs as [|v rest IH]; simpl; intros i H; [reflexivity|].
  rewrite (H v (or_introl eq_refl)). simpl. apply IH.
  intros x Hx. apply H. now right.
Qed.

Lemma check_present_unknown chk fs p kvs k v :
  In (k, v) kvs -> lookup k fs = None ->
  In (p ++ [Field k], UnknownField) (check_present chk fs p kvs).
Proof.
  induction kvs as [|[k' v'] rest IH]; simpl; intros Hin Hno; [easy|].
  apply in_or_app. destruct Hin as [[= -> ->]|Hin].
  - left. rewrite Hno. now left.
  - right. now apply IH.
Qed.

Lemma all_of_map {A} (f : yaml -> option A) (g : A -> yaml) (l : list A) :
  (forall x, f (g x) = Some x) -> Decode.all f (map g l) = Some l.
Proof.
  intros H. induction l as [|x rest IH]; simpl; [reflexivity|].
  now rewrite H, IH.
Qed.

Lemma extra_dep_round_trip (d : extra_dep) :
  Decode.as_extra_dep (Encode.of_extra_dep d) = Some d.
Proof. destruct d as [g [c|] [rs|] p]; reflexivity. Qed.

Lemma repository_round_trip (r : repository) :
  Decode.as_repository (Encode.of_repository r) = Some r.
Proof. destruct r; reflexivity. Qed.

Lemma extra_dep_clean q (d : extra_dep) :
  validate_value
    (Rules false TDict (Fields
       [ ("git", Rules true TString NoSchema);
         ("commit", Rules false TString NoSchema);
         ("recurse-submodules", Rules false TBoolean NoSchema);
         ("path", Rules true TString NoSchema) ])) q (Encode.of_extra_dep d)
  = [].
Proof. destruct d as [g [c|] [rs|] p]; reflexivity. Qed.

Lemma strings_clean p i (l : list string) :
  check_items (validate_value (Rules false TString NoSchema)) p i (map YStr l)
  = [].
Proof.
  apply check_items_all_clean. intros v Hv q.
  apply in_map_iff in Hv as [x [<- _]]. reflexivity.
Qed.

Lemma extra_deps_clean p i (l : list extra_dep) :
  check_items
    (validate_value
       (Rules false TDict (Fields
          [ ("git", Rules true TString NoSchema);
            ("commit", Rules false TString NoSchema);
            ("recurse-submodules", Rules false TBoolean NoSchema);
            ("path", Rules true TString NoSchema) ])))
    p i (map Encode.of_extra_dep l)
  = [].
Proof.
  apply check_items_all_clean. intros v Hv q.
  apply in_map_iff in Hv as [x [<- _]]. apply extra_dep_clean.
Qed.

Lemma repositories_clean p i (l : list repository) :
  check_items
    (validate_value
       (Rules false TDict (Fields
          [ ("name", Rules true TString NoSchema);
            ("address", Rules true TString NoSchema) ])))
    p i (map Encode.of_repository l)
  = [].
Proof.
  apply check_items_all_clean. intros v Hv q.
  apply in_map_iff in Hv as [x [<- _]]. destruct x; reflexivity.
Qed.

(** X1. [SCHEMA] accepts every configuration main can work with, and
    nothing is lost on the way: the document that spells a configuration
    out -- the optional keys only when they are present -- validates
    without a violation and is read back as that same configuration. *)
Theorem X1_schema_accepts_what_it_describes (c : config) :
  Cerberus.validate SCHEMA (Encode.of_config c) = Some []
  /\ Decode.as_config (Encode.of_config c) = Some c.
Proof.
  destruct c as [[sw co] ds es rs]. split.
  - unfold Cerberus.validate, Encode.of_config.
    destruct ds as [ds|], es as [es|], rs as [rs|]; simpl;
      rewrite ?strings_clean, ?extra_deps_clean, ?repositories_clean;
      reflexivity.
  - unfold Decode.as_config, Encode.of_config.
    destruct ds as [ds|], es as [es|], rs as [rs|]; simpl;
      rewrite ?(all_of_map Decode.as_str YStr),
        ?(all_of_map _ _ _ extra_dep_round_trip),
        ?(all_of_map _ _ _ repository_round_trip);
      try reflexivity; intros x; reflexivity.
Qed.

Section Loader.

Context {os : OS}.
Import PyStr.

(** X2. When the configuration file does not exist the process prints
    the single line ['<file>' not found] -- also under [--verbose], the
    check comes before the first narration -- starts nothing, leaves the
    machine as it was and exits with status 1. *)
Theorem X2_missing_file_one_line verbose dry_run config (w : World os) :
  path_exists os w config = false ->
  run verbose dry_run config w
  = (w, [Stdout (fmt "'%s' not found" [config])], 1%Z).
Proof.
  intros H. unfold run, main, load_config. open_monad. rewrite H. reflexivity.
Qed.

(** X3. Once the file exists, every way the load can fail ends in the
    same handler: the last two things reported are [Error reading
    '<file>'] and a traceback, and the status is 1.  The cause is an
    unreadable or unparsable file, a document that is not a mapping, or
    [SystemExit(1)] itself: an invalid document has already been
    reported, with its violations, when the bare [except:] catches the
    exit and reports it again. *)
Theorem X3_load_failures_share_one_report verbose dry_run config
  (w : World os) e :
  path_exists os w config = true ->
  result_of (load_config verbose config) w = Raise e ->
  exists cause es,
    run verbose dry_run config w
    = (w, narration verbose (fmt "Loading '%s'" [config]) ++ es
          ++ [Stdout (fmt "Error reading '%s'" [config]); Show cause], 1%Z)
    /\ ((cause = LoadError /\ es = [] /\ load_yaml os w config = None)
        \/ (cause = DocumentError /\ es = []
            /\ exists doc, load_yaml os w config = Some doc
                           /\ Cerberus.validate SCHEMA doc = None)
        \/ (cause = SystemExit 1
            /\ exists doc err errs,
                 load_yaml os w config = Some doc
                 /\ Cerberus.validate SCHEMA doc = Some (err :: errs)
                 /\ es = [Stdout (fmt "Invalid config '%s'" [config]);
                          StdoutErrors (err :: errs)])).
Proof.
  intros He Hr.
  destruct (load_yaml os w config) as [doc|] eqn:Hl.
  - destruct (Cerberus.validate SCHEMA doc) as [[|err errs]|] eqn:Hv.
    + destruct (valid_config_loads verbose config w doc He Hl Hv)
        as [cfg [_ Hok]].
      unfold result_of in Hr. rewrite Hok in Hr. discriminate.
    + exists (SystemExit 1),
        [Stdout (fmt "Invalid config '%s'" [config]);
         StdoutErrors (err :: errs)].
      split.
      * unfold run, main.
        rewrite (bind_raise _ _ _ _ _ _
                   (load_config_invalid verbose config w doc err errs
                      He Hl Hv)).
        reflexivity.
      * right. right. split; [reflexivity|]. now exists doc, err, errs.
    + exists DocumentError, []. split.
      * unfold run, main.
        rewrite (bind_raise _ _ _ _ _ _
                   (load_config_not_mapping verbose config w doc He Hl Hv)).
        reflexivity.
      * right. left. split; [reflexivity|]. split; [reflexivity|].
        now exists doc.
  - exists LoadError, []. split.
    + unfold run, main, load_config. open_monad. rewrite He. cbn.
      destruct verbose; cbn; rewrite Hl; reflexivity.
    + left. auto.
Qed.

Lemma as_config_fields doc cfg :
  Decode.as_config doc = Some cfg ->
  field_at ["opam"; "switch"] doc = Some (YStr (opam_switch (cfg_opam cfg)))
  /\ field_at ["opam"; "compiler"] doc
     = Some (YStr (opam_compiler (cfg_opam cfg)))
  /\ (cfg_dependencies cfg = None <-> field_at ["dependencies"] doc = None)
  /\ (cfg_extra_deps cfg = None <-> field_at ["extra-deps"] doc = None)
  /\ (cfg_repositories cfg = None <-> field_at ["repositories"] doc = None).
Proof.
  destruct doc as [| | | | | |kvs]; try discriminate.
  unfold Decode.as_config, Decode.bind, Decode.optional, Decode.as_opam.
  simpl.
  destruct (lookup "opam" kvs) as [[| | | | | |okvs]|]; try discriminate.
  unfold Decode.bind.
  destruct (lookup "switch" okvs) as [[| | | |sw| |]|]; try discriminate.
  destruct (lookup "compiler" okvs) as [[| | | |co| |]|]; try discriminate.
  simpl.
  destruct (lookup "dependencies" kvs) as [dv|];
    [destruct (Decode.as_list Decode.as_str dv); [|discriminate]|];
    (destruct (lookup "extra-deps" kvs) as [ev|];
     [destruct (Decode.as_list Decode.as_extra_dep ev); [|discriminate]|]);
    (destruct (lookup "repositories" kvs) as [rv|];
     [destruct (Decode.as_list Decode.as_repository rv); [|discriminate]|]);
    intros [= <-]; simpl; repeat split; intros; congruence.
Qed.

(** X4. A file that exists, parses and validates is returned as it is:
    the loader prints at most its one line of narration and leaves the
    machine alone, and in what [main] then reads [opam.switch] and
    [opam.compiler] are the document's strings, while each of the three
    lists is missing from the configuration exactly when its key is
    missing from the document. *)
Theorem X4_valid_configuration_is_returned verbose config (w : World os) doc :
  path_exists os w config = true ->
  load_yaml os w config = Some doc ->
  Cerberus.validate SCHEMA doc = Some [] ->
  exists cfg,
    load_config verbose config w
    = (w, narration verbose (fmt "Loading '%s'" [config]), Ok cfg)
    /\ field_at ["opam"; "switch"] doc
       = Some (YStr (opam_switch (cfg_opam cfg)))
    /\ field_at ["opam"; "compiler"] doc
       = Some (YStr (opam_compiler (cfg_opam cfg)))
    /\ (cfg_dependencies cfg = None <-> field_at ["dependencies"] doc = None)
    /\ (cfg_extra_deps cfg = None <-> field_at ["extra-deps"] doc = None)
    /\ (cfg_repositories cfg = None <-> field_at ["repositories"] doc = None).
Proof.
  intros He Hl Hv.
  destruct (valid_config_loads verbose config w doc He Hl Hv)
    as [cfg [Hc Hok]].
  exists cfg. split; [exact Hok|]. now apply as_config_fields.
Qed.

(** X6. A document with a key that [SCHEMA] does not name is refused,
    however complete the rest is: the violations printed include
    ['unknown field'] for that key, nothing is started, and the status
    is 1. *)
Theorem X6_unknown_key_is_refused verbose dry_run config (w : World os)
  kvs k v :
  path_exists os w config = true ->
  load_yaml os w config = Some (YDict kvs) ->
  In (k, v) kvs ->
  lookup k SCHEMA = None ->
  exists errs,
    In ([Field k], UnknownField) errs
    /\ In (StdoutErrors errs) (trace verbose dry_run config w)
    /\ processes (trace verbose dry_run config w) = []
    /\ exit_code verbose dry_run config w = 1%Z.
Proof.
  intros He Hl Hin Hno.
  assert (Hu : In ([Field k], UnknownField)
                 (check_present validate_value SCHEMA [] kvs
                  ++ check_required SCHEMA [] kvs)).
  { apply in_or_app. left.
    now apply (check_present_unknown validate_value SCHEMA [] kvs k v). }
  pose proof (validate_mapping kvs) as Hv.
  destruct (check_present validate_value SCHEMA [] kvs
            ++ check_required SCHEMA [] kvs) as [|err errs] eqn:E;
    [destruct Hu|].
  exists (err :: errs). split; [exact Hu|].
  unfold trace, exit_code, run, main.
  rewrite (bind_raise _ _ _ _ _ _
             (load_config_invalid verbose config w _ err errs He Hl Hv)).
  simpl. split; [|split; [destruct verbose|]; reflexivity].
  apply in_or_app. right. simpl. auto.
Qed.

End Loader.

Lemma X2_witness :
  path_exists Sim.machine Cases.no_file CONFIG = false
  /\ run (os:=Sim.machine) true false CONFIG Cases.no_file
     = (Cases.no_file, [Stdout "'coq_config.yaml' not found"], 1%Z).
Proof.
  split; [reflexivity|].
  exact (X2_missing_file_one_line (os:=Sim.machine) true false CONFIG
           Cases.no_file eq_refl).
Defined.

Lemma X3_witness :
  path_exists Sim.machine (fresh no_compiler) CONFIG = true
  /\ result_of (load_config (os:=Sim.machine) false CONFIG) (fresh no_compiler)
     = Raise (SystemExit 1)
  /\ exists cause es,
       run (os:=Sim.machine) false false CONFIG (fresh no_compiler)
       = (fresh no_compiler,
          narration false "Loading 'coq_config.yaml'" ++ es
            ++ [Stdout "Error reading 'coq_config.yaml'"; Show cause], 1%Z).
Proof.
  split; [reflexivity|]. split; [reflexivity|].
  destruct (X3_load_failures_share_one_report (os:=Sim.machine) false false
              CONFIG
              (fresh no_compiler) (SystemExit 1) eq_refl eq_refl)
    as [cause [es [Hrun _]]].
  exists cause, es. exact Hrun.
Defined.

Lemma X4_witness :
  path_exists Sim.machine (fresh minimal) CONFIG = true
  /\ load_yaml Sim.machine (fresh minimal) CONFIG = Some minimal
  /\ Cerberus.validate SCHEMA minimal = Some []
  /\ exists cfg,
       load_config (os:=Sim.machine) true CONFIG (fresh minimal)
       = (fresh minimal, [Stdout "Loading 'coq_config.yaml'"], Ok cfg)
       /\ (cfg_repositories cfg = None
           <-> field_at ["repositories"] minimal = None).
Proof.
  split; [reflexivity|]. split; [reflexivity|]. split; [reflexivity|].
  destruct (X4_valid_configuration_is_returned (os:=Sim.machine) true CONFIG
              (fresh minimal)
              minimal eq_refl eq_refl eq_refl)
    as [cfg [Hok [_ [_ [_ [_ Hrs]]]]]].
  exists cfg. split; [exact Hok|exact Hrs].
Defined.

Lemma X6_witness :
  path_exists Sim.machine (fresh Cases.misspelt) CONFIG = true
  /\ load_yaml Sim.machine (fresh Cases.misspelt) CONFIG = Some Cases.misspelt
  /\ lookup "extra_deps" SCHEMA = None
  /\ exit_code (os:=Sim.machine) true false CONFIG (fresh Cases.misspelt)
     = 1%Z.
Proof.
  split; [reflexivity|]. split; [reflexivity|]. split; [reflexivity|].
  destruct (X6_unknown_key_is_refused (os:=Sim.machine) true false CONFIG
              (fresh Cases.misspelt) _ "extra_deps" (YList [])
              eq_refl eq_refl (or_intror (or_introl eq_refl)) eq_refl)
    as [errs [_ [_ [_ Hcode]]]].
  exact Hcode.
Defined.

(* ================================================================== *)
(** * Further properties: what a run starts, and when it stops *)
(* ================================================================== *)

Lemma fail_stop_sequential : sequential fail_stop.
Proof.
  split.
  - apply fs_clean. constructor.
  - intros es1 es2 r H1 H2.
    assert (Hq : Forall quiet es1).
    { inversion H1; subst; assumption. }
    destruct H2 as [es r Hes|es argv cwd tail Hes Htl|es argv tail Hes Htl].
    + apply fs_clean. apply Forall_app. now split.
    + rewrite app_assoc. apply fs_call; [|assumption].
      apply Forall_app. now split.
    + rewrite app_assoc. apply fs_probe; [|assumption].
      apply Forall_app. now split.
Qed.

Ltac show_fail_stop :=
  first
    [ apply fs_clean; all_quiet
    | apply (fs_call []); all_quiet
    | apply (fs_call [_]); all_quiet
    | apply (fs_call [_; _]); all_quiet
    | apply (fs_probe []); all_quiet
    | apply (fs_probe [_]); all_quiet
    | apply (fs_probe [_; _]); all_quiet ].

Lemma after_prefix pre argv rest :
  after pre argv = Some rest -> argv = pre ++ rest.
Proof.
  revert argv. induction pre as [|p pre IH]; intros argv H.
  - change (after [] argv) with (Some argv) in H. now injection H as ->.
  - destruct argv as [|a argv].
    + change (after (p :: pre) []) with (@None (list string)) in H.
      discriminate.
    + change (after (p :: pre) (a :: argv))
        with (if String.eqb p a then after pre argv else None) in H.
      destruct (String.eqb p a) eqn:E; [|discriminate].
      apply String.eqb_eq in E. subst a. simpl. now rewrite (IH _ H).
Qed.

Lemma inert_no_process es : Forall inert es -> processes es = [].
Proof.
  induction 1 as [|e es He _ IH]; [reflexivity|].
  destruct e; try discriminate He; exact IH.
Qed.

Lemma inert_quiet es : Forall inert es -> Forall quiet es.
Proof.
  apply Forall_impl. intros [| | |argv cwd ok|argv out] H;
    try reflexivity; discriminate H.
Qed.

(** Where a list is split around its only element with a given mark. *)
Lemma split_at_marked {A} (P : A -> bool) l1 a l2 l1' b l2' :
  Forall (fun x => P x = false) l1 ->
  Forall (fun x => P x = false) l2 ->
  P b = true ->
  l1 ++ a :: l2 = l1' ++ b :: l2' ->
  a = b /\ l2 = l2'.
Proof.
  intros H1 H2 Hb. revert l1' H1.
  induction l1 as [|x l1 IH]; intros [|y l1'] H1 E; simpl in E.
  - injection E as -> ->. now split.
  - injection E as -> ->. exfalso.
    rewrite Forall_forall in H2.
    assert (Hin : In b (l1' ++ b :: l2')) by (apply in_or_app; right; now left).
    apply H2 in Hin. congruence.
  - injection E as Hx _. subst x. inversion H1; subst. congruence.
  - injection E as _ E. inversion H1; subst. now apply (IH l1').
Qed.

Section Stops.

Context {os : OS}.
Import PyStr.
Local Open Scope py_scope.

Lemma load_config_fail_stop verbose cfgfile :
  post fail_stop (load_config (os:=os) verbose cfgfile).
Proof.
  intros w. unfold load_config. open_monad.
  destruct verbose; cbn; ask_world; show_fail_stop.
Qed.

Lemma opam_check_fail_stop verbose :
  post fail_stop (opam_check (os:=os) verbose).
Proof.
  intros w. unfold opam_check. open_monad.
  destruct verbose; cbn; ask_world; show_fail_stop.
Qed.

Lemma opam_get_switches_fail_stop verbose :
  post fail_stop (opam_get_switches (os:=os) verbose).
Proof.
  intros w. unfold opam_get_switches. open_monad.
  destruct verbose; cbn; ask_world; show_fail_stop.
Qed.

Lemma opam_get_repositoris_fail_stop verbose switch :
  post fail_stop (opam_get_repositoris (os:=os) verbose switch).
Proof.
  intros w. unfold opam_get_repositoris. open_monad.
  destruct verbose; cbn; ask_world; show_fail_stop.
Qed.

Lemma opam_switch_create_fail_stop verbose dry_run switch compiler :
  post fail_stop (opam_switch_create (os:=os) verbose dry_run switch compiler).
Proof.
  intros w. unfold opam_switch_create. open_monad.
  destruct verbose, dry_run; cbn; ask_world; show_fail_stop.
Qed.

Lemma opam_repo_add_fail_stop verbose dry_run switch rn ra :
  post fail_stop (opam_repo_add (os:=os) verbose dry_run switch rn ra).
Proof.
  intros w. unfold opam_repo_add. open_monad.
  destruct verbose, dry_run; cbn; ask_world; show_fail_stop.
Qed.

Lemma opam_install_packages_fail_stop verbose dry_run switch packages :
  post fail_stop
    (opam_install_packages (os:=os) verbose dry_run switch packages).
Proof.
  intros w. unfold opam_install_packages. open_monad.
  destruct verbose, dry_run; cbn; ask_world; show_fail_stop.
Qed.

Lemma git_clone_fail_stop verbose dry_run path git_url rs :
  post fail_stop (git_clone (os:=os) verbose dry_run path git_url rs).
Proof.
  intros w. unfold git_clone. open_monad.
  destruct verbose, dry_run, rs; cbn; ask_world; show_fail_stop.
Qed.

Lemma git_checkout_fail_stop verbose dry_run path commit rs :
  post fail_stop (git_checkout (os:=os) verbose dry_run path commit rs).
Proof.
  intros w. unfold git_checkout. open_monad.
  destruct verbose, dry_run, rs, commit; cbn; ask_world; show_fail_stop.
Qed.

Lemma main_fail_stop verbose dry_run config :
  post fail_stop (main (os:=os) verbose dry_run config).
Proof.
  unfold main, reconcile, ensure_switch, ensure_repository, ensure_extra_dep.
  repeat first
    [ apply load_config_fail_stop
    | apply opam_check_fail_stop
    | apply opam_get_switches_fail_stop
    | apply opam_switch_create_fail_stop
    | apply opam_get_repositoris_fail_stop
    | apply opam_repo_add_fail_stop
    | apply opam_install_packages_fail_stop
    | apply git_clone_fail_stop
    | apply git_checkout_fail_stop
    | apply (post_ret _ fail_stop_sequential)
    | apply (post_when _ fail_stop_sequential)
    | apply (post_getitem _ fail_stop_sequential); apply fs_clean; constructor
    | apply (post_for_each _ fail_stop_sequential); intros ? _
    | apply (post_bind _ fail_stop_sequential); [|intros ?]
    | match goal with
      | |- post _ (if ?b then _ else _) => destruct b
      end
    | solve [intros ?; apply fs_clean; all_quiet] ].
Qed.

(** X7. When a child process fails -- a listing, or a command started
    for its effect -- it is the last one of the run: nothing is started
    after it, the process only reports the failure, and the status is 2
    for a listing and 3 for a command.  In particular at most one child
    process fails in a run. *)
Theorem X7_a_failed_process_is_the_last verbose dry_run config (w : World os)
  pre e rest :
  trace verbose dry_run config w = pre ++ e :: rest ->
  failed e = true ->
  processes rest = []
  /\ existsb failed pre = false
  /\ exit_code verbose dry_run config w = status_of_failure e.
Proof.
  intros Ht Hf.
  pose proof (main_fail_stop verbose dry_run config w) as H.
  unfold trace, exit_code, run, events_of, result_of in *.
  destruct (main verbose dry_run config w) as [[w' es] r]; simpl in *.
  assert (Hquiet : forall l, Forall quiet l ->
                     Forall (fun x => failed x = false) l).
  { intros l Hl. exact Hl. }
  assert (Hclean : forall l x, Forall quiet l -> l ++ x = pre ++ e :: rest ->
                     Forall quiet x -> False).
  { intros l x Hl E Hx.
    assert (Hin : In e (l ++ x)) by (rewrite E; apply in_or_app; right; now left).
    assert (Hall : Forall quiet (l ++ x)) by (apply Forall_app; now split).
    rewrite Forall_forall in Hall. apply Hall in Hin.
    unfold quiet in Hin. congruence. }
  assert (Hpre : forall l a l2, Forall quiet l ->
                   l ++ a :: l2 = pre ++ e :: rest ->
                   Forall (fun x => failed x = false) l2 ->
                   a = e /\ l2 = rest /\ existsb failed pre = false).
  { intros l a l2 Hl E Hl2.
    destruct (split_at_marked failed l a l2 pre e rest Hl Hl2 Hf E)
      as [-> ->].
    split; [reflexivity|]. split; [reflexivity|].
    apply app_inv_tail in E. subst l.
    apply not_true_is_false. intros Hex.
    apply existsb_exists in Hex as [x [Hx Hfx]].
    rewrite Forall_forall in Hl. apply Hl in Hx. unfold quiet in Hx.
    congruence. }
  destruct r as [a|x]; simpl in *; revert Ht.
  - inversion H as [es0 r0 Hq E1 E2| |]; subst. intros Ht. exfalso.
    apply (Hclean _ [] Hq); [rewrite app_nil_r; exact Ht|constructor].
  - inversion H as [es0 r0 Hq E1 E2
                   |es0 argv cwd tail Hq Htl E1 E2
                   |es0 argv tail Hq Htl E1 E2]; subst; intros Ht.
    + exfalso. destruct x; simpl in Ht;
        first [ apply (Hclean _ [] Hq); [rewrite app_nil_r; exact Ht|constructor]
              | apply (Hclean _ [Show _] Hq Ht); all_quiet ].
    + destruct (Hpre es0 _ tail Hq Ht (inert_quiet _ Htl)) as [<- [<- Hex]].
      split; [now apply inert_no_process|]. split; [exact Hex|reflexivity].
    + destruct (Hpre es0 _ tail Hq Ht (inert_quiet _ Htl)) as [<- [<- Hex]].
      split; [now apply inert_no_process|]. split; [exact Hex|reflexivity].
Qed.

End Stops.

Lemma X7_witness :
  failed (Call ["opam"; "switch"; "create"; "--no-switch"; "4.14"; "4.14.0"]
            None false) = true
  /\ exit_code (os:=Sim.machine) true false CONFIG
       (Cases.breaking full
          [["opam"; "switch"; "create"; "--no-switch"; "4.14"; "4.14.0"]])
     = 3%Z
  /\ processes
       (skipn 6
          (trace (os:=Sim.machine) true false CONFIG
             (Cases.breaking full
                [["opam"; "switch"; "create"; "--no-switch"; "4.14";
                  "4.14.0"]])))
     = [].
Proof.
  split; [reflexivity|].
  destruct (X7_a_failed_process_is_the_last (os:=Sim.machine) true false
              CONFIG
              (Cases.breaking full
                 [["opam"; "switch"; "create"; "--no-switch"; "4.14";
                   "4.14.0"]])
              (firstn 5
                 (trace (os:=Sim.machine) true false CONFIG
                    (Cases.breaking full
                       [["opam"; "switch"; "create"; "--no-switch"; "4.14";
                         "4.14.0"]])))
              (Call ["opam"; "switch"; "create"; "--no-switch"; "4.14";
                     "4.14.0"] None false)
              (skipn 6
                 (trace (os:=Sim.machine) true false CONFIG
                    (Cases.breaking full
                       [["opam"; "switch"; "create"; "--no-switch"; "4.14";
                         "4.14.0"]])))
              eq_refl eq_refl)
    as [Hrest [_ Hcode]].
  split; [exact Hcode|exact Hrest].
Defined.

Ltac split_cases :=
  repeat match goal with
    | |- context [if ?b then _ else _] => is_var b; destruct b
    | |- context [get ?o _] =>
        lazymatch o with
        | Some _ => fail
        | None => fail
        | _ => destruct o as [[|]|]; cbn [get]
        end
    | |- context [match ?x with Some _ => _ | None => _ end] =>
        is_var x; destruct x
    end.

Ltac by_cases :=
  intros ?; open_monad; split_cases; cbn; ask_world; show_only.

(** one of the nine functions [main] calls, settled case by case *)
Ltac leaf :=
  lazymatch goal with
  | |- post _ (load_config _ _) => unfold load_config; by_cases
  | |- post _ (opam_check _) => unfold opam_check; by_cases
  | |- post _ (opam_get_switches _) => unfold opam_get_switches; by_cases
  | |- post _ (opam_get_repositoris _ _) =>
      unfold opam_get_repositoris; by_cases
  | |- post _ (opam_switch_create _ _ _ _) =>
      unfold opam_switch_create; by_cases
  | |- post _ (opam_repo_add _ _ _ _ _) => unfold opam_repo_add; by_cases
  | |- post _ (opam_install_packages _ _ _ _) =>
      unfold opam_install_packages; by_cases
  | |- post _ (git_clone _ _ _ _ _) => unfold git_clone; by_cases
  | |- post _ (git_checkout _ _ _ _ _) => unfold git_checkout; by_cases
  end.

Ltac through_main :=
  unfold main, reconcile, ensure_switch, ensure_repository, ensure_extra_dep;
  repeat first
    [ leaf
    | apply (post_ret _ (only_sequential _ _))
    | apply (post_getitem _ (only_sequential _ _)); split; [constructor|exact I]
    | apply (post_for_each _ (only_sequential _ _)); intros ? _
    | apply (post_bind _ (only_sequential _ _)); [|intros ?]
    | match goal with
      | |- post _ (if ?b then _ else _) => destruct b
      end
    | solve [by_cases] ].

Section Starts.

Context {os : OS}.
Import PyStr.
Local Open Scope py_scope.

Lemma main_dry_processes verbose config :
  post (only dry anything) (main (os:=os) verbose true config).
Proof.
  through_main.
Qed.

Lemma main_silent_processes dry_run config :
  post (only silent anything) (main (os:=os) false dry_run config).
Proof.
  through_main.
Qed.

End Starts.

Lemma listing_argv argv :
  match after ["opam"; "switch"; "list"; "-s"] argv,
        after ["opam"; "repo"; "list"; "-s"] argv with
  | Some [], _ => true
  | _, Some [_] => true
  | _, _ => false
  end = true ->
  argv = switch_list_argv
  \/ exists sel, argv = ["opam"; "repo"; "list"; "-s"; sel].
Proof.
  destruct (after ["opam"; "switch"; "list"; "-s"] argv) as [[|x l]|] eqn:E1.
  - intros _. left. now apply after_prefix in E1.
  - destruct (after ["opam"; "repo"; "list"; "-s"] argv) as [[|y [|z l']]|]
      eqn:E2; try discriminate.
    intros _. right. exists y. now apply after_prefix in E2.
  - destruct (after ["opam"; "repo"; "list"; "-s"] argv) as [[|y [|z l']]|]
      eqn:E2; try discriminate.
    intros _. right. exists y. now apply after_prefix in E2.
Qed.

Section Traces.

Context {os : OS}.

(** every event of the process, the hook's report included *)
Lemma trace_all (P : event -> Prop) verbose dry_run config (w : World os) :
  post (only P anything) (main (os:=os) verbose dry_run config) ->
  (forall x, P (Show x)) ->
  Forall P (trace verbose dry_run config w).
Proof.
  intros H HS. destruct (H w) as [Hes _].
  unfold trace, run, events_of in *.
  destruct (main verbose dry_run config w) as [[w' es] [a|x]]; simpl in *;
    [exact Hes|].
  destruct x; simpl; try exact Hes;
    (apply Forall_app; split; [exact Hes|constructor; [apply HS|constructor]]).
Qed.

(** X8. Under [--dry-run], with or without [--verbose] and whatever the
    configuration and the machine, the only child processes the script
    starts are the two listings ([opam switch list -s],
    [opam repo list -s <selector>]) and [opam install --dry-run ...], the
    latter in the current directory: no switch is created, no
    repository added, nothing cloned or checked out, and never
    [opam install --yes]. *)
Theorem X8_dry_run_starts_listings_and_dry_install verbose config
  (w : World os) :
  (forall argv cwd ok,
      In (Call argv cwd ok) (trace verbose true config w) ->
      cwd = None
      /\ exists rest, argv = ["opam"; "install"; "--dry-run"] ++ rest)
  /\ (forall argv out,
         In (Output argv out) (trace verbose true config w) ->
         argv = switch_list_argv
         \/ exists sel, argv = ["opam"; "repo"; "list"; "-s"; sel]).
Proof.
  pose proof (trace_all dry verbose true config w
                (main_dry_processes verbose config) (fun _ => eq_refl)) as H.
  rewrite Forall_forall in H. split.
  - intros argv cwd ok Hin. apply H in Hin. unfold dry, dry_process in Hin.
    destruct (after ["opam"; "install"; "--dry-run"] argv) as [rest|] eqn:E;
      [|discriminate].
    destruct cwd; [discriminate|]. split; [reflexivity|].
    exists rest. now apply after_prefix in E.
  - intros argv out Hin. apply H in Hin. now apply listing_argv.
Qed.

(** X9. Without [--verbose], whatever the configuration and the machine,
    the only child processes the script starts are the two listings and
    [opam install]: it never creates a switch, adds a repository, clones
    or checks out. *)
Theorem X9_silent_run_starts_listings_and_install dry_run config
  (w : World os) :
  (forall argv cwd ok,
      In (Call argv cwd ok) (trace false dry_run config w) ->
      cwd = None /\ exists rest, argv = ["opam"; "install"] ++ rest)
  /\ (forall argv out,
         In (Output argv out) (trace false dry_run config w) ->
         argv = switch_list_argv
         \/ exists sel, argv = ["opam"; "repo"; "list"; "-s"; sel]).
Proof.
  pose proof (trace_all silent false dry_run config w
                (main_silent_processes dry_run config) (fun _ => eq_refl))
    as H.
  rewrite Forall_forall in H. split.
  - intros argv cwd ok Hin. apply H in Hin.
    unfold silent, silent_process in Hin.
    destruct (after ["opam"; "install"] argv) as [rest|] eqn:E;
      [|discriminate].
    destruct cwd; [discriminate|]. split; [reflexivity|].
    exists rest. now apply after_prefix in E.
  - intros argv out Hin. apply H in Hin. now apply listing_argv.
Qed.

End Traces.

Lemma X8_witness :
  In (Call ["opam"; "install"; "--dry-run"; "--switch=4.14"; "coq"] None true)
     (trace (os:=Sim.machine) true true CONFIG (fresh full))
  /\ exists rest,
       ["opam"; "install"; "--dry-run"; "--switch=4.14"; "coq"]
       = ["opam"; "install"; "--dry-run"] ++ rest.
Proof.
  assert (Hin : In (Call ["opam"; "install"; "--dry-run"; "--switch=4.14";
                          "coq"] None true)
                  (trace (os:=Sim.machine) true true CONFIG (fresh full))).
  { vm_compute. repeat (first [left; reflexivity | right]). }
  split; [exact Hin|].
  exact (proj2 (proj1 (X8_dry_run_starts_listings_and_dry_install
                         (os:=Sim.machine) true CONFIG (fresh full))
                  _ _ _ Hin)).
Defined.

Lemma X9_witness :
  In (Call ["opam"; "install"; "--yes"; "--switch=default"] None true)
     (trace (os:=Sim.machine) false false CONFIG (fresh one_extra_dep))
  /\ exists rest,
       ["opam"; "install"; "--yes"; "--switch=default"]
       = ["opam"; "install"] ++ rest.
Proof.
  assert (Hin : In (Call ["opam"; "install"; "--yes"; "--switch=default"]
                      None true)
                  (trace (os:=Sim.machine) false false CONFIG
                     (fresh one_extra_dep))).
  { vm_compute. repeat (first [left; reflexivity | right]). }
  split; [exact Hin|].
  exact (proj2 (proj1 (X9_silent_run_starts_listings_and_install
                         (os:=Sim.machine) false CONFIG (fresh one_extra_dep))
                  _ _ _ Hin)).
Defined.

(* ================================================================== *)
(** * Further properties: the steps of a run *)
(* ================================================================== *)

Lemma processes_app es1 es2 :
  processes (es1 ++ es2) = processes es1 ++ processes es2.
Proof. unfold processes. apply flat_map_app. Qed.

Lemma processes_narration verbose line :
  processes (narration verbose line) = [].
Proof. destruct verbose; reflexivity. Qed.

Lemma calls_app es1 es2 : calls (es1 ++ es2) = calls es1 ++ calls es2.
Proof. unfold calls. apply flat_map_app. Qed.

Lemma calls_narration verbose line : calls (narration verbose line) = [].
Proof. destruct verbose; reflexivity. Qed.

Section Steps.

Context {os : OS}.
Import PyStr.
Local Open Scope py_scope.

(** X10. With a configuration that loads, a machine on which the OPAM
    root directory does not exist gets one line of advice and status 2:
    no listing is attempted and nothing is started. *)
Theorem X10_no_opam_root verbose dry_run config (w : World os) doc :
  path_exists os w config = true ->
  load_yaml os w config = Some doc ->
  Cerberus.validate SCHEMA doc = Some [] ->
  path_exists os w (expanduser os w OPAMROOT) = false ->
  run verbose dry_run config w
  = (w, narration verbose (fmt "Loading '%s'" [config])
        ++ narration verbose "Checking OPAM presence"
        ++ [Stdout "OPAM is not initialized. Please set up OPAM with `opam init`."],
     2%Z).
Proof.
  intros He Hl Hv Hr.
  destruct (valid_config_loads verbose config w doc He Hl Hv)
    as [cfg [_ Hok]].
  unfold run, main, reconcile.
  rewrite (bind_ok _ _ _ _ _ _ Hok).
  rewrite (bind_raise _ _ _ _ _ _ (opam_check_missing verbose w Hr)).
  reflexivity.
Qed.

(** the install step, whatever the flags *)
Lemma opam_install_packages_run verbose dry_run switch packages
  (w : World os) :
  opam_install_packages verbose dry_run switch packages w
  = match check_call os w (install_argv dry_run switch packages) None with
    | (w', true) =>
        (w', narration verbose (fmt "Installing: %s" [join " " packages])
             ++ [Call (install_argv dry_run switch packages) None true]
             ++ narration verbose (fmt "Installed: %s" [join " " packages]),
         Ok tt)
    | (w', false) =>
        (w', narration verbose (fmt "Installing: %s" [join " " packages])
             ++ [Call (install_argv dry_run switch packages) None false;
                 Stdout "Error installing pakages";
                 Show (CalledProcessError
                         (install_argv dry_run switch packages))],
         Raise (SystemExit 3))
    end.
Proof.
  unfold opam_install_packages, install_argv. open_monad.
  destruct verbose, dry_run; cbn;
    destruct (check_call os w _ None) as [w' []]; reflexivity.
Qed.

(** X11. The install step starts exactly one child process, in the
    current directory: [opam install --yes --switch=<switch>] (or
    [--dry-run] under that flag) followed by the packages in the order of
    the configuration -- by none when the list is empty.  The step
    succeeds when that process does and exits with 3 when it does not;
    [--verbose] changes none of this. *)
Theorem X11_install_is_one_call verbose dry_run switch packages
  (w : World os) :
  calls (events_of (opam_install_packages verbose dry_run switch packages) w)
  = [ (["opam"; "install"; if dry_run then "--dry-run" else "--yes";
        fmt "--switch=%s" [switch]] ++ packages, None) ]
  /\ world_of (opam_install_packages verbose dry_run switch packages) w
     = fst (check_call os w (install_argv dry_run switch packages) None)
  /\ result_of (opam_install_packages verbose dry_run switch packages) w
     = if snd (check_call os w (install_argv dry_run switch packages) None)
       then Ok tt else Raise (SystemExit 3).
Proof.
  unfold events_of, world_of, result_of.
  rewrite opam_install_packages_run.
  destruct (check_call os w _ None) as [w' []]; simpl;
    rewrite calls_app, calls_narration; simpl;
    rewrite ?calls_narration; repeat split; reflexivity.
Qed.

(** every entry already listed: the loop only narrates *)
Lemma for_each_all_found verbose dry_run switch repos rs (w : World os) :
  (forall r, In r rs -> mem (repo_name r) repos = true) ->
  for_each rs (ensure_repository verbose dry_run switch repos) w
  = (w, flat_map (fun r => narration verbose
                             (fmt "Repository '%s' found" [repo_name r])) rs,
     Ok tt).
Proof.
  induction rs as [|r rest IH]; intros H; [reflexivity|].
  simpl for_each.
  rewrite (bind_ok _ _ _ _ _ _
             (ensure_repository_found verbose dry_run switch repos r w
                (H r (or_introl eq_refl)))).
  rewrite IH; [reflexivity|]. intros x Hx. apply H. now right.
Qed.

Lemma processes_found verbose (rs : list repository) :
  processes (flat_map (fun r => narration verbose
                                  (fmt "Repository '%s' found" [repo_name r]))
               rs) = [].
Proof.
  induction rs as [|r rest IH]; [reflexivity|].
  cbn [flat_map]. now rewrite processes_app, processes_narration, IH.
Qed.

(** X12. On a machine that already matches the configuration -- the
    switch is listed, every repository is listed, there are no extra
    dependencies -- a run starts three child processes and no other: the
    two listings and the install.  Nothing is created, added, cloned or
    checked out, the status is 0 when the install succeeds and 3 when it
    fails, and this is so with and without [--verbose]. *)
Theorem X12_converged_machine verbose dry_run config (w w1 w2 : World os)
  doc cfg out_s out_r rs deps :
  path_exists os w config = true ->
  load_yaml os w config = Some doc ->
  Cerberus.validate SCHEMA doc = Some [] ->
  Decode.as_config doc = Some cfg ->
  path_exists os w (expanduser os w OPAMROOT) = true ->
  check_output os w switch_list_argv = (w1, Some out_s) ->
  mem (opam_switch (cfg_opam cfg)) (map strip (split_lines out_s)) = true ->
  check_output os w1 (repo_list_argv (opam_switch (cfg_opam cfg)))
  = (w2, Some out_r) ->
  cfg_repositories cfg = Some rs ->
  (forall r, In r rs ->
             mem (repo_name r) (map strip (split_lines out_r)) = true) ->
  cfg_dependencies cfg = Some deps ->
  cfg_extra_deps cfg = Some [] ->
  processes (trace verbose dry_run config w)
  = [ switch_list_argv;
      repo_list_argv (opam_switch (cfg_opam cfg));
      install_argv dry_run (opam_switch (cfg_opam cfg)) deps ]
  /\ exit_code verbose dry_run config w
     = if snd (check_call os w2
                 (install_argv dry_run (opam_switch (cfg_opam cfg)) deps)
                 None)
       then 0%Z else 3%Z.
Proof.
  intros He Hl Hv Hc Hroot Hs Hms Hr Hrs Hall Hds Heds.
  destruct (valid_config_loads verbose config w doc He Hl Hv)
    as [cfg' [Hc' Hok]].
  assert (cfg' = cfg) by congruence. subst cfg'.
  unfold trace, exit_code, run, main, reconcile.
  rewrite (bind_ok _ _ _ _ _ _ Hok).
  rewrite (bind_ok _ _ _ _ _ _ (opam_check_ok verbose w Hroot)).
  rewrite (bind_ok _ _ _ _ _ _ (opam_get_switches_ok verbose _ _ _ Hs)).
  rewrite (bind_ok _ _ _ _ _ _
             (ensure_switch_found verbose dry_run cfg _ w1 Hms)).
  rewrite (bind_ok _ _ _ _ _ _
             (opam_get_repositoris_ok verbose _ _ _ _ Hr)).
  rewrite Hrs, Hds, Heds.
  rewrite (bind_ok _ _ w2 w2 [] rs eq_refl).
  rewrite (bind_ok _ _ _ _ _ _
             (for_each_all_found verbose dry_run _ _ rs w2 Hall)).
  rewrite (bind_ok _ _ w2 w2 [] deps eq_refl).
  pose proof (opam_install_packages_run verbose dry_run
                (opam_switch (cfg_opam cfg)) deps w2) as Hi.
  destruct (check_call os w2 _ None) as [w3 []].
  - rewrite (bind_ok _ _ _ _ _ _ Hi).
    repeat match goal with
      | |- context [bind (getitem "extra-deps" (Some [])) ?k ?u] =>
          change (bind (getitem "extra-deps" (Some [])) k u)
            with (u, @nil event, @Raise unit (SystemExit 0))
      end.
    cbv beta iota zeta delta [fst snd].
    rewrite !processes_app, !processes_narration, processes_found.
    split; reflexivity.
  - rewrite (bind_raise _ _ _ _ _ _ Hi).
    cbv beta iota zeta delta [fst snd].
    rewrite !processes_app, !processes_narration, processes_found.
    split; reflexivity.
Qed.

End Steps.

Lemma X10_witness :
  path_exists Sim.machine (Cases.no_root full) CONFIG = true
  /\ path_exists Sim.machine (Cases.no_root full)
       (expanduser Sim.machine (Cases.no_root full) OPAMROOT) = false
  /\ run (os:=Sim.machine) false false CONFIG (Cases.no_root full)
     = (Cases.no_root full,
        [Stdout "OPAM is not initialized. Please set up OPAM with `opam init`."],
        2%Z).
Proof.
  split; [reflexivity|]. split; [reflexivity|].
  exact (X10_no_opam_root (os:=Sim.machine) false false CONFIG
           (Cases.no_root full) full eq_refl eq_refl eq_refl eq_refl).
Defined.

Lemma X12_witness :
  PyStr.mem "coq-released"
    (map PyStr.strip (PyStr.split_lines ("coq-released" ++ PyStr.NL)%string))
  = true
  /\ processes (trace (os:=Sim.machine) false false CONFIG
                  (attached one_repository))
     = [ ["opam"; "switch"; "list"; "-s"];
         ["opam"; "repo"; "list"; "-s"; "--on-switches=default"];
         ["opam"; "install"; "--yes"; "--switch=default"] ]
  /\ exit_code (os:=Sim.machine) false false CONFIG (attached one_repository)
     = 0%Z.
Proof.
  split; [reflexivity|].
  exact (X12_converged_machine (os:=Sim.machine) false false CONFIG
           (attached one_repository) (attached one_repository)
           (attached one_repository) one_repository
           {| cfg_opam := {| opam_switch := "default";
                             opam_compiler := "4.14.0" |};
              cfg_dependencies := Some [];
              cfg_extra_deps := Some [];
              cfg_repositories :=
                Some [ {| repo_name := "coq-released";
                          repo_address := "https://coq.inria.fr/opam/released" |} ] |}
           ("default" ++ PyStr.NL)%string ("coq-released" ++ PyStr.NL)%string
           [ {| repo_name := "coq-released";
                repo_address := "https://coq.inria.fr/opam/released" |} ]
           []
           eq_refl eq_refl eq_refl eq_refl eq_refl eq_refl eq_refl eq_refl
           eq_refl
           (fun r H => match H with
                       | or_introl E => match E with eq_refl => eq_refl end
                       | or_intror F => match F with end
                       end)
           eq_refl eq_refl).
Defined.

(* ================================================================== *)
(** * Further properties: the two loops *)
(* ================================================================== *)

Section Loops.

Context {os : OS}.
Import PyStr.
Local Open Scope py_scope.

Lemma for_each_cons {A} (x : A) (rest : list A) (body : A -> M os unit)
  (w : World os) :
  for_each (x :: rest) body w = bind (body x) (fun _ => for_each rest body) w.
Proof. reflexivity. Qed.

Lemma outcomes_app es1 es2 :
  outcomes (es1 ++ es2) = outcomes es1 ++ outcomes es2.
Proof. apply flat_map_app. Qed.

Lemma in_turn_app (w : World os) cs1 cs2 :
  in_turn w (cs1 ++ cs2)
  = let '(w1, s1, ok1) := in_turn w cs1 in
    if ok1 then let '(w2, s2, ok2) := in_turn w1 cs2 in (w2, s1 ++ s2, ok2)
    else (w1, s1, false).
Proof.
  revert w. induction cs1 as [|c cs1 IH]; intros w.
  - cbn [app in_turn]. destruct (in_turn w cs2) as [[w2 s2] ok2]. reflexivity.
  - cbn [app in_turn].
    destruct (check_call os w (fst c) (snd c)) as [w' [|]]; [|reflexivity].
    rewrite IH. destruct (in_turn w' cs1) as [[w1 s1] [|]]; [|reflexivity].
    destruct (in_turn w1 cs2) as [[w2 s2] ok2]. reflexivity.
Qed.

(** commands run in turn are started until one fails *)
Lemma in_turn_stops (w : World os) cs :
  let '(_, started, ok) := in_turn w cs in
  until_first_failure cs started (ending ok).
Proof.
  revert w. induction cs as [|c cs IH]; intros w.
  - left. split; reflexivity.
  - cbn [in_turn].
    destruct (check_call os w (fst c) (snd c)) as [w' [|]].
    + specialize (IH w'). destruct (in_turn w' cs) as [[w'' started] ok].
      destruct IH as [[Hr ->]|[Hr [before [x [rest [-> ->]]]]]].
      * left. split; [exact Hr|reflexivity].
      * right. split; [exact Hr|]. exists (c :: before), x, rest.
        split; reflexivity.
    + right. split; [reflexivity|]. exists [], c, cs. split; reflexivity.
Qed.

(** one step after another: the second starts on the machine the
    commands of the first have left, and only if they all succeeded *)
Lemma commands_run_bind (m : M os unit) (k : unit -> M os unit)
  (w : World os) cs1 cs2 :
  commands_run m w = expected_run w cs1 ->
  commands_run (k tt) (fst (fst (in_turn w cs1)))
  = expected_run (fst (fst (in_turn w cs1))) cs2 ->
  commands_run (bind m k) w = expected_run w (cs1 ++ cs2).
Proof.
  unfold commands_run, expected_run, world_of, events_of, result_of, bind.
  rewrite in_turn_app. intros H1 H2.
  destruct (m w) as [[w1 es1] [[]|e]];
    destruct (in_turn w cs1) as [[w1' s1] [|]]; cbn in H1, H2;
    try discriminate H1.
  - injection H1 as -> <-.
    destruct (k tt w1') as [[w2 es2] r].
    destruct (in_turn w1' cs2) as [[w2' s2] ok2]. cbn in *.
    injection H2 as -> <- ->. now rewrite outcomes_app.
  - injection H1 as -> <- ->. reflexivity.
Qed.

(** a command between its two lines of narration *)
Lemma narrated_run before after_ok report argv cwd (w : World os) :
  commands_run (narrated before after_ok report argv cwd) w
  = expected_run w [(argv, cwd)].
Proof.
  unfold commands_run, expected_run, world_of, events_of, result_of, narrated.
  cbn [in_turn fst snd].
  destruct (check_call os w argv cwd) as [w' [|]]; reflexivity.
Qed.

Lemma ensure_repository_run switch repos r (w : World os) :
  commands_run (ensure_repository true false switch repos r) w
  = expected_run w (map (add_call switch) (missing_repositories repos [r])).
Proof.
  unfold missing_repositories. cbn [filter].
  destruct (mem (repo_name r) repos) eqn:Hm; cbn [negb map].
  - unfold commands_run, world_of, events_of, result_of.
    now rewrite (ensure_repository_found true false switch repos r w Hm).
  - unfold commands_run, world_of, events_of, result_of.
    rewrite (ensure_repository_missing true false switch repos r w Hm),
      opam_repo_add_verbose.
    apply narrated_run.
Qed.

Lemma missing_repositories_cons repos r rs :
  missing_repositories repos (r :: rs)
  = missing_repositories repos [r] ++ missing_repositories repos rs.
Proof.
  unfold missing_repositories. cbn [filter].
  destruct (negb (mem (repo_name r) repos)); reflexivity.
Qed.

Lemma ensure_extra_dep_run d (w : World os) :
  commands_run (ensure_extra_dep true false d) w
  = expected_run w (entry_commands w d).
Proof.
  unfold entry_commands.
  destruct (path_exists os w (ed_path d)) eqn:He.
  - unfold commands_run, world_of, events_of, result_of.
    rewrite (ensure_extra_dep_present true false d w He),
      git_checkout_verbose.
    apply narrated_run.
  - unfold commands_run at 1, world_of, events_of, result_of.
    rewrite (ensure_extra_dep_absent true false d w He).
    apply (commands_run_bind _ _ w [clone_call d] [checkout_call d]).
    + unfold commands_run, world_of, events_of, result_of.
      rewrite git_clone_verbose. apply narrated_run.
    + unfold commands_run, world_of, events_of, result_of.
      rewrite git_checkout_verbose. apply narrated_run.
Qed.

(** X13. With [--verbose] and without [--dry-run], the repository loop
    runs [opam repo add <name> <address> --on-switches=<switch>] for the
    entries whose name the probe did not list, in the order of the
    configuration, one command per entry -- an unlisted name that occurs
    twice is added twice, the probe is not repeated -- and for no other
    entry.  Each command is started on the machine the one before it
    has left.  As long as they succeed the loop goes on, and it ends
    normally when all have; the first command that fails is the last
    one started, and the loop ends there with status 3. *)
Theorem X13_repositories_added_in_order switch repos rs (w : World os) :
  commands_run (for_each rs (ensure_repository true false switch repos)) w
  = expected_run w (map (add_call switch) (missing_repositories repos rs))
  /\ until_first_failure
       (map (add_call switch) (missing_repositories repos rs))
       (outcomes
          (events_of
             (for_each rs (ensure_repository true false switch repos)) w))
       (result_of
          (for_each rs (ensure_repository true false switch repos)) w).
Proof.
  assert (Hrun : forall u : World os,
             commands_run
               (for_each rs (ensure_repository true false switch repos)) u
             = expected_run u
                 (map (add_call switch) (missing_repositories repos rs))).
  { induction rs as [|r rs IH]; intros u; [reflexivity|].
    rewrite missing_repositories_cons, map_app. cbn [for_each].
    apply commands_run_bind; [apply ensure_repository_run|apply IH]. }
  split; [apply Hrun|].
  specialize (Hrun w). unfold commands_run, expected_run in Hrun.
  pose proof (in_turn_stops w
                (map (add_call switch) (missing_repositories repos rs)))
    as Hs.
  destruct (in_turn w _) as [[w' started] ok].
  injection Hrun as _ -> ->. exact Hs.
Qed.

(** X14. With [--verbose] and without [--dry-run], the loop over the
    extra dependencies runs, for each entry in the order of the
    configuration, the entry's clone if its path does not exist at that
    moment -- on the machine as the commands of the entries before it
    have left it -- and then always its checkout:
    [git checkout [--recurse-submodules] [<commit>]] inside the entry's
    path, without a revision when no commit is given.  As long as the
    commands succeed the loop goes on, and it ends normally when all
    have; the first command that fails is the last one started, and the
    loop ends there with status 3. *)
Theorem X14_every_entry_is_checked_out eds (w : World os) :
  commands_run (for_each eds (ensure_extra_dep true false)) w
  = expected_run w (git_commands w eds)
  /\ until_first_failure (git_commands w eds)
       (outcomes (events_of (for_each eds (ensure_extra_dep true false)) w))
       (result_of (for_each eds (ensure_extra_dep true false)) w).
Proof.
  assert (Hrun : forall u : World os,
             commands_run (for_each eds (ensure_extra_dep true false)) u
             = expected_run u (git_commands u eds)).
  { induction eds as [|d eds IH]; intros u; [reflexivity|].
    cbn [git_commands for_each].
    apply commands_run_bind; [apply ensure_extra_dep_run|apply IH]. }
  split; [apply Hrun|].
  specialize (Hrun w). unfold commands_run, expected_run in Hrun.
  pose proof (in_turn_stops w (git_commands w eds)) as Hs.
  destruct (in_turn w _) as [[w' started] ok].
  injection Hrun as _ -> ->. exact Hs.
Qed.

Lemma repositories_described switch repos rs (w : World os) :
  for_each rs (ensure_repository true true switch repos) w
  = (w, flat_map (repository_lines switch repos) rs, Ok tt).
Proof.
  induction rs as [|r rs IH]; [reflexivity|].
  rewrite for_each_cons.
  assert (Hstep : ensure_repository true true switch repos r w
                  = (w, repository_lines switch repos r, Ok tt)).
  { unfold ensure_repository, repository_lines.
    destruct (mem (repo_name r) repos); reflexivity. }
  rewrite (bind_ok _ _ _ _ _ _ Hstep), IH. reflexivity.
Qed.

Lemma extra_deps_described eds (w : World os) :
  for_each eds (ensure_extra_dep true true) w
  = (w, flat_map (fun d => extra_dep_lines
                             (path_exists os w (ed_path d)) d) eds,
     Ok tt).
Proof.
  induction eds as [|d eds IH]; [reflexivity|].
  rewrite for_each_cons.
  assert (Hstep : ensure_extra_dep true true d w
                  = (w, extra_dep_lines (path_exists os w (ed_path d)) d,
                     Ok tt)).
  { unfold ensure_extra_dep, extra_dep_lines, clone_call, checkout_call.
    open_monad.
    destruct (path_exists os w (ed_path d)),
      (ed_recurse_submodules d) as [[|]|], (ed_commit d); reflexivity. }
  rewrite (bind_ok _ _ _ _ _ _ Hstep), IH. reflexivity.
Qed.

(** X15. With [--verbose] and [--dry-run] neither loop can fail or
    change the machine, and what each prints is fixed entry by entry: a
    repository is either reported found or described by its add
    command; an extra dependency is described by its clone when its path
    does not exist -- and still does not exist afterwards, so a path
    listed twice is described as cloned twice -- and always by its
    checkout. *)
Theorem X15_verbose_dry_run_describes_each_entry switch repos rs eds
  (w : World os) :
  for_each rs (ensure_repository true true switch repos) w
  = (w, flat_map (repository_lines switch repos) rs, Ok tt)
  /\ for_each eds (ensure_extra_dep true true) w
     = (w, flat_map (fun d => extra_dep_lines
                                (path_exists os w (ed_path d)) d) eds,
        Ok tt).
Proof.
  split; [apply repositories_described|apply extra_deps_described].
Qed.

Lemma processes_repository_lines switch repos rs :
  processes (flat_map (repository_lines switch repos) rs) = [].
Proof.
  induction rs as [|r rs IH]; [reflexivity|].
  cbn [flat_map]. rewrite processes_app, IH.
  unfold repository_lines. destruct (mem (repo_name r) repos); reflexivity.
Qed.

Lemma processes_extra_dep_lines (present : extra_dep -> bool) eds :
  processes (flat_map (fun d => extra_dep_lines (present d) d) eds) = [].
Proof.
  induction eds as [|d eds IH]; [reflexivity|].
  cbn [flat_map]. rewrite processes_app, IH.
  unfold extra_dep_lines. destruct (present d); reflexivity.
Qed.

(** the switch step under [--verbose --dry-run] only prints *)
Lemma ensure_switch_described cfg switches (w : World os) :
  exists lines,
    ensure_switch true true cfg switches w = (w, lines, Ok tt)
    /\ processes lines = [].
Proof.
  unfold ensure_switch. destruct (mem _ _); eexists; split; reflexivity.
Qed.

(** X19. A complete dry run: with [--verbose] and [--dry-run], a
    configuration that loads with its three lists, an OPAM root and two
    listings that succeed, the run starts exactly the two listings and
    [opam install --dry-run --switch=<switch> <packages>] -- whether or
    not the switch, the repositories and the paths exist -- and its
    status is 0 when that install succeeds and 3 when it fails. *)
Theorem X19_dry_run_reaches_the_end config (w w1 w2 : World os)
  doc cfg out_s out_r rs deps eds :
  path_exists os w config = true ->
  load_yaml os w config = Some doc ->
  Cerberus.validate SCHEMA doc = Some [] ->
  Decode.as_config doc = Some cfg ->
  path_exists os w (expanduser os w OPAMROOT) = true ->
  check_output os w switch_list_argv = (w1, Some out_s) ->
  check_output os w1 (repo_list_argv (opam_switch (cfg_opam cfg)))
  = (w2, Some out_r) ->
  cfg_repositories cfg = Some rs ->
  cfg_dependencies cfg = Some deps ->
  cfg_extra_deps cfg = Some eds ->
  processes (trace true true config w)
  = [ switch_list_argv;
      repo_list_argv (opam_switch (cfg_opam cfg));
      install_argv true (opam_switch (cfg_opam cfg)) deps ]
  /\ exit_code true true config w
     = if snd (check_call os w2
                 (install_argv true (opam_switch (cfg_opam cfg)) deps) None)
       then 0%Z else 3%Z.
Proof.
  intros He Hl Hv Hc Hroot Hs Hr Hrs Hds Heds.
  destruct (valid_config_loads true config w doc He Hl Hv)
    as [cfg' [Hc' Hok]].
  assert (cfg' = cfg) by congruence. subst cfg'.
  destruct (ensure_switch_described cfg (map strip (split_lines out_s)) w1)
    as [lines [Hsw Hlines]].
  unfold trace, exit_code, run, main, reconcile.
  rewrite (bind_ok _ _ _ _ _ _ Hok).
  rewrite (bind_ok _ _ _ _ _ _ (opam_check_ok true w Hroot)).
  rewrite (bind_ok _ _ _ _ _ _ (opam_get_switches_ok true _ _ _ Hs)).
  rewrite (bind_ok _ _ _ _ _ _ Hsw).
  rewrite (bind_ok _ _ _ _ _ _ (opam_get_repositoris_ok true _ _ _ _ Hr)).
  rewrite Hrs, Hds, Heds.
  rewrite (bind_ok _ _ w2 w2 [] rs eq_refl).
  rewrite (bind_ok _ _ _ _ _ _ (repositories_described _ _ rs w2)).
  rewrite (bind_ok _ _ w2 w2 [] deps eq_refl).
  pose proof (opam_install_packages_run true true
                (opam_switch (cfg_opam cfg)) deps w2) as Hi.
  destruct (check_call os w2 _ None) as [w3 []].
  - rewrite (bind_ok _ _ _ _ _ _ Hi).
    rewrite (bind_ok _ _ w3 w3 [] eds eq_refl).
    rewrite (bind_ok _ _ _ _ _ _ (extra_deps_described eds w3)).
    cbv beta iota zeta delta [fst snd sys_exit raise].
    rewrite !processes_app, !processes_narration, Hlines,
      processes_repository_lines,
      (processes_extra_dep_lines (fun d => path_exists os w3 (ed_path d))).
    split; reflexivity.
  - rewrite (bind_raise _ _ _ _ _ _ Hi).
    cbv beta iota zeta delta [fst snd].
    rewrite !processes_app, !processes_narration, Hlines,
      processes_repository_lines.
    split; reflexivity.
Qed.

End Loops.

(** three unlisted repositories, the second cannot be added: the first
    is added, the second fails, the third is not tried *)
Lemma X13_witness :
  outcomes
    (events_of
       (for_each [Entries.released; Entries.staging; Entries.released]
          (ensure_repository (os:=Sim.machine) true false "default"
             [EmptyString]))
       (Cases.breaking one_repository
          [fst (add_call "default" Entries.staging)]))
  = [ (add_call "default" Entries.released, true);
      (add_call "default" Entries.staging, false) ]
  /\ result_of
       (for_each [Entries.released; Entries.staging; Entries.released]
          (ensure_repository (os:=Sim.machine) true false "default"
             [EmptyString]))
       (Cases.breaking one_repository
          [fst (add_call "default" Entries.staging)])
     = Raise (SystemExit 3).
Proof.
  pose proof (proj1 (X13_repositories_added_in_order (os:=Sim.machine)
                       "default" [EmptyString]
                       [Entries.released; Entries.staging; Entries.released]
                       (Cases.breaking one_repository
                          [fst (add_call "default" Entries.staging)])))
    as H.
  split.
  - exact (f_equal (fun t => snd (fst t)) H).
  - exact (f_equal snd H).
Defined.

(** the same entry twice, its path missing at first: cloned and checked
    out, then -- the path is there now -- only checked out *)
Lemma X14_witness :
  path_exists Sim.machine (fresh one_extra_dep) "./x" = false
  /\ outcomes
       (events_of
          (for_each [Entries.x; Entries.x]
             (ensure_extra_dep (os:=Sim.machine) true false))
          (fresh one_extra_dep))
     = [ (clone_call Entries.x, true);
         (checkout_call Entries.x, true);
         (checkout_call Entries.x, true) ]
  /\ result_of
       (for_each [Entries.x; Entries.x]
          (ensure_extra_dep (os:=Sim.machine) true false))
       (fresh one_extra_dep)
     = Ok tt.
Proof.
  pose proof (proj1 (X14_every_entry_is_checked_out (os:=Sim.machine)
                       [Entries.x; Entries.x] (fresh one_extra_dep)))
    as H.
  split; [reflexivity|]. split.
  - exact (f_equal (fun t => snd (fst t)) H).
  - exact (f_equal snd H).
Defined.

(* ================================================================== *)
(** * Further properties: the order of the stages *)
(* ================================================================== *)

Lemma ascending_app l1 l2 :
  ascending l1 = true -> ascending l2 = true ->
  (forall a b, In a l1 -> In b l2 -> a <= b) ->
  ascending (l1 ++ l2) = true.
Proof.
  induction l1 as [|a l1 IH]; intros H1 H2 H; [exact H2|].
  destruct l1 as [|b l1].
  - destruct l2 as [|c l2]; [reflexivity|].
    change (((a <=? c)%nat && ascending (c :: l2)) = true).
    rewrite H2, andb_true_r. apply Nat.leb_le. apply H; now left.
  - change (((a <=? b)%nat && ascending (b :: l1)) = true) in H1.
    apply andb_true_iff in H1 as [Hab Hrest].
    change (((a <=? b)%nat && ascending ((b :: l1) ++ l2)) = true).
    rewrite Hab. simpl andb. apply IH; [exact Hrest|exact H2|].
    intros x y Hx Hy. apply H; [now right|exact Hy].
Qed.

Lemma in_stages_app a b c es1 es2 :
  a <= b -> b <= c ->
  in_stages a b es1 -> in_stages b c es2 -> in_stages a c (es1 ++ es2).
Proof.
  intros Hab Hbc [H1 B1] [H2 B2]. unfold in_stages.
  rewrite processes_app, map_app. rewrite Forall_forall in B1, B2. split.
  - apply ascending_app; [exact H1|exact H2|].
    intros x y Hx Hy. apply B1 in Hx. apply B2 in Hy. lia.
  - apply Forall_app. split; apply Forall_forall; intros x Hx.
    + apply B1 in Hx. lia.
    + apply B2 in Hx. lia.
Qed.

Lemma in_stages_nil lo hi : in_stages lo hi [].
Proof. split; [reflexivity|constructor]. Qed.

Ltac by_stage :=
  intros ?; unfold events_of; open_monad; split_cases; cbn; ask_world;
  (split; [vm_compute; reflexivity|vm_compute; repeat constructor]).

Section Order.

Context {os : OS}.
Import PyStr.
Local Open Scope py_scope.

Lemma staged_bind {A B} a b c (m : M os A) (k : A -> M os B) :
  a <= b -> b <= c ->
  staged a b m -> (forall x, staged b c (k x)) -> staged a c (bind m k).
Proof.
  intros Hab Hbc Hm Hk w. specialize (Hm w).
  unfold staged, events_of, bind in *.
  destruct (m w) as [[w1 es1] [x|e]]; simpl in *.
  - specialize (Hk x w1). destruct (k x w1) as [[w2 es2] r]; simpl in *.
    now apply (in_stages_app a b c).
  - destruct Hm as [H1 B1]. split; [exact H1|].
    eapply Forall_impl; [|exact B1]. simpl. intros n Hn. lia.
Qed.

Lemma staged_for_each {A} n (l : list A) (body : A -> M os unit) :
  (forall x, staged n n (body x)) -> staged n n (for_each l body).
Proof.
  intros H. induction l as [|x rest IH].
  - intros w. apply in_stages_nil.
  - simpl for_each. apply (staged_bind n n n); auto.
Qed.

Lemma staged_weaken {A} a b a' b' (m : M os A) :
  a' <= a -> b <= b' -> staged a b m -> staged a' b' m.
Proof.
  intros Ha Hb H w. destruct (H w) as [H1 B1]. split; [exact H1|].
  eapply Forall_impl; [|exact B1]. simpl. intros n Hn. lia.
Qed.

Lemma staged_getitem {A} lo hi key (v : option A) :
  staged lo hi (getitem (os:=os) key v).
Proof. destruct v; intros w; apply in_stages_nil. Qed.

Lemma load_config_staged verbose cfgfile :
  staged 0 0 (load_config (os:=os) verbose cfgfile).
Proof. unfold load_config. by_stage. Qed.

Lemma opam_check_staged verbose :
  staged 0 0 (opam_check (os:=os) verbose).
Proof. unfold opam_check. by_stage. Qed.

Lemma opam_get_switches_staged verbose :
  staged 0 0 (opam_get_switches (os:=os) verbose).
Proof. unfold opam_get_switches. by_stage. Qed.

Lemma ensure_switch_staged verbose dry_run cfg switches :
  staged 1 1 (ensure_switch (os:=os) verbose dry_run cfg switches).
Proof.
  unfold ensure_switch, opam_switch_create.
  destruct (mem _ _); by_stage.
Qed.

Lemma opam_get_repositoris_staged verbose switch :
  staged 2 2 (opam_get_repositoris (os:=os) verbose switch).
Proof. unfold opam_get_repositoris. by_stage. Qed.

Lemma ensure_repository_staged verbose dry_run switch repos r :
  staged 3 3 (ensure_repository (os:=os) verbose dry_run switch repos r).
Proof.
  unfold ensure_repository, opam_repo_add.
  destruct (mem _ _); by_stage.
Qed.

Lemma opam_install_packages_staged verbose dry_run switch packages :
  staged 4 4 (opam_install_packages (os:=os) verbose dry_run switch packages).
Proof. unfold opam_install_packages. by_stage. Qed.

Lemma ensure_extra_dep_staged verbose dry_run d :
  staged 5 5 (ensure_extra_dep (os:=os) verbose dry_run d).
Proof.
  unfold ensure_extra_dep, git_clone, git_checkout.
  destruct d as [g [c|] [[|]|] p]; cbn [ed_git ed_commit ed_path
                                         ed_recurse_submodules get];
    by_stage.
Qed.

Lemma main_staged verbose dry_run config :
  staged 0 5 (main (os:=os) verbose dry_run config).
Proof.
  unfold main, reconcile.
  apply (staged_bind 0 0 5); [lia|lia|apply load_config_staged|intros cfg].
  apply (staged_bind 0 0 5); [lia|lia|apply opam_check_staged|intros _].
  apply (staged_bind 0 0 5);
    [lia|lia|apply opam_get_switches_staged|intros switches].
  apply (staged_bind 0 1 5); [lia|lia| |intros _].
  { apply (staged_weaken 1 1); [lia|lia|apply ensure_switch_staged]. }
  apply (staged_bind 1 2 5); [lia|lia| |intros repos].
  { apply (staged_weaken 2 2); [lia|lia|apply opam_get_repositoris_staged]. }
  apply (staged_bind 2 2 5); [lia|lia|apply staged_getitem|intros rs].
  apply (staged_bind 2 3 5); [lia|lia| |intros _].
  { apply (staged_weaken 3 3); [lia|lia|].
    apply staged_for_each. intros r. apply ensure_repository_staged. }
  apply (staged_bind 3 3 5); [lia|lia|apply staged_getitem|intros deps].
  apply (staged_bind 3 4 5); [lia|lia| |intros _].
  { apply (staged_weaken 4 4); [lia|lia|apply opam_install_packages_staged]. }
  apply (staged_bind 4 4 5); [lia|lia|apply staged_getitem|intros eds].
  apply (staged_bind 4 5 5); [lia|lia| |intros _].
  { apply (staged_weaken 5 5); [lia|lia|].
    apply staged_for_each. intros d. apply ensure_extra_dep_staged. }
  intros w. apply in_stages_nil.
Qed.

(** X16. The child processes of a run are started in the order of the
    stages: the listing of the switches, then the creation of the
    switch, then the listing of the repositories, then the additions,
    then the install, then the clones and checkouts.  No process of an
    earlier stage is ever started after one of a later stage, whatever
    the flags, the configuration and the machine. *)
Theorem X16_stages_in_order verbose dry_run config (w : World os) :
  ascending (map stage (processes (trace verbose dry_run config w))) = true.
Proof.
  destruct (main_staged verbose dry_run config w) as [H _].
  unfold trace, run, events_of in *.
  destruct (main verbose dry_run config w) as [[w' es] [a|x]]; simpl in *;
    [exact H|].
  destruct x; simpl; try exact H;
    (rewrite processes_app; simpl; rewrite app_nil_r; exact H).
Qed.

End Order.

(* ================================================================== *)
(** * Further properties: why a run ended *)
(* ================================================================== *)

Lemma explained_sequential verbose cfg : sequential (explained verbose cfg).
Proof.
  split; [exact I|].
  intros es1 es2 [e|] _ H; [|exact I]. simpl in *.
  destruct H as [H|[[He [H|[argv H]]]|[[He [[argv [cwd H]]|H]]|H]]].
  - now left.
  - right. left. split; [exact He|]. left. apply in_or_app. now right.
  - right. left. split; [exact He|]. right. exists argv.
    apply in_or_app. now right.
  - right. right. left. split; [exact He|]. left. exists argv, cwd.
    apply in_or_app. now right.
  - right. right. left. split; [exact He|]. now right.
  - right. right. right. exact H.
Qed.

Ltac explain :=
  unfold explained, cause, no_root_line; cbn;
  first
    [ exact I
    | left; reflexivity
    | right; left; split; [reflexivity|];
      first [ left; simpl; solve [eauto 15]
            | right; eexists; simpl; solve [eauto 15] ]
    | right; right; left; split; [reflexivity|];
      first [ right; reflexivity
            | left; do 2 eexists; simpl; solve [eauto 15] ] ].

Ltac by_cause :=
  intros ?; open_monad; split_cases; cbn; ask_world; explain.

Section Causes.

Context {os : OS}.
Import PyStr.
Local Open Scope py_scope.

Lemma reconcile_explained verbose dry_run cfg :
  post (explained verbose cfg) (reconcile (os:=os) verbose dry_run cfg).
Proof.
  unfold reconcile, ensure_switch, ensure_repository, ensure_extra_dep.
  repeat first
    [ lazymatch goal with
      | |- post _ (opam_check _) => unfold opam_check; by_cause
      | |- post _ (opam_get_switches _) => unfold opam_get_switches; by_cause
      | |- post _ (opam_get_repositoris _ _) =>
          unfold opam_get_repositoris; by_cause
      | |- post _ (opam_switch_create _ _ _ _) =>
          unfold opam_switch_create; by_cause
      | |- post _ (opam_repo_add _ _ _ _ _) => unfold opam_repo_add; by_cause
      | |- post _ (opam_install_packages _ _ _ _) =>
          unfold opam_install_packages; by_cause
      | |- post _ (git_clone _ _ _ _ _) => unfold git_clone; by_cause
      | |- post _ (git_checkout _ _ _ _ _) => unfold git_checkout; by_cause
      | |- post _ (getitem ?k ?v) =>
          destruct v eqn:?;
          [ apply (post_ret _ (explained_sequential _ _))
          | intros ?; right; right; right; exists k; split; [reflexivity|];
            unfold absent; tauto ]
      end
    | apply (post_ret _ (explained_sequential _ _))
    | apply (post_for_each _ (explained_sequential _ _)); intros ? _
    | apply (post_bind _ (explained_sequential _ _)); [|intros ?]
    | match goal with
      | |- post _ (if ?b then _ else _) => destruct b
      end
    | solve [by_cause] ].
Qed.

(** how [main] is put together: a failed load, or a load followed by
    the rest of [main], which always ends by an exception with a cause *)
Lemma main_cases verbose dry_run config (w : World os) :
  (exists w1 es,
      load_config verbose config w = (w1, es, Raise (SystemExit 1))
      /\ main verbose dry_run config w = (w1, es, Raise (SystemExit 1)))
  \/ (exists w1 es0 cfg w2 es2 x,
         load_config verbose config w = (w1, es0, Ok cfg)
         /\ cause verbose cfg es2 x
         /\ main verbose dry_run config w = (w2, es0 ++ es2, Raise x)).
Proof.
  destruct (load_config_exits verbose config w) as [_ Hq].
  unfold main, result_of in *.
  destruct (load_config verbose config w) as [[w1 es0] [cfg|e]] eqn:Hl.
  - right.
    pose proof (reconcile_explained verbose dry_run cfg w1) as Hrec.
    destruct (reconcile_raises verbose dry_run cfg w1) as [x Hx].
    unfold events_of, result_of in Hrec, Hx.
    rewrite (bind_ok _ _ _ _ _ _ Hl).
    destruct (reconcile verbose dry_run cfg w1) as [[w2 es2] r].
    simpl in Hx. subst r. simpl in Hrec.
    exists w1, es0, cfg, w2, es2, x.
    split; [reflexivity|]. split; [exact Hrec|reflexivity].
  - left. simpl in Hq. unfold exits in Hq. subst e.
    exists w1, es0. split; [reflexivity|].
    now rewrite (bind_raise _ _ _ _ _ _ Hl).
Qed.

(** X17. How [main] ends once it is called with the parsed flags, and
    what each ending tells.  [main] never returns: it always ends by an
    exception.  Either the configuration could not be loaded, and
    [main] ends by [SystemExit(1)]; or it loaded, and [main] ends in one
    of four ways.  By [SystemExit(0)]: then no child process failed
    and all three lists are present.  By a [KeyError]: then its key is
    one of the three lists and the configuration lacks it.  By
    [SystemExit(2)]: then the advice about the missing OPAM root was
    printed, or a listing failed.  By [SystemExit(3)]: then a command
    failed, or [--verbose] was not given. *)
Theorem X17_why_main_ended verbose dry_run config (w : World os) :
  (exists e,
      result_of (load_config verbose config) w = Raise e
      /\ result_of (main verbose dry_run config) w = Raise (SystemExit 1))
  \/ (exists cfg e,
         result_of (load_config verbose config) w = Ok cfg
         /\ result_of (main verbose dry_run config) w = Raise e
         /\ ((e = SystemExit 0
              /\ existsb failed (events_of (main verbose dry_run config) w)
                 = false
              /\ cfg_repositories cfg <> None
              /\ cfg_dependencies cfg <> None
              /\ cfg_extra_deps cfg <> None)
             \/ (exists k, e = KeyError k /\ absent k cfg)
             \/ (e = SystemExit 2
                 /\ (In (Stdout no_root_line)
                       (events_of (main verbose dry_run config) w)
                     \/ exists argv,
                          In (Output argv None)
                            (events_of (main verbose dry_run config) w)))
             \/ (e = SystemExit 3
                 /\ ((exists argv cwd,
                         In (Call argv cwd false)
                           (events_of (main verbose dry_run config) w))
                     \/ verbose = false)))).
Proof.
  destruct (main_cases verbose dry_run config w)
    as [[w1 [es [Hl Hm]]]
       |[w1 [es0 [cfg [w2 [es2 [x [Hl [Hc Hm]]]]]]]]].
  - left. exists (SystemExit 1). unfold result_of. rewrite Hl, Hm.
    split; reflexivity.
  - right. exists cfg, x. unfold result_of, events_of. rewrite Hl, Hm.
    split; [reflexivity|]. split; [reflexivity|].
    cbn [fst snd].
    destruct Hc as [->|[[-> Hc]|[[-> Hc]|[k [-> Hk]]]]].
    + left. split; [reflexivity|].
      assert (Hrun : run verbose dry_run config w = (w2, es0 ++ es2, 0%Z))
        by (unfold run; now rewrite Hm).
      split.
      * apply not_true_is_false. intros Hex.
        apply existsb_exists in Hex as [e [Hin Hf]].
        destruct e as [| | |argv cwd [|]|argv [out|]]; try discriminate Hf.
        -- pose proof (failed_call_exits_3 verbose dry_run config w argv cwd)
             as H3.
           unfold trace, exit_code in H3. rewrite Hrun in H3.
           specialize (H3 Hin). discriminate H3.
        -- pose proof (failed_probe_exits_2 verbose dry_run config w argv)
             as H2.
           unfold trace, exit_code in H2. rewrite Hrun in H2.
           specialize (H2 Hin). discriminate H2.
      * pose proof (absent_list_exit_nonzero verbose dry_run config w w1 es0
                      cfg Hl) as Hnz.
        unfold exit_code in Hnz. rewrite Hrun in Hnz. cbn [snd] in Hnz.
        repeat split; intros Hnone; apply Hnz; auto.
    + right. right. left. split; [reflexivity|].
      destruct Hc as [Hc|[argv Hc]].
      * left. apply in_or_app. now right.
      * right. exists argv. apply in_or_app. now right.
    + right. right. right. split; [reflexivity|].
      destruct Hc as [[argv [cwd Hc]]|Hc]; [|now right].
      left. exists argv, cwd. apply in_or_app. now right.
    + right. left. exists k. now split.
Qed.

End Causes.

(** the minimal configuration: it loads, and [main] ends by the
    [KeyError] for the list the loop over the repositories asks for *)
Lemma X17_witness :
  result_of (main (os:=Sim.machine) true false CONFIG) (fresh minimal)
  = Raise (KeyError "repositories")
  /\ exists cfg,
       result_of (load_config (os:=Sim.machine) true CONFIG) (fresh minimal)
       = Ok cfg
       /\ absent "repositories" cfg.
Proof.
  split; [reflexivity|].
  destruct (X17_why_main_ended (os:=Sim.machine) true false CONFIG
              (fresh minimal))
    as [[e [Hl _]]|[cfg [e [Hl [Hm H]]]]]; [discriminate Hl|].
  exists cfg. split; [exact Hl|].
  vm_compute in Hm. injection Hm as <-.
  destruct H as [[H _]|[[k [H Hk]]|[[H _]|[H _]]]]; try discriminate H.
  now injection H as <-.
Defined.

(* ================================================================== *)
(** * Further properties: the names a probe returns *)
(* ================================================================== *)

Module StripFacts.
Import PyStr.

Lemma contains_cons c d rest :
  contains c (String d rest) = Ascii.eqb c d || contains c rest.
Proof. reflexivity. Qed.

Lemma rstrip_cons c rest :
  rstrip (String c rest)
  = match rstrip rest with
    | EmptyString => if isspace c then EmptyString else String c EmptyString
    | String a r => String c (String a r)
    end.
Proof. simpl. destruct (rstrip rest); reflexivity. Qed.

Lemma rstrip_idempotent s : rstrip (rstrip s) = rstrip s.
Proof.
  induction s as [|c rest IH]; [reflexivity|].
  rewrite rstrip_cons. destruct (rstrip rest) as [|a r] eqn:E.
  - destruct (isspace c) eqn:Hc; [reflexivity|].
    rewrite rstrip_cons. simpl rstrip. now rewrite Hc.
  - rewrite rstrip_cons, IH. reflexivity.
Qed.

Lemma lstrip_clean_start s : clean_start (lstrip s).
Proof.
  induction s as [|c rest IH]; [exact I|].
  simpl. destruct (isspace c) eqn:Hc; [exact IH|exact Hc].
Qed.

Lemma rstrip_clean_start s : clean_start s -> clean_start (rstrip s).
Proof.
  destruct s as [|c rest]; [trivial|]. intros Hc. simpl in Hc.
  rewrite rstrip_cons. destruct (rstrip rest); [rewrite Hc|]; exact Hc.
Qed.

Lemma lstrip_of_clean_start s : clean_start s -> lstrip s = s.
Proof.
  destruct s as [|c rest]; [reflexivity|]. simpl. now intros ->.
Qed.

Lemma strip_idempotent s : strip (strip s) = strip s.
Proof.
  unfold strip.
  rewrite (lstrip_of_clean_start (rstrip (lstrip s))).
  - apply rstrip_idempotent.
  - apply rstrip_clean_start, lstrip_clean_start.
Qed.

Lemma lstrip_contains c s :
  contains c s = false -> contains c (lstrip s) = false.
Proof.
  induction s as [|d rest IH]; [trivial|]. intros H. simpl.
  destruct (isspace d); [|exact H].
  simpl in H. apply orb_false_iff in H as [_ H]. now apply IH.
Qed.

Lemma rstrip_contains c s :
  contains c s = false -> contains c (rstrip s) = false.
Proof.
  induction s as [|d rest IH]; [trivial|]. intros H.
  simpl in H. apply orb_false_iff in H as [Hd Hrest].
  specialize (IH Hrest). rewrite rstrip_cons.
  destruct (rstrip rest) as [|a r].
  - destruct (isspace d); [reflexivity|]. simpl. now rewrite Hd.
  - change (contains c (String d (String a r)))
      with (Ascii.eqb c d || contains c (String a r)).
    now rewrite Hd, IH.
Qed.

Lemma strip_contains c s :
  contains c s = false -> contains c (strip s) = false.
Proof. intros H. now apply rstrip_contains, lstrip_contains. Qed.

Lemma split_lines_single s :
  Forall (fun l => contains newline l = false) (split_lines s).
Proof.
  induction s as [|c rest IH]; [repeat constructor|].
  simpl. destruct (Ascii.eqb c newline) eqn:Hc.
  - constructor; [reflexivity|exact IH].
  - destruct (split_lines rest) as [|h t].
    + constructor; [|constructor].
      rewrite contains_cons, Ascii.eqb_sym, Hc. reflexivity.
    + inversion IH as [|x l Hh Ht]; subst. constructor; [|exact Ht].
      rewrite contains_cons, Ascii.eqb_sym, Hc. exact Hh.
Qed.

(** the lines of an output, stripped *)
Lemma stripped_lines_tidy out :
  map strip (split_lines out) <> []
  /\ Forall tidy (map strip (split_lines out)).
Proof.
  split.
  - pose proof (PyStrFacts.split_lines_nonempty out) as H.
    destruct (split_lines out); [congruence|discriminate].
  - apply Forall_map. eapply Forall_impl; [|apply split_lines_single].
    intros l Hl. split; [apply strip_idempotent|now apply strip_contains].
Qed.

End StripFacts.

Section Names.

Context {os : OS}.

(** X18. What a probe returns is never the empty list, and every name
    in it is a single line with nothing left to strip: no newline
    inside, no white space at either end.  A switch or repository named
    in the configuration with white space around it can therefore never
    be found by the membership test. *)
Theorem X18_probed_names_are_tidy verbose switch (w : World os) :
  (forall names,
      result_of (opam_get_switches verbose) w = Ok names ->
      names <> [] /\ Forall tidy names)
  /\ (forall names,
         result_of (opam_get_repositoris verbose switch) w = Ok names ->
         names <> [] /\ Forall tidy names)
  /\ (forall names name,
         Forall tidy names -> PyStr.strip name <> name ->
         PyStr.mem name names = false).
Proof.
  split; [|split].
  - intros names. unfold result_of.
    destruct (check_output os w switch_list_argv) as [w' [out|]] eqn:E.
    + rewrite (opam_get_switches_ok verbose _ _ _ E). intros [= <-].
      apply StripFacts.stripped_lines_tidy.
    + rewrite (opam_get_switches_failed verbose _ _ E). discriminate.
  - intros names. unfold result_of.
    destruct (check_output os w (repo_list_argv switch)) as [w' [out|]] eqn:E.
    + rewrite (opam_get_repositoris_ok verbose _ _ _ _ E). intros [= <-].
      apply StripFacts.stripped_lines_tidy.
    + rewrite (opam_get_repositoris_failed verbose _ _ _ E). discriminate.
  - intros names name Ht Hn. apply not_true_is_false. intros Hm.
    apply PyStrFacts.mem_In in Hm. rewrite Forall_forall in Ht.
    destruct (Ht name Hm) as [Hs _]. contradiction.
Qed.

End Names.

Lemma X18_witness :
  result_of (opam_get_switches (os:=Sim.machine) false) (fresh full)
  = Ok ["default"; EmptyString]
  /\ Forall tidy ["default"; EmptyString]
  /\ PyStr.mem " default" ["default"; EmptyString] = false.
Proof.
  split; [reflexivity|].
  pose proof (X18_probed_names_are_tidy (os:=Sim.machine) false "default"
                (fresh full)) as [Hs [_ Hm]].
  destruct (Hs ["default"; EmptyString] eq_refl) as [_ Ht].
  split; [exact Ht|].
  apply (Hm ["default"; EmptyString] " default" Ht). discriminate.
Defined.

Lemma X19_witness :
  processes (trace (os:=Sim.machine) true true CONFIG (fresh full))
  = [ ["opam"; "switch"; "list"; "-s"];
      ["opam"; "repo"; "list"; "-s"; "--on-switches=4.14"];
      ["opam"; "install"; "--dry-run"; "--switch=4.14"; "coq"] ]
  /\ exit_code (os:=Sim.machine) true true CONFIG (fresh full) = 0%Z.
Proof.
  exact (X19_dry_run_reaches_the_end (os:=Sim.machine) CONFIG
           (fresh full) (fresh full) (fresh full) full
           {| cfg_opam := {| opam_switch := "4.14";
                             opam_compiler := "4.14.0" |};
              cfg_dependencies := Some ["coq"];
              cfg_extra_deps := Some [Entries.x];
              cfg_repositories := Some [Entries.released] |}
           ("default" ++ PyStr.NL)%string EmptyString
           [Entries.released] ["coq"] [Entries.x]
           eq_refl eq_refl eq_refl eq_refl eq_refl eq_refl eq_refl eq_refl
           eq_refl eq_refl).
Defined.
